(** * ms_deisotope: the Bruker TIMS reader ([_vendor/bruker_tims.py])

    A shallow embedding of the scan addressing, frame loading, scan buffer
    decoding, precursor location and spectrum assembly code of
    [ms_deisotope/data_source/_vendor/bruker_tims.py], and the properties
    its specification states about them.  It also covers the remaining
    accessors of the scan data source, the metadata tables, the loading
    of the native library and the term sets of [metadata/cv.py], with
    properties read off the code.

    Conventions of the embedding:
    - Python integers are [Z]; the [uint32] words of a scan buffer are [N];
    - the text of a scan identifier is the list of its code points; the
      decimal digits of the interpreter's Unicode database outside of
      ASCII are a parameter, and so is numpy's promotion rule for the sum
      of a Python integer and a [uint32] (NumPy 1 or NumPy 2);
    - decimal numerals are shorter than the limit the interpreter sets on
      conversions between [int] and [str] (4300 digits by default);
    - Python and numpy floats are an opaque type [F] (a section variable):
      the code only moves them around or hands them to external routines;
    - the native library, the sqlite connection, numpy's [argsort] and the
      ms_peak_picker routines are external collaborators, taken as
      parameters;
    - a method of [TIMSData] is a function from the object's state to an
      outcome (a value or a raised exception) and the state afterwards;
      the state carries a chronological log of the externally visible
      actions (allocations, library calls, queries, warnings, prints). *)

From Stdlib Require Import ZArith QArith Ascii String DecimalString DecimalPos DecimalZ.
From stdpp Require Import base option list gmap strings sorting.

Local Open Scope Z_scope.

(** ** Exceptions and messages *)

(** A Python 3 [str] is a sequence of Unicode code points.  The strings
    the code only stores, compares or prints are kept as Rocq strings;
    the text of a scan identifier, whose characters the patterns and
    [int()] classify, is the list of its code points. *)
Definition str := list N.

(** The text of an ASCII literal of the source. *)
Definition text (s : string) : str := map N_of_ascii (list_ascii_of_string s).

(** A [%]-formatted message is kept as its template and its arguments. *)
Inductive fmt_arg :=
| ArgInt (z : Z)
| ArgStr (s : string)
| ArgText (t : str).

Record message := Msg { template : string; arguments : list fmt_arg }.

(** The Python exceptions the modelled code can raise. *)
Inductive exn :=
| ValueError (m : message)
| RuntimeError (m : message)
| TypeError (m : message)
| IndexError (m : message)
| OverflowError (m : message)
| UnboundLocalError (name : string).

Inductive outcome (A : Type) :=
| Return (a : A)
| Raise (e : exn).
Arguments Return {A} a.
Arguments Raise {A} e.

(** The names the specification gives to the failures of this module. *)
Definition InvalidScanIdentifier (scan_id : str) : exn :=
  ValueError (Msg "%r does not look like a TIMS nativeID" [ArgText scan_id]).
Definition AmbiguousPrecursorMatch : exn :=
  ValueError (Msg "Multiple precursors found for scan interval!" []).
Definition FrameTooLarge : exn :=
  RuntimeError (Msg "Maximum expected frame size exceeded." []).

(** ** Text: [%d] formatting, [int()] and the two identifier patterns *)

(** ["%d" % z] for a Python integer. *)
Definition format_d (z : Z) : str := text (NilZero.string_of_int (Z.to_int z)).

(** The interpreter's Unicode database, as far as [\d] and [int()]
    consult it: the decimal digits (category Nd) outside of ASCII, each
    with its value.  Which code points they are depends on the version
    of the database; on Python 2, where [\d] on a [str] pattern is
    ASCII only, there is none. *)
Definition unicode_database := N -> option (fin 10).

Section Text.
Context (unicode : unicode_database).

(** [Py_UNICODE_TODECIMAL]: the value of a decimal digit.  Within ASCII
    the decimal digits are [0] to [9], code points 48 to 57, in every
    version of the database. *)
Definition to_decimal (c : N) : option N :=
  if (c <? 128)%N then
    if ((48 <=? c) && (c <=? 57))%N then Some (c - 48)%N else None
  else (fun d => N.of_nat (fin_to_nat d)) <$> unicode c.

(** [\d] in a pattern on text: any decimal digit. *)
Definition is_digit (c : N) : bool :=
  match to_decimal c with
  | Some _ => true
  | None => false
  end.

(** [int(s)] for a text [s] matched by [\d+]: each digit is replaced by
    the ASCII digit of the same value, and the numeral is read in base
    10. *)
Definition int (s : str) : Z :=
  let ascii_digits :=
    map (fun c => ascii_of_N (48 + default 0%N (to_decimal c))) s in
  match NilEmpty.uint_of_string (string_of_list_ascii ascii_digits) with
  | Some d => Z.of_uint d
  | None => 0
  end.

(** The longest prefix of digits of a text, and what follows it. *)
Fixpoint span_digits (s : str) : str * str :=
  match s with
  | [] => ([], [])
  | c :: s' =>
      if is_digit c then
        let '(ds, rest) := span_digits s' in (c :: ds, rest)
      else ([], s)
  end.

(** Matching a literal at the head of a text. *)
Fixpoint match_literal (lit s : str) : option str :=
  match lit with
  | [] => Some s
  | c :: lit' =>
      match s with
      | c' :: s' => if (c =? c')%N then match_literal lit' s' else None
      | [] => None
      end
  end.

(** The group [(\d+)]: greedy, at least one digit.  In both patterns the
    group is followed by a literal that starts with a space or by the end
    of the pattern, so the greedy match is the only one to try. *)
Definition match_digits (s : str) : option (str * str) :=
  match span_digits s with
  | ([], _) => None
  | (ds, rest) => Some (ds, rest)
  end.

(** [single_scan_id_parser.match(s)]: the groups of
    [frame=(\d+) scan=(\d+)] matched at the start of [s]. *)
Definition single_scan_id_parser (s : str) : option (str * str) :=
  s1 ← match_literal (text "frame=") s;
  '(g1, s2) ← match_digits s1;
  s3 ← match_literal (text " scan=") s2;
  '(g2, _) ← match_digits s3;
  Some (g1, g2).

(** [multi_scan_id_parser.match(s)]: the groups of
    [frame=(\d+) startScan=(\d+) endScan=(\d+)] matched at the start of
    [s]. *)
Definition multi_scan_id_parser (s : str) : option (str * str * str) :=
  s1 ← match_literal (text "frame=") s;
  '(g1, s2) ← match_digits s1;
  s3 ← match_literal (text " startScan=") s2;
  '(g2, s4) ← match_digits s3;
  s5 ← match_literal (text " endScan=") s4;
  '(g3, _) ← match_digits s5;
  Some (g1, g2, g3).

End Text.

(** ** ctypes argument conversions (no overflow check: values wrap) *)

Definition c_uint32 (z : Z) : Z := z mod 2 ^ 32.
Definition c_int64 (z : Z) : Z := (z + 2 ^ 63) mod 2 ^ 64 - 2 ^ 63.

(** [int(q)] for a float holding the rational [q]: truncation toward zero. *)
Definition py_int (q : Q) : Z := Z.quot (Qnum q) (Zpos (Qden q)).

(** ** Data model *)

Module PASEFPrecursorInformation.
Record t (F : Type) := make {
  frame_id : Z;
  start_scan : Z;
  end_scan : Z;
  isolation_mz : F;
  isolation_width : F;
  collision_energy : F;
  monoisotopic_mz : F;
  charge : Z;
  average_scan_number : F;
  intensity : F;
  parent : Z
}.
Arguments make {F}.
Arguments frame_id {F}.
Arguments start_scan {F}.
Arguments end_scan {F}.
Arguments isolation_mz {F}.
Arguments isolation_width {F}.
Arguments collision_energy {F}.
Arguments monoisotopic_mz {F}.
Arguments charge {F}.
Arguments average_scan_number {F}.
Arguments intensity {F}.
Arguments parent {F}.
End PASEFPrecursorInformation.

Module TIMSFrame.
(** The attribute [source], a reference back to the reader, is left out. *)
Record t (F : Type) := make {
  id : Z;
  accumulation_time : F;
  max_intensity : Z;
  msms_type : Z;
  mz_calibration : Z;
  num_peaks : Z;
  num_scans : Z;
  polarity : string;
  property_group : Z;
  ramp_time : F;
  scan_mode : Z;
  summed_intensities : Z;
  t1 : F;
  t2 : F;
  time : F;
  tims_calibration : Z;
  tims_id : Z;
  pasef_precursors : list (PASEFPrecursorInformation.t F)
}.
Arguments make {F}.
Arguments id {F}.
Arguments accumulation_time {F}.
Arguments max_intensity {F}.
Arguments msms_type {F}.
Arguments mz_calibration {F}.
Arguments num_peaks {F}.
Arguments num_scans {F}.
Arguments polarity {F}.
Arguments property_group {F}.
Arguments ramp_time {F}.
Arguments scan_mode {F}.
Arguments summed_intensities {F}.
Arguments t1 {F}.
Arguments t2 {F}.
Arguments time {F}.
Arguments tims_calibration {F}.
Arguments tims_id {F}.
Arguments pasef_precursors {F}.

(** [frame.pasef_precursors.extend(rows)] *)
Definition extend_pasef_precursors {F} (frame : t F)
    (rows : list (PASEFPrecursorInformation.t F)) : t F :=
  make (id frame) (accumulation_time frame) (max_intensity frame)
    (msms_type frame) (mz_calibration frame) (num_peaks frame)
    (num_scans frame) (polarity frame) (property_group frame)
    (ramp_time frame) (scan_mode frame) (summed_intensities frame)
    (t1 frame) (t2 frame) (time frame) (tims_calibration frame)
    (tims_id frame) (pasef_precursors frame ++ rows).
End TIMSFrame.

(** A row of the table [Frames], by column. *)
Module FramesRow.
Record t (F : Type) := make {
  Id : Z;
  AccumulationTime : F;
  MaxIntensity : Z;
  MsMsType : Z;
  MzCalibration : Z;
  NumPeaks : Z;
  NumScans : Z;
  Polarity : string;
  PropertyGroup : Z;
  RampTime : F;
  ScanMode : Z;
  SummedIntensities : Z;
  T1 : F;
  T2 : F;
  Time : F;
  TimsCalibration : Z;
  TimsId : Z
}.
Arguments make {F}.
Arguments Id {F}.
Arguments AccumulationTime {F}.
Arguments MaxIntensity {F}.
Arguments MsMsType {F}.
Arguments MzCalibration {F}.
Arguments NumPeaks {F}.
Arguments NumScans {F}.
Arguments Polarity {F}.
Arguments PropertyGroup {F}.
Arguments RampTime {F}.
Arguments ScanMode {F}.
Arguments SummedIntensities {F}.
Arguments T1 {F}.
Arguments T2 {F}.
Arguments Time {F}.
Arguments TimsCalibration {F}.
Arguments TimsId {F}.
End FramesRow.

(** [TIMSFrame.from_query]: [pasef_precursors] defaults to a fresh empty
    list. *)
Definition TIMSFrame_from_query {F} (rowdict : FramesRow.t F) : TIMSFrame.t F :=
  TIMSFrame.make
    (FramesRow.Id rowdict) (FramesRow.AccumulationTime rowdict)
    (FramesRow.MaxIntensity rowdict) (FramesRow.MsMsType rowdict)
    (FramesRow.MzCalibration rowdict) (FramesRow.NumPeaks rowdict)
    (FramesRow.NumScans rowdict) (FramesRow.Polarity rowdict)
    (FramesRow.PropertyGroup rowdict) (FramesRow.RampTime rowdict)
    (FramesRow.ScanMode rowdict) (FramesRow.SummedIntensities rowdict)
    (FramesRow.T1 rowdict) (FramesRow.T2 rowdict) (FramesRow.Time rowdict)
    (FramesRow.TimsCalibration rowdict) (FramesRow.TimsId rowdict) [].

(** [TIMSSpectrumDataBase] and its subclass [TIMSPASEFSpectrumData]. *)
Module TIMSSpectrumDataBase.
Record t (F : Type) := make {
  frame : TIMSFrame.t F;
  start_scan : Z;
  _end_scan : option Z
}.
Arguments make {F}.
Arguments frame {F}.
Arguments start_scan {F}.
Arguments _end_scan {F}.

Definition end_scan {F} (self : t F) : Z :=
  match _end_scan self with
  | None => start_scan self + 1
  | Some e => e
  end.

Definition is_combined {F} (self : t F) : bool :=
  match _end_scan self with
  | Some e => bool_decide (e - start_scan self > 1)
  | None => false
  end.

Definition make_id_string {F} (self : t F) : str :=
  match _end_scan self with
  | None =>
      text "frame=" ++ format_d (TIMSFrame.id (frame self)) ++
      text " scan=" ++ format_d (start_scan self + 1)
  | Some _ =>
      text "frame=" ++ format_d (TIMSFrame.id (frame self)) ++
      text " startScan=" ++ format_d (start_scan self + 1) ++
      text " endScan=" ++ format_d (end_scan self + 1)
  end.
End TIMSSpectrumDataBase.

Module TIMSPASEFSpectrumData.
Record t (F : Type) := make {
  base :> TIMSSpectrumDataBase.t F;
  pasef_precursor : option (PASEFPrecursorInformation.t F)
}.
Arguments make {F}.
Arguments base {F}.
Arguments pasef_precursor {F}.

(** [TIMSPASEFSpectrumData(frame, start_scan, pasef_precursor, end_scan=None)] *)
Definition init {F} (frame : TIMSFrame.t F) (start_scan : Z)
    (pasef_precursor : option (PASEFPrecursorInformation.t F))
    (end_scan : option Z) : t F :=
  make (TIMSSpectrumDataBase.make frame start_scan end_scan) pasef_precursor.
End TIMSPASEFSpectrumData.

(** What [_make_scan] wraps: an instance of one of the two classes. *)
Inductive Scan (F : Type) :=
| ScanOfBase (data : TIMSSpectrumDataBase.t F)
| ScanOfPASEF (data : TIMSPASEFSpectrumData.t F).
Arguments ScanOfBase {F}.
Arguments ScanOfPASEF {F}.

Definition scan_data {F} (scan : Scan F) : TIMSSpectrumDataBase.t F :=
  match scan with
  | ScanOfBase d => d
  | ScanOfPASEF d => TIMSPASEFSpectrumData.base d
  end.

Record ActivationInformation (F : Type) := {
  method : string;
  energy : F
}.
Arguments Build_ActivationInformation {F}.
Arguments method {F}.
Arguments energy {F}.


(** A row of the join of [PasefFrameMsMsInfo] with [Precursors], by column. *)
Module PasefRow.
Record t (F : Type) := make {
  Frame : Z;
  ScanNumBegin : Z;
  ScanNumEnd : Z;
  IsolationMz : F;
  IsolationWidth : F;
  CollisionEnergy : F;
  MonoisotopicMz : F;
  Charge : Z;
  ScanNumber : F;
  Intensity : F;
  Parent : Z
}.
Arguments make {F}.
Arguments Frame {F}.
Arguments ScanNumBegin {F}.
Arguments ScanNumEnd {F}.
Arguments IsolationMz {F}.
Arguments IsolationWidth {F}.
Arguments CollisionEnergy {F}.
Arguments MonoisotopicMz {F}.
Arguments Charge {F}.
Arguments ScanNumber {F}.
Arguments Intensity {F}.
Arguments Parent {F}.
End PasefRow.

(** [PASEFPrecursorInformation.from_query] *)
Definition PASEFPrecursorInformation_from_query {F} (rowdict : PasefRow.t F)
    : PASEFPrecursorInformation.t F :=
  PASEFPrecursorInformation.make
    (PasefRow.Frame rowdict) (PasefRow.ScanNumBegin rowdict)
    (PasefRow.ScanNumEnd rowdict) (PasefRow.IsolationMz rowdict)
    (PasefRow.IsolationWidth rowdict) (PasefRow.CollisionEnergy rowdict)
    (PasefRow.MonoisotopicMz rowdict) (PasefRow.Charge rowdict)
    (PasefRow.ScanNumber rowdict) (PasefRow.Intensity rowdict)
    (PasefRow.Parent rowdict).

(** ** External collaborators *)

(** The conversion entry points of the native library. *)
Inductive conversion :=
| tims_index_to_mz
| tims_mz_to_index
| tims_scannum_to_oneoverk0
| tims_oneoverk0_to_scannum
| tims_scannum_to_voltage
| tims_voltage_to_scannum.

(** The native library.  A call that fills a caller-allocated array gives
    its return value and the content of each cell of the array after the
    call (for a cell it did not write, whatever the allocation left
    there); the caller's array keeps the length it was allocated with.
    [tims_read_scans_v2 handle frame_id scan_begin scan_end len] takes the
    arguments after their ctypes conversion. *)
Record timsdata (F : Type) := {
  tims_read_scans_v2 : Z -> Z -> Z -> Z -> Z -> Z * (nat -> N);
  tims_convert : conversion -> Z -> Z -> list F -> Z * (nat -> F);
  tims_get_last_error_string : string
}.
Arguments tims_read_scans_v2 {F}.
Arguments tims_convert {F}.
Arguments tims_get_last_error_string {F}.

(** The sqlite connection: the two queries the reader runs.
    [select_frame id] is [fetchone()] of
    [SELECT * FROM Frames WHERE Id=id], [select_pasef_precursors id] the
    rows of the join query for frame [id], in the order returned. *)
Record connection (F : Type) := {
  select_frame : Z -> option (FramesRow.t F);
  select_pasef_precursors : Z -> list (PasefRow.t F)
}.
Arguments select_frame {F}.
Arguments select_pasef_precursors {F}.

(** The externally visible actions, in the order the code performs them. *)
Inductive event (F : Type) :=
| np_empty (shape : Z)
| call_tims_read_scans_v2 (frame_id scan_begin scan_end buffer_size_in_bytes : Z)
| call_conversion (fn : conversion) (frame_id : Z) (input : list F)
| call_tims_get_last_error_string
| sql_select_frame (frame_id : Z)
| sql_select_pasef_precursors (frame_id : Z)
| warnings_warn (m : message)
| print (m : message).
Arguments np_empty {F}.
Arguments call_tims_read_scans_v2 {F}.
Arguments call_conversion {F}.
Arguments call_tims_get_last_error_string {F}.
Arguments sql_select_frame {F}.
Arguments sql_select_pasef_precursors {F}.
Arguments warnings_warn {F}.
Arguments print {F}.

Record scan_merging_parameters (F : Type) := {
  fwhm : F;
  dx : F
}.
Arguments Build_scan_merging_parameters {F}.
Arguments fwhm {F}.
Arguments dx {F}.

(** ** The reader's state *)

(** The attributes of a [TIMSData] instance that its methods read or
    write, and the log.  [initial_frame_buffer_size] is a Python number:
    it starts as the integer 128 and is later assigned
    [required_len / 4 + 1], a true division, hence a rational.
    [_frame_cache] is a [WeakValueDictionary]: between two calls an entry
    may vanish, never change. *)
Record TIMSData (F : Type) := {
  handle : Z;
  initial_frame_buffer_size : Q;
  _frame_cache : gmap Z (TIMSFrame.t F);
  _scan_merging_parameters : scan_merging_parameters F;
  log : list (event F)
}.
Arguments Build_TIMSData {F}.
Arguments handle {F}.
Arguments initial_frame_buffer_size {F}.
Arguments _frame_cache {F}.
Arguments _scan_merging_parameters {F}.
Arguments log {F}.

(** A method: from the state to an outcome and the state afterwards. *)
Definition M (F A : Type) : Type := TIMSData F -> outcome A * TIMSData F.

Definition M_ret {F A} (a : A) : M F A := fun self => (Return a, self).

Definition M_bind {F A B} (k : A -> M F B) (m : M F A) : M F B :=
  fun self =>
    match m self with
    | (Return a, self') => k a self'
    | (Raise e, self') => (Raise e, self')
    end.

#[global] Instance M_MRet {F} : MRet (M F) := @M_ret F.
#[global] Instance M_MBind {F} : MBind (M F) := @M_bind F.

Definition raise {F A} (e : exn) : M F A := fun self => (Raise e, self).

(** A pure computation that may raise, run inside a method. *)
Definition lift {F A} (o : outcome A) : M F A := fun self => (o, self).

Definition record_event {F} (e : event F) : M F unit :=
  fun self =>
    (Return tt,
     Build_TIMSData (handle self) (initial_frame_buffer_size self)
       (_frame_cache self) (_scan_merging_parameters self) (log self ++ [e])).

Definition set_initial_frame_buffer_size {F} (q : Q) : M F unit :=
  fun self =>
    (Return tt,
     Build_TIMSData (handle self) q (_frame_cache self)
       (_scan_merging_parameters self) (log self)).

(** [self._frame_cache[frame_id] = frame] *)
Definition cache_frame {F} (frame_id : Z) (frame : TIMSFrame.t F) : M F unit :=
  fun self =>
    (Return tt,
     Build_TIMSData (handle self) (initial_frame_buffer_size self)
       (<[frame_id := frame]> (_frame_cache self))
       (_scan_merging_parameters self) (log self)).

(** The state [__init__] leaves: estimate 128, empty cache, nothing done
    yet (the metadata queries of [_read_metadata] are not modelled). *)
Definition TIMSData_init {F} (handle : Z) (params : scan_merging_parameters F)
    : TIMSData F :=
  Build_TIMSData handle 128 ∅ params [].

(** Modelled from the spec: the class [Interval] of
    [ms_deisotope.peak_dependency_network] and its method [overlaps] are
    not among the sources at hand.  The specification has the resolver
    build half-open intervals [[start_scan, end_scan)] and take as a match
    a precursor interval that overlaps the query interval: the two
    half-open ranges share a scan number. *)
Module Interval.
Record t := make { start : Z; stop : Z }.
Definition overlaps (self interval : t) : bool :=
  bool_decide (Z.max (start self) (start interval) < Z.min (stop self) (stop interval)).
End Interval.

(** [buf[start:stop]] on a numpy array, for [0 <= start <= stop]: the
    slice is cut at the end of the array. *)
Definition np_slice {A} (buf : list A) (start stop : nat) : list A :=
  take (stop - start) (drop start buf).

(** [a[mask]] for an array of indices: every index must be in range. *)
Definition np_take {A} (a : list A) (mask : list nat) : option (list A) :=
  mapM (fun i => a !! i) mask.

(** A bound of a slice [buf[start:stop]] given as an integer: a negative
    bound counts from the end, and every bound is clipped to the array. *)
Definition slice_bound (len : nat) (i : Z) : nat :=
  Z.to_nat (if i <? 0 then Z.max (i + Z.of_nat len) 0 else Z.min i (Z.of_nat len)).

Definition np_slice_int {A} (buf : list A) (start stop : Z) : list A :=
  np_slice buf (slice_bound (length buf) start) (slice_bound (length buf) stop).

(** numpy's rule for the type of [d + npeaks], where [npeaks] is a
    [uint32] scalar and [d] a Python [int] at first and the previous sum
    afterwards.  With the legacy promotion of NumPy 1 the Python [int] is
    taken as an [int64] and so is the sum; with the weak promotion of
    Python scalars of NumPy 2 (NEP 50) the sum is a [uint32]. *)
Inductive promotion :=
| legacy_promotion
| weak_promotion.

(** [d + npeaks].  A [uint32] sum wraps modulo [2 ^ 32], and a Python
    [int] that is no [uint32] is refused; an [int64] sum wraps modulo
    [2 ^ 64].  (numpy reports a wrapped sum of scalars with a
    [RuntimeWarning] of its own, which the log of the reader does not
    record.  A Python [int] of [2 ^ 63] or more, which NumPy 1 holds
    otherwise, takes a range of as many scans.) *)
Definition np_add (numpy : promotion) (d : Z) (npeaks : N) : outcome Z :=
  match numpy with
  | legacy_promotion => Return ((d + Z.of_N npeaks + 2 ^ 63) mod 2 ^ 64 - 2 ^ 63)
  | weak_promotion =>
      if (0 <=? d) && (d <? 2 ^ 32) then Return ((d + Z.of_N npeaks) mod 2 ^ 32)
      else Raise (OverflowError
                    (Msg "Python integer %d out of bounds for uint32" [ArgInt d]))
  end.
Arguments np_add : simpl never.

(** ** The methods of the reader *)

Section Reader.
Context {F : Type}.
(** The interpreter's Unicode database, and numpy's promotion rule. *)
Context (unicode : unicode_database) (numpy : promotion).
(** The native library and the sqlite connection behind the reader. *)
Context (dll : timsdata F) (conn : connection F).
(** numpy: the exact conversion of a [uint32] to a float, and [argsort]. *)
Context (float_of_uint32 : N -> F) (argsort : list F -> list nat).
(** ms_peak_picker: [pick_peaks(mzs, intensities, peak_mode="centroid")]
    and [reprofile(centroids, dx=dx, override_fwhm=fwhm)]. *)
Context {PeakSet : Type}.
Context (pick_peaks : list F -> list F -> PeakSet).
Context (reprofile : PeakSet -> F -> F -> list F * list F).

Abbreviation Precursor := (PASEFPrecursorInformation.t F).
Abbreviation Data := (TIMSSpectrumDataBase.t F).

Definition throw_tims_error {A} : M F A :=
  _ ← record_event call_tims_get_last_error_string;
  _ ← record_event call_tims_get_last_error_string;
  raise (RuntimeError (Msg (tims_get_last_error_string dll) [])).

(** *** Frames *)

Definition get_frame_by_id (frame_id : Z) : M F (TIMSFrame.t F) :=
  fun self =>
    match _frame_cache self !! frame_id with
    | Some frame => (Return frame, self)
    | None =>
        (_ ← record_event (sql_select_frame frame_id);
         match select_frame conn frame_id with
         | None =>
             raise (TypeError (Msg "'NoneType' object is not iterable" []))
         | Some rowdict =>
             let frame := TIMSFrame_from_query rowdict in
             frame ←
               (if TIMSFrame.msms_type frame =? 0 then mret frame
                else if TIMSFrame.msms_type frame =? 8 then
                  _ ← record_event (sql_select_pasef_precursors frame_id);
                  mret (TIMSFrame.extend_pasef_precursors frame
                          (map PASEFPrecursorInformation_from_query
                             (select_pasef_precursors conn frame_id)))
                else
                  _ ← record_event
                        (warnings_warn
                           (Msg "No support for MSMSType %r yet"
                              [ArgInt (TIMSFrame.msms_type frame)]));
                  mret frame);
             _ ← cache_frame frame_id frame;
             mret frame
         end) self
    end.

(** *** Precursors *)

Definition contains_scan (scan_number : Z) (precursor : Precursor) : bool :=
  (PASEFPrecursorInformation.start_scan precursor <=? scan_number)
  && (scan_number <? PASEFPrecursorInformation.end_scan precursor).

Definition overlaps_query (query_interval : Interval.t) (precursor : Precursor) : bool :=
  Interval.overlaps query_interval
    (Interval.make (PASEFPrecursorInformation.start_scan precursor)
                   (PASEFPrecursorInformation.end_scan precursor)).

Definition _locate_pasef_precursor_for (scan : Data) : outcome (option Precursor) :=
  if TIMSSpectrumDataBase.is_combined scan then
    let query_interval :=
      Interval.make (TIMSSpectrumDataBase.start_scan scan)
                    (TIMSSpectrumDataBase.end_scan scan) in
    let matches :=
      List.filter (overlaps_query query_interval)
        (TIMSFrame.pasef_precursors (TIMSSpectrumDataBase.frame scan)) in
    let n_matches := length matches in
    if (n_matches =? 0)%nat then Return None
    else if (1 <? n_matches)%nat then Raise AmbiguousPrecursorMatch
    else
      match matches !! 0%nat with
      | Some precursor => Return (Some precursor)
      | None => Raise (IndexError (Msg "list index out of range" []))
      end
  else
    let scan_number := TIMSSpectrumDataBase.start_scan scan in
    Return (List.find (contains_scan scan_number)
              (TIMSFrame.pasef_precursors (TIMSSpectrumDataBase.frame scan))).

(** The local variable [collision_energy] is bound only under the [if]. *)
Definition _activation (scan : Data) : M F (ActivationInformation F) :=
  let mode := TIMSFrame.scan_mode (TIMSSpectrumDataBase.frame scan) in
  method ←
    (if bool_decide (mode ∈ [2; 8; 9]) then
       mret "collision-induced dissociation"%string
     else if bool_decide (mode ∈ [3; 4; 5]) then
       mret "in-source collision-induced dissociation"%string
     else
       _ ← record_event
             (print (Msg "Unknown Scan Mode %d, Unknown Dissociation. Returning CID"
                       [ArgInt mode]));
       mret "collision-induced dissociation"%string);
  precursor ← lift (_locate_pasef_precursor_for scan);
  let collision_energy :=
    match precursor with
    | Some precursor => Some (PASEFPrecursorInformation.collision_energy precursor)
    | None => None
    end in
  match collision_energy with
  | Some collision_energy =>
      mret (Build_ActivationInformation method collision_energy)
  | None => raise (UnboundLocalError "collision_energy")
  end.

(** *** Scan identifiers *)

Definition get_scan_by_id (scan_id : str) : M F (Scan F) :=
  match single_scan_id_parser unicode scan_id with
  | None =>
      match multi_scan_id_parser unicode scan_id with
      | None => raise (InvalidScanIdentifier scan_id)
      | Some (g1, g2, g3) =>
          let frame_id := int unicode g1 in
          let start_scan := int unicode g2 in
          let end_scan := int unicode g3 in
          frame ← get_frame_by_id frame_id;
          if TIMSFrame.msms_type frame =? 8 then
            let pasef_scan : TIMSPASEFSpectrumData.t F :=
              TIMSPASEFSpectrumData.init frame (start_scan - 1) None (Some end_scan) in
            precursor ← lift (_locate_pasef_precursor_for (TIMSPASEFSpectrumData.base pasef_scan));
            mret (ScanOfPASEF
                    (TIMSPASEFSpectrumData.make
                       (TIMSPASEFSpectrumData.base pasef_scan) precursor))
          else
            mret (ScanOfBase
                    (TIMSSpectrumDataBase.make frame (start_scan - 1) (Some end_scan)))
      end
  | Some (g1, g2) =>
      let frame_id := int unicode g1 in
      let scan_number := int unicode g2 in
      frame ← get_frame_by_id frame_id;
      if TIMSFrame.msms_type frame =? 8 then
        let pasef_scan : TIMSPASEFSpectrumData.t F :=
          TIMSPASEFSpectrumData.init frame (scan_number - 1) None None in
        precursor ← lift (_locate_pasef_precursor_for (TIMSPASEFSpectrumData.base pasef_scan));
        mret (ScanOfPASEF
                (TIMSPASEFSpectrumData.make
                   (TIMSPASEFSpectrumData.base pasef_scan) precursor))
      else
        mret (ScanOfBase (TIMSSpectrumDataBase.make frame (scan_number - 1) None))
  end.

(** *** Conversions *)

Definition _convert_callback (frame_id : Z) (in_array : list F) (func : conversion)
    : M F (list F) :=
  fun self =>
    let cnt := length in_array in
    let '(success, out) :=
      tims_convert dll func (handle self) (c_int64 frame_id) in_array in
    (_ ← record_event (call_conversion func frame_id in_array);
     if success =? 0 then throw_tims_error
     else mret (map out (seq 0 cnt))) self.

Definition index_to_mz (frame_id : Z) (mzs : list F) : M F (list F) :=
  _convert_callback frame_id mzs tims_index_to_mz.

(** *** Scan buffers *)

(** The buffer-growing loop of [read_scans], up to its [break]: the
    buffer to decode.  [fuel] bounds the number of attempts; [None] is a
    loop that has not ended within it. *)
Fixpoint read_scans_buffer (fuel : nat) (frame_id scan_begin scan_end : Z)
    (self : TIMSData F) : option (outcome (list N) * TIMSData F) :=
  match fuel with
  | O => None
  | S fuel =>
      let cnt := py_int (initial_frame_buffer_size self) in
      if cnt <? 0 then
        Some (Raise (ValueError (Msg "negative dimensions are not allowed" [])), self)
      else
        let self := (record_event (np_empty cnt) self).2 in
        let buffer_size_in_bytes := 4 * cnt in
        let '(required_len, words) :=
          tims_read_scans_v2 dll (handle self) (c_int64 frame_id)
            (c_uint32 scan_begin) (c_uint32 scan_end)
            (c_uint32 buffer_size_in_bytes) in
        let buf := map words (seq 0 (Z.to_nat cnt)) in
        let self :=
          (record_event
             (call_tims_read_scans_v2 frame_id scan_begin scan_end
                buffer_size_in_bytes) self).2 in
        if required_len =? 0 then Some (throw_tims_error self)
        else if required_len >? buffer_size_in_bytes then
          if required_len >? 16777216 then Some (Raise FrameTooLarge, self)
          else
            read_scans_buffer fuel frame_id scan_begin scan_end
              (set_initial_frame_buffer_size
                 (Qplus (Qmake required_len 4) 1) self).2
        else Some (Return buf, self)
  end.

(** The decoding loop of [read_scans]: [k] is [i - scan_begin], [n] the
    number of iterations left, [d] the read position.  The sums
    [d + npeaks] are numpy's: each is computed for the end of a slice and
    again for [d += npeaks], with the same result. *)
Fixpoint decode_scans (buf : list N) (k n : nat) (d : Z)
    : outcome (list (list N * list N)) :=
  match n with
  | O => Return []
  | S n =>
      match buf !! k with
      | None =>
          Raise (IndexError (Msg "index %d is out of bounds" [ArgInt (Z.of_nat k)]))
      | Some npeaks =>
          match np_add numpy d npeaks with
          | Raise e => Raise e
          | Return stop =>
              let indices := np_slice_int buf d stop in
              let d := stop in
              match np_add numpy d npeaks with
              | Raise e => Raise e
              | Return stop =>
                  let intensities := np_slice_int buf d stop in
                  let d := stop in
                  match decode_scans buf (S k) n d with
                  | Return result => Return ((indices, intensities) :: result)
                  | Raise e => Raise e
                  end
              end
          end
      end
  end.

Definition read_scans (fuel : nat) (frame_id scan_begin scan_end : Z)
    (self : TIMSData F) : option (outcome (list (list N * list N)) * TIMSData F) :=
  match read_scans_buffer fuel frame_id scan_begin scan_end self with
  | None => None
  | Some (Raise e, self) => Some (Raise e, self)
  | Some (Return buf, self) =>
      let d := scan_end - scan_begin in
      Some (decode_scans buf 0 (Z.to_nat (scan_end - scan_begin)) d, self)
  end.

(** The accumulation loop of [read_spectrum]. *)
Definition accumulate_scan (acc : list F * list F) (scan : list N * list N)
    : list F * list F :=
  let '(allind, allint) := acc in
  let indices := scan.1 in
  if (0 <? length indices)%nat then
    let intens := scan.2 in
    (allind ++ map float_of_uint32 indices, allint ++ map float_of_uint32 intens)
  else (allind, allint).

Definition read_spectrum (fuel : nat) (frame_id scan_begin scan_end : Z)
    (self : TIMSData F) : option (outcome (list F * list F) * TIMSData F) :=
  match read_scans fuel frame_id scan_begin scan_end self with
  | None => None
  | Some (Raise e, self) => Some (Raise e, self)
  | Some (Return scans, self) =>
      let '(allind, allint) := fold_left accumulate_scan scans ([], []) in
      Some ((allmz ← index_to_mz frame_id allind;
             mret (allmz, allint)) self)
  end.

(** *** Spectrum assembly *)

Definition _scan_arrays (fuel : nat) (scan : Data) (self : TIMSData F)
    : option (outcome (list F * list F) * TIMSData F) :=
  if TIMSSpectrumDataBase.is_combined scan then
    match read_spectrum fuel (TIMSFrame.id (TIMSSpectrumDataBase.frame scan))
            (TIMSSpectrumDataBase.start_scan scan)
            (TIMSSpectrumDataBase.end_scan scan) self with
    | None => None
    | Some (Raise e, self) => Some (Raise e, self)
    | Some (Return (mzs, intensities), self) =>
        let sort_mask := argsort mzs in
        match np_take mzs sort_mask, np_take intensities sort_mask with
        | Some mzs, Some intensities =>
            let centroids := pick_peaks mzs intensities in
            Some (Return (reprofile centroids
                            (dx (_scan_merging_parameters self))
                            (fwhm (_scan_merging_parameters self))), self)
        | _, _ =>
            Some (Raise (IndexError (Msg "index out of bounds" [])), self)
        end
    end
  else
    read_spectrum fuel (TIMSFrame.id (TIMSSpectrumDataBase.frame scan))
      (TIMSSpectrumDataBase.start_scan scan)
      (TIMSSpectrumDataBase.end_scan scan) self.

End Reader.

Arguments throw_tims_error {F} dll {A}.
Arguments get_frame_by_id {F} conn frame_id.
Arguments _locate_pasef_precursor_for {F} scan.
Arguments contains_scan {F} scan_number precursor.
Arguments overlaps_query {F} query_interval precursor.
Arguments _activation {F} scan.
Arguments get_scan_by_id {F} unicode conn scan_id.
Arguments _convert_callback {F} dll frame_id in_array func.
Arguments index_to_mz {F} dll frame_id mzs.
Arguments read_scans_buffer {F} dll fuel frame_id scan_begin scan_end self.
Arguments read_scans {F} numpy dll fuel frame_id scan_begin scan_end self.
Arguments accumulate_scan {F} float_of_uint32 acc scan.
Arguments read_spectrum {F} numpy dll float_of_uint32 fuel frame_id scan_begin scan_end self.
Arguments _scan_arrays {F} numpy dll float_of_uint32 argsort {PeakSet} pick_peaks reprofile fuel scan self.

(** ** Vocabulary of the statements *)

(** A Rocq string made of ASCII digits. *)
Definition ascii_digits (s : string) : Prop :=
  Forall (fun a => (48 <= N_of_ascii a <= 57)%N) (list_ascii_of_string s).

Section TextVocabulary.
Context (unicode : unicode_database).

(** Text made of digits only, and of at least one digit. *)
Definition digits (s : str) : bool := forallb (is_digit unicode) s.

Definition digits1 (s : str) : Prop := s <> [] /\ digits s = true.

(** The text does not go on with a digit. *)
Definition no_digit_ahead (rest : str) : Prop :=
  forall c rest', rest = c :: rest' -> is_digit unicode c = false.

(** The text begins with a single-scan, resp. merged, identifier. *)
Definition begins_with_single_id (s : str) : Prop :=
  exists d1 d2 rest, digits1 d1 /\ digits1 d2 /\
    s = text "frame=" ++ d1 ++ text " scan=" ++ d2 ++ rest.

Definition begins_with_multi_id (s : str) : Prop :=
  exists d1 d2 d3 rest, digits1 d1 /\ digits1 d2 /\ digits1 d3 /\
    s = text "frame=" ++ d1 ++ text " startScan=" ++ d2 ++ text " endScan=" ++ d3 ++ rest.

(** The two identifier formats as the specification words them: the whole
    text is [frame=<int> scan=<int>], resp.
    [frame=<int> startScan=<int> endScan=<int>], an [<int>] being a
    decimal numeral with an optional minus sign. *)
Definition int_text (t : str) : Prop :=
  digits1 t \/ exists d, digits1 d /\ t = text "-" ++ d.

Definition single_id_format (s : str) : Prop :=
  exists t1 t2, int_text t1 /\ int_text t2 /\
    s = text "frame=" ++ t1 ++ text " scan=" ++ t2.

Definition multi_id_format (s : str) : Prop :=
  exists t1 t2 t3, int_text t1 /\ int_text t2 /\ int_text t3 /\
    s = text "frame=" ++ t1 ++ text " startScan=" ++ t2 ++ text " endScan=" ++ t3.

End TextVocabulary.

(** The first sum that a promotion rule does not hold: read positions
    below it are exact. *)
Definition wrap_limit (numpy : promotion) : Z :=
  match numpy with
  | legacy_promotion => 2 ^ 63
  | weak_promotion => 2 ^ 32
  end.

(** The packed layout of a scan buffer holding [n] scans: the peak counts
    are its first [n] words, the payload of scan [i] starts after the
    counts and the payloads of the scans before it. *)
Definition peak_counts (buf : list N) (n : nat) : list nat :=
  map N.to_nat (take n buf).

Definition payload_offset (buf : list N) (n i : nat) : nat :=
  n + 2 * sum_list (take i (peak_counts buf n)).

(** The counts and the payloads they announce lie within the buffer. *)
Definition layout_fits (buf : list N) (n : nat) : Prop :=
  (n + 2 * sum_list (peak_counts buf n) <= length buf)%nat.

(** The scans [read_spectrum] takes into account. *)
Definition non_empty_scans (scans : list (list N * list N)) : list (list N * list N) :=
  List.filter (fun scan => (0 <? length scan.1)%nat) scans.

(** The events a call added to the log. *)
Definition new_events {F} (before after : TIMSData F) : list (event F) :=
  drop (length (log before)) (log after).

Definition is_allocation_within {F} (bound : Z) (e : event F) : Prop :=
  match e with
  | np_empty shape => shape <= bound
  | _ => True
  end.

(** What loading frame [frame_id] from the metadata store produces. *)
Definition loaded_frame {F} (conn : connection F) (frame_id : Z)
    (rowdict : FramesRow.t F) : TIMSFrame.t F :=
  if FramesRow.MsMsType rowdict =? 8 then
    TIMSFrame.extend_pasef_precursors (TIMSFrame_from_query rowdict)
      (map PASEFPrecursorInformation_from_query (select_pasef_precursors conn frame_id))
  else TIMSFrame_from_query rowdict.

(** Every cached frame is the frame a load would produce. *)
Definition cache_consistent {F} (conn : connection F) (self : TIMSData F) : Prop :=
  forall frame_id frame, _frame_cache self !! frame_id = Some frame ->
    exists rowdict, select_frame conn frame_id = Some rowdict /\
                    frame = loaded_frame conn frame_id rowdict.

(** What numpy documents of [argsort]: a permutation of the positions of
    its argument, along which the values of the argument ascend. *)
Definition argsort_result {F} (le : F -> F -> Prop) (a : list F) (mask : list nat) : Prop :=
  Permutation mask (seq 0 (length a)) /\
  forall i j mi mj x y, (i < j)%nat ->
    mask !! i = Some mi -> mask !! j = Some mj ->
    a !! mi = Some x -> a !! mj = Some y -> le x y.

(** The dissociation method [_activation] settles on for a scan mode. *)
Definition method_of_mode (mode : Z) : string :=
  if bool_decide (mode ∈ [3; 4; 5]) then "in-source collision-induced dissociation"
  else "collision-induced dissociation".

(** The events of a load of frame [frame_id] from the metadata store. *)
Definition load_events {F} (frame_id : Z) (rowdict : FramesRow.t F) : list (event F) :=
  sql_select_frame frame_id ::
  (if FramesRow.MsMsType rowdict =? 0 then []
   else if FramesRow.MsMsType rowdict =? 8 then [sql_select_pasef_precursors frame_id]
   else [warnings_warn (Msg "No support for MSMSType %r yet"
                          [ArgInt (FramesRow.MsMsType rowdict)])]).

(** One attempt of the buffer-growing loop: the number of words it
    allocates, what the library answers, and the state it leaves. *)
Definition attempt_size {F} (self : TIMSData F) : Z :=
  py_int (initial_frame_buffer_size self).

Definition service_reply {F} (dll : timsdata F) (frame_id scan_begin scan_end : Z)
    (self : TIMSData F) : Z * (nat -> N) :=
  tims_read_scans_v2 dll (handle self) (c_int64 frame_id) (c_uint32 scan_begin)
    (c_uint32 scan_end) (c_uint32 (4 * attempt_size self)).

Definition after_attempt {F} (frame_id scan_begin scan_end : Z) (self : TIMSData F)
    : TIMSData F :=
  Build_TIMSData (handle self) (initial_frame_buffer_size self) (_frame_cache self)
    (_scan_merging_parameters self)
    (log self ++ [np_empty (attempt_size self);
                  call_tims_read_scans_v2 frame_id scan_begin scan_end
                    (4 * attempt_size self)]).

Definition with_estimate {F} (q : Q) (self : TIMSData F) : TIMSData F :=
  Build_TIMSData (handle self) q (_frame_cache self) (_scan_merging_parameters self)
    (log self).

(** The calls to a conversion entry point among some events. *)
Definition is_conversion_call {F} (e : event F) : bool :=
  match e with
  | call_conversion _ _ _ => true
  | _ => false
  end.

Definition conversion_calls {F} (events : list (event F)) : list (event F) :=
  List.filter is_conversion_call events.

(** ** A small acquisition, to run the code on *)

Module Example.

(** A Unicode database whose decimal digits outside of ASCII are the
    Arabic-Indic digits, U+0660 to U+0669. *)
Definition unicode : unicode_database := fun c =>
  match c with
  | 1632%N => Some 0%fin
  | 1633%N => Some 1%fin
  | 1634%N => Some 2%fin
  | 1635%N => Some 3%fin
  | 1636%N => Some 4%fin
  | 1637%N => Some 5%fin
  | 1638%N => Some 6%fin
  | 1639%N => Some 7%fin
  | 1640%N => Some 8%fin
  | 1641%N => Some 9%fin
  | _ => None
  end.

(** One frame of three mobility scans with 2, 0 and 1 peaks: 9 words,
    36 bytes; a cell the library does not write holds 77. *)
Definition words (i : nat) : N :=
  nth i [2; 0; 1; 10; 11; 100; 101; 12; 102]%N 77%N.

Definition dll : timsdata Z := {|
  tims_read_scans_v2 := fun _ _ _ _ _ => (36, words);
  tims_convert := fun _ _ _ input => (1, fun i => 1000 + nth i input 0);
  tims_get_last_error_string := "error"
|}.

(** A library reporting a frame of 32 MiB. *)
Definition oversized_dll : timsdata Z := {|
  tims_read_scans_v2 := fun _ _ _ _ _ => (33554432, words);
  tims_convert := fun _ _ _ input => (1, fun i => 1000 + nth i input 0);
  tims_get_last_error_string := "error"
|}.

Definition frames_row (id msms_type : Z) : FramesRow.t Z :=
  FramesRow.make id 0 0 msms_type 0 0 3 "+" 0 0 8 0 0 0 0 0 0.

Definition pasef_row (frame start stop : Z) : PasefRow.t Z :=
  PasefRow.make frame start stop 0 0 42 0 2 0 0 7.

(** Frame 7 is MS1, frame 5 a plain MS2 frame (type 2), frame 8 a PASEF
    frame with the precursor windows [[0, 2)] and [[1, 3)]. *)
Definition conn : connection Z := {|
  select_frame := fun id =>
    if id =? 7 then Some (frames_row 7 0)
    else if id =? 5 then Some (frames_row 5 2)
    else if id =? 8 then Some (frames_row 8 8)
    else None;
  select_pasef_precursors := fun id =>
    if id =? 8 then [pasef_row 8 0 2; pasef_row 8 1 3] else []
|}.

Definition reader : TIMSData Z :=
  TIMSData_init 1 (Build_scan_merging_parameters 4 1).

(** The same reader with a buffer estimate of two words. *)
Definition small_reader : TIMSData Z :=
  Build_TIMSData 1 2 ∅ (Build_scan_merging_parameters 4 1) [].

Definition frame7 : TIMSFrame.t Z := TIMSFrame_from_query (frames_row 7 0).
Definition frame5 : TIMSFrame.t Z := TIMSFrame_from_query (frames_row 5 2).
Definition frame8 : TIMSFrame.t Z := loaded_frame conn 8 (frames_row 8 8).

(** The reader after a first [get_frame_by_id(5)]. *)
Definition reader_after_frame5 : TIMSData Z := (get_frame_by_id conn 5 reader).2.

(** The same library with a calibration that descends: a larger index
    is a smaller m/z. *)
Definition descending_dll : timsdata Z := {|
  tims_read_scans_v2 := fun _ _ _ _ _ => (36, words);
  tims_convert := fun _ _ _ input => (1, fun i => 2000 - nth i input 0);
  tims_get_last_error_string := "error"
|}.

(** [argsort] by a merge sort of the values paired with their positions,
    and stand-ins for the peak picker. *)
Definition by_value : relation (Z * nat) := fun p q => p.1 <= q.1.
#[global] Instance by_value_dec : RelDecision by_value := fun p q => decide (p.1 <= q.1).
Definition argsort (a : list Z) : list nat :=
  (merge_sort by_value (zip a (seq 0 (length a)))).*2.
Definition pick_peaks (mzs intensities : list Z) : list (Z * Z) := zip mzs intensities.
Definition reprofile (centroids : list (Z * Z)) (dx fwhm : Z) : list Z * list Z :=
  (map fst centroids, map snd centroids).

(** The small reader once [read_scans(7, 0, 3)] has grown its buffer to
    ten words and read the frame, the buffer it decodes, and the scans. *)
Definition small_reader_read : TIMSData Z :=
  Build_TIMSData 1 (Qplus (Qmake 36 4) 1) ∅ (Build_scan_merging_parameters 4 1)
    [np_empty 2; call_tims_read_scans_v2 7 0 3 8;
     np_empty 10; call_tims_read_scans_v2 7 0 3 40].
Definition small_buffer : list N := map words (seq 0 10).
Definition scans7 : list (list N * list N) :=
  [([10; 11], [100; 101]); ([], []); ([12], [102])]%N.

(** The same after the conversion of the indices, and the spectrum. *)
Definition small_reader_converted : TIMSData Z :=
  Build_TIMSData 1 (Qplus (Qmake 36 4) 1) ∅ (Build_scan_merging_parameters 4 1)
    [np_empty 2; call_tims_read_scans_v2 7 0 3 8;
     np_empty 10; call_tims_read_scans_v2 7 0 3 40;
     call_conversion tims_index_to_mz 7 [10; 11; 12]].
Definition spectrum7 : list Z * list Z := ([1010; 1011; 1012], [100; 101; 102]).

(** The spectrum of the descending calibration, as read and as sorted. *)
Definition descending7 : list Z * list Z := ([1990; 1989; 1988], [100; 101; 102]).
Definition ascending7 : list Z * list Z := ([1988; 1989; 1990], [102; 101; 100]).

(** The two precursors of frame 8. *)
Definition precursor0 : PASEFPrecursorInformation.t Z :=
  PASEFPrecursorInformation_from_query (pasef_row 8 0 2).
Definition precursor1 : PASEFPrecursorInformation.t Z :=
  PASEFPrecursorInformation_from_query (pasef_row 8 1 3).

End Example.

(** ** Vocabulary of the further properties of [read_scans] *)

(** The library answers a read of one range the same way whatever the
    size of the buffer: it asks for [required_len] bytes and, in a buffer
    that holds them, writes the words [content]. *)
Definition stable_reply {F} (dll : timsdata F) (handle frame_id scan_begin scan_end : Z)
    (required_len : Z) (content : nat -> N) : Prop :=
  forall len, exists words,
    tims_read_scans_v2 dll handle (c_int64 frame_id) (c_uint32 scan_begin)
      (c_uint32 scan_end) len = (required_len, words) /\
    (required_len <= len ->
     forall i : nat, 4 * Z.of_nat i < required_len -> words i = content i).

(** The errors the buffer-growing loop can end with. *)
Definition is_read_error {F} (dll : timsdata F) (e : exn) : Prop :=
  e = FrameTooLarge \/ e = RuntimeError (Msg (tims_get_last_error_string dll) []).

(** The number of words of the packed layout of [n] scans whose counts
    and payloads are the words [content]. *)
Definition layout_words (content : nat -> N) (n : nat) : nat :=
  n + 2 * sum_list (map (fun i => N.to_nat (content i)) (seq 0 n)).

(** ** The weak frame cache, and the numbers of an identifier *)

(** What the garbage collector may do to the weak frame cache between
    two calls: the entry of a frame nobody holds any more vanishes. *)
Definition evict {F} (frame_id : Z) (self : TIMSData F) : TIMSData F :=
  Build_TIMSData (handle self) (initial_frame_buffer_size self)
    (delete frame_id (_frame_cache self)) (_scan_merging_parameters self) (log self).

(** The numbers [make_id_string] formats for a reference. *)
Definition formatted_numbers {F} (ref : TIMSSpectrumDataBase.t F) : list Z :=
  match TIMSSpectrumDataBase._end_scan ref with
  | None =>
      [TIMSFrame.id (TIMSSpectrumDataBase.frame ref);
       TIMSSpectrumDataBase.start_scan ref + 1]
  | Some e =>
      [TIMSFrame.id (TIMSSpectrumDataBase.frame ref);
       TIMSSpectrumDataBase.start_scan ref + 1; e + 1]
  end.

(** ** The other accessors of [TIMSScanDataSource] *)

Definition msms_type_to_ms_level (enum : Z) : Z :=
  if enum =? 0 then 1 else 2.

(** [IsolationWindow(lower, target, upper)] of
    [ms_deisotope.data_source.metadata.scan_traits], by position. *)
Record IsolationWindow (F : Type) := {
  lower : F;
  target : F;
  upper : F
}.
Arguments Build_IsolationWindow {F}.
Arguments lower {F}.
Arguments target {F}.
Arguments upper {F}.

(** [PrecursorInformation(mz, intensity, charge, precursor_scan_id,
    product_scan_id=..., source=self, annotations={inverse_reduced_ion_mobility: ...})];
    the reference [source] to the reader is left out. *)
Record PrecursorInformation (F : Type) := {
  precursor_mz : F;
  precursor_intensity : F;
  precursor_charge : Z;
  precursor_scan_id : str;
  product_scan_id : str;
  inverse_reduced_ion_mobility : list F
}.
Arguments Build_PrecursorInformation {F}.
Arguments precursor_mz {F}.
Arguments precursor_intensity {F}.
Arguments precursor_charge {F}.
Arguments precursor_scan_id {F}.
Arguments product_scan_id {F}.
Arguments inverse_reduced_ion_mobility {F}.

Section ScanDataSource.
Context {F : Type}.
Context (numpy : promotion).
Context (dll : timsdata F) (conn : connection F).
Context (float_of_uint32 : N -> F) (argsort : list F -> list nat).
Context {PeakSet : Type}.
Context (pick_peaks : list F -> list F -> PeakSet).
(** Python and numpy arithmetic on floats: [float(z)] for an integer,
    [np.ceil(x)] and [x / 2]. *)
Context (float_of_int : Z -> F) (np_ceil : F -> F) (halve : F -> F).

Definition _is_profile (scan : TIMSSpectrumDataBase.t F) : bool :=
  if TIMSSpectrumDataBase.is_combined scan then true else false.

Definition _scan_id (scan : TIMSSpectrumDataBase.t F) : str :=
  TIMSSpectrumDataBase.make_id_string scan.

Definition _scan_title (scan : TIMSSpectrumDataBase.t F) : str :=
  _scan_id scan.

Definition _ms_level (scan : TIMSSpectrumDataBase.t F) : Z :=
  if TIMSFrame.msms_type (TIMSSpectrumDataBase.frame scan) =? 0 then 1 else 2.

Definition _polarity (scan : TIMSSpectrumDataBase.t F) : option Z :=
  if String.eqb (TIMSFrame.polarity (TIMSSpectrumDataBase.frame scan)) "+" then Some 1
  else if String.eqb (TIMSFrame.polarity (TIMSSpectrumDataBase.frame scan)) "-"
       then Some (-1)
  else None.

Definition mz_to_index (frame_id : Z) (mzs : list F) : M F (list F) :=
  _convert_callback dll frame_id mzs tims_mz_to_index.

Definition scan_number_to_one_over_K0 (frame_id : Z) (mzs : list F) : M F (list F) :=
  _convert_callback dll frame_id mzs tims_scannum_to_oneoverk0.

Definition one_over_K0_to_scan_number (frame_id : Z) (mzs : list F) : M F (list F) :=
  _convert_callback dll frame_id mzs tims_oneoverk0_to_scannum.

Definition scan_number_to_voltage (frame_id : Z) (mzs : list F) : M F (list F) :=
  _convert_callback dll frame_id mzs tims_scannum_to_voltage.

Definition voltage_to_scan_number (frame_id : Z) (mzs : list F) : M F (list F) :=
  _convert_callback dll frame_id mzs tims_voltage_to_scannum.

Definition _isolation_window (scan : TIMSSpectrumDataBase.t F)
    : outcome (option (IsolationWindow F)) :=
  if TIMSFrame.msms_type (TIMSSpectrumDataBase.frame scan) =? 8 then
    match _locate_pasef_precursor_for scan with
    | Raise e => Raise e
    | Return (Some precursor) =>
        let width := halve (PASEFPrecursorInformation.isolation_width precursor) in
        let window :=
          Build_IsolationWindow width
            (PASEFPrecursorInformation.isolation_mz precursor) width in
        Return (Some window)
    | Return None => Return None
    end
  else Return None.

Definition _precursor_information (scan : TIMSSpectrumDataBase.t F)
    : M F (option (PrecursorInformation F)) :=
  if TIMSFrame.msms_type (TIMSSpectrumDataBase.frame scan) =? 8 then
    precursor ← lift (_locate_pasef_precursor_for scan);
    match precursor with
    | Some precursor =>
        let mz := PASEFPrecursorInformation.monoisotopic_mz precursor in
        let intensity := PASEFPrecursorInformation.intensity precursor in
        let charge := PASEFPrecursorInformation.charge precursor in
        let parent_frame_id := PASEFPrecursorInformation.parent precursor in
        current_drift_time ←
          (if negb (TIMSSpectrumDataBase.is_combined scan) then
             scan_number_to_one_over_K0
               (TIMSFrame.id (TIMSSpectrumDataBase.frame scan))
               [float_of_int (TIMSSpectrumDataBase.start_scan scan)]
           else
             scan_number_to_one_over_K0
               (TIMSFrame.id (TIMSSpectrumDataBase.frame scan))
               [np_ceil (PASEFPrecursorInformation.average_scan_number precursor)]);
        parent_frame ← get_frame_by_id conn parent_frame_id;
        let precursor_scan_id :=
          TIMSSpectrumDataBase.make_id_string
            (TIMSPASEFSpectrumData.base
               (TIMSPASEFSpectrumData.init parent_frame
                  (PASEFPrecursorInformation.start_scan precursor) None
                  (Some (PASEFPrecursorInformation.end_scan precursor)))) in
        let product_scan_id := TIMSSpectrumDataBase.make_id_string scan in
        let pinfo :=
          Build_PrecursorInformation mz intensity charge precursor_scan_id
            product_scan_id current_drift_time in
        mret (Some pinfo)
    | None => mret None
    end
  else mret None.

Definition _get_centroids (fuel : nat) (scan : TIMSSpectrumDataBase.t F)
    (self : TIMSData F) : option (outcome PeakSet * TIMSData F) :=
  match read_spectrum numpy dll float_of_uint32 fuel
          (TIMSFrame.id (TIMSSpectrumDataBase.frame scan))
          (TIMSSpectrumDataBase.start_scan scan)
          (TIMSSpectrumDataBase.end_scan scan) self with
  | None => None
  | Some (Raise e, self) => Some (Raise e, self)
  | Some (Return (mzs, intensities), self) =>
      let sort_mask := argsort mzs in
      match np_take mzs sort_mask, np_take intensities sort_mask with
      | Some mzs, Some intensities =>
          let centroids := pick_peaks mzs intensities in
          Some (Return centroids, self)
      | _, _ =>
          Some (Raise (IndexError (Msg "index out of bounds" [])), self)
      end
  end.

End ScanDataSource.

Arguments _is_profile {F} scan.
Arguments _scan_id {F} scan.
Arguments _scan_title {F} scan.
Arguments _ms_level {F} scan.
Arguments _polarity {F} scan.
Arguments _isolation_window {F} halve scan.
Arguments _precursor_information {F} dll conn float_of_int np_ceil scan.
Arguments _get_centroids {F} numpy dll float_of_uint32 argsort {PeakSet} pick_peaks fuel scan self.
Arguments scan_number_to_one_over_K0 {F} dll frame_id mzs.
Arguments mz_to_index {F} dll frame_id mzs.
Arguments one_over_K0_to_scan_number {F} dll frame_id mzs.
Arguments scan_number_to_voltage {F} dll frame_id mzs.
Arguments voltage_to_scan_number {F} dll frame_id mzs.

(** The input of the mobility conversion [_precursor_information] asks for. *)
Definition mobility_input {F} (float_of_int : Z -> F) (np_ceil : F -> F)
    (scan : TIMSSpectrumDataBase.t F) (precursor : PASEFPrecursorInformation.t F)
    : list F :=
  if TIMSSpectrumDataBase.is_combined scan
  then [np_ceil (PASEFPrecursorInformation.average_scan_number precursor)]
  else [float_of_int (TIMSSpectrumDataBase.start_scan scan)].

(** The reader once it has called a conversion entry point. *)
Definition after_conversion {F} (func : conversion) (frame_id : Z) (input : list F)
    (self : TIMSData F) : TIMSData F :=
  Build_TIMSData (handle self) (initial_frame_buffer_size self) (_frame_cache self)
    (_scan_merging_parameters self)
    (log self ++ [call_conversion func frame_id input]).

(** ** Loading the native library *)

Module LoadLibrary.

(** The argument [search_paths]: left out ([None]), one string, or a list. *)
Inductive search_paths_arg :=
| NoSearchPaths
| OnePath (path : string)
| Paths (paths : list string).

Section Loader.
(** The library objects, and [_load_library]: [None] when it raises
    (the file is missing, or lacks one of the entry points). *)
Context {D : Type} (_load_library : string -> option D).

(** The loop of [load_library]: [continue] on an exception, [break] on
    the first library loaded. *)
Fixpoint load_first (search_paths : list string) : option D :=
  match search_paths with
  | [] => None
  | lib_path :: search_paths =>
      match _load_library lib_path with
      | None => load_first search_paths
      | Some dll => Some dll
      end
  end.

(** [load_library(search_paths)], from the value of the global [dll] to
    its value afterwards, which is also the value returned. *)
Definition load_library (search_paths : search_paths_arg) (dll : option D) : option D :=
  let search_paths :=
    match search_paths with
    | NoSearchPaths => []
    | OnePath path => [path]
    | Paths paths => paths
    end in
  match dll with
  | None => load_first search_paths
  | Some _ => dll
  end.

End Loader.
End LoadLibrary.

(** ** Scan merging parameters *)

(** [default_scan_merging_parameters], as its items; the two floats of the
    source are [fwhm_default] (0.04) and [dx_default] (0.001). *)
Definition default_scan_merging_parameters {F} (fwhm_default dx_default : F)
    : list (string * F) :=
  [("fwhm"%string, fwhm_default); ("dx"%string, dx_default)].

(** [d.setdefault(key, value)] *)
Definition setdefault {F} (key : string) (value : F) (d : gmap string F) : gmap string F :=
  match d !! key with
  | Some _ => d
  | None => <[key := value]> d
  end.

(** The parameters [TIMSData.__init__] keeps: a copy of the defaults, or
    the caller's dict filled in with the defaults it lacks. *)
Definition init_scan_merging_parameters {F} (fwhm_default dx_default : F)
    (scan_merging_parameters : option (gmap string F)) : gmap string F :=
  match scan_merging_parameters with
  | None => list_to_map (default_scan_merging_parameters fwhm_default dx_default)
  | Some d =>
      fold_left (fun d '(key, value) => setdefault key value d)
        (default_scan_merging_parameters fwhm_default dx_default) d
  end.

(** ** The frame index of [TIMSMetadata] *)

Module Metadata.

Definition msms_type_to_label : gmap Z string :=
  list_to_map [(0, "MS1 Scan"%string); (2, "MS2 Scan"%string);
               (8, "PASEF MS2 Scan"%string); (9, "DIA-PASEF"%string)].

Definition msms_type_to_metadata_table : gmap Z string :=
  list_to_map [(2, "FrameMsMsInfo"%string); (8, "PasefFrameMsMsInfo"%string);
               (9, "DiaFrameMsMsWindows"%string)].

(** A value, or the [KeyError] of a lookup in [msms_type_to_label]. *)
Inductive lookup_result (A : Type) :=
| Found (a : A)
| KeyError (key : Z).
Arguments Found {A} a.
Arguments KeyError {A} key.

(** The loop of [_build_frame_index] over the rows of
    [SELECT MsMsType, Count( * ) FROM Frames GROUP BY MsMsType]. *)
Fixpoint count_frames (q : list (Z * Z)) (_frame_counts : gmap string Z) (total : Z)
    : lookup_result (gmap string Z * Z) :=
  match q with
  | [] => Found (_frame_counts, total)
  | (scan_type_enum, count) :: q =>
      match msms_type_to_label !! scan_type_enum with
      | None => KeyError scan_type_enum
      | Some label => count_frames q (<[label := count]> _frame_counts) (total + count)
      end
  end.

Definition _build_frame_index (q : list (Z * Z)) : lookup_result (gmap string Z) :=
  match count_frames q ∅ 0 with
  | Found (_frame_counts, total) => Found (<["Total"%string := total]> _frame_counts)
  | KeyError key => KeyError key
  end.

End Metadata.

(** ** The global metadata of [TIMSMetadata] *)

Module GlobalMetadata.

(** The values of [_acquisition_parameters]: strings, and the floats of
    the acquisition range. *)
Inductive value (F : Type) :=
| Str (s : string)
| Float (x : F).
Arguments Str {F} s.
Arguments Float {F} x.

(** The three attributes [_read_global_metadata] sets. *)
Record t (F : Type) := make {
  _acquisition_parameters : gmap string (value F);
  _instrument_configuration : gmap string string;
  _software : gmap string (gmap string string)
}.
Arguments make {F} _ _ _.
Arguments _acquisition_parameters {F} _.
Arguments _instrument_configuration {F} _.
Arguments _software {F} _.

Section Read.
(** Python's [float] on a string: [None] when it raises. *)
Context {F : Type} (float : string -> option F).

Definition python_float (value : string) : outcome F :=
  match float value with
  | Some x => Return x
  | None => Raise (ValueError (Msg "could not convert string to float: %r" [ArgStr value]))
  end.

(** The attributes before the loop. *)
Definition initial : t F :=
  make ∅ ∅ (<["acquisition_software"%string := ∅]> (<["control_software"%string := ∅]> ∅)).

(** The body of the loop: the chain of [if key == ...] tests.  An entry
    [software_map[section][field] = value] is written into the inner dict
    found under [section]. *)
Definition read_row (md : t F) (key value : string) : outcome (t F) :=
  let acquisition_parameters := _acquisition_parameters md in
  let instrument_configuration := _instrument_configuration md in
  let software_map := _software md in
  if String.eqb key "AcquistionSoftware" then
    Return (make acquisition_parameters instrument_configuration
              (alter (insert "name"%string value) "acquisition_software"%string software_map))
  else if String.eqb key "AcquisitionSoftwareVersion" then
    Return (make acquisition_parameters instrument_configuration
              (alter (insert "version"%string value) "acquisition_software"%string software_map))
  else if String.eqb key "InstrmentFamily" then
    Return (make acquisition_parameters
              (<["instrument_family"%string := value]> instrument_configuration) software_map)
  else if String.eqb key "InstrmentRevision" then
    Return (make acquisition_parameters
              (<["instrument_revision"%string := value]> instrument_configuration) software_map)
  else if String.eqb key "InstrumentSerialNumber" then
    Return (make acquisition_parameters
              (<["serial_number"%string := value]> instrument_configuration) software_map)
  else if String.eqb key "AcquisitionDateTime" then
    Return (make (<["acquisition_date"%string := Str value]> acquisition_parameters)
              instrument_configuration software_map)
  else if String.eqb key "OperatorName" then
    Return (make (<["operator_name"%string := Str value]> acquisition_parameters)
              instrument_configuration software_map)
  else if String.eqb key "MzAcqRangeLower" then
    match python_float value with
    | Return x =>
        Return (make (<["scan_window_lower"%string := Float x]> acquisition_parameters)
                  instrument_configuration software_map)
    | Raise e => Raise e
    end
  else if String.eqb key "MzAcqRangeUpper" then
    match python_float value with
    | Return x =>
        Return (make (<["scan_window_upper"%string := Float x]> acquisition_parameters)
                  instrument_configuration software_map)
    | Raise e => Raise e
    end
  else Return md.

(** The loop over the rows of [SELECT Key, Value FROM GlobalMetadata]. *)
Fixpoint read_rows (q : list (string * string)) (md : t F) : outcome (t F) :=
  match q with
  | [] => Return md
  | (key, value) :: q =>
      match read_row md key value with
      | Return md => read_rows q md
      | Raise e => Raise e
      end
  end.

Definition _read_global_metadata (q : list (string * string)) : outcome (t F) :=
  read_rows q initial.

End Read.
End GlobalMetadata.

(** The value of the last row of [q] whose key is [key]. *)
Definition last_value (key : string) (q : list (string * string)) : option string :=
  last (map snd (List.filter (fun row => String.eqb row.1 key) q)).

(** The rows whose value has to be a number. *)
Definition is_range_key (key : string) : Prop :=
  key = "MzAcqRangeLower"%string \/ key = "MzAcqRangeUpper"%string.

(** [md] holds, field by field, the last value of each key the loop
    recognises, and nothing else. *)
Definition holds_last_values {F} (float : string -> option F)
    (q : list (string * string)) (md : GlobalMetadata.t F) : Prop :=
  (exists acquisition_software,
     GlobalMetadata._software md =
       <["acquisition_software"%string := acquisition_software]>
         (<["control_software"%string := ∅]> ∅) /\
     acquisition_software !! "name"%string = last_value "AcquistionSoftware" q /\
     acquisition_software !! "version"%string = last_value "AcquisitionSoftwareVersion" q /\
     forall k, k <> "name"%string -> k <> "version"%string ->
       acquisition_software !! k = None) /\
  (GlobalMetadata._instrument_configuration md !! "instrument_family"%string
     = last_value "InstrmentFamily" q /\
   GlobalMetadata._instrument_configuration md !! "instrument_revision"%string
     = last_value "InstrmentRevision" q /\
   GlobalMetadata._instrument_configuration md !! "serial_number"%string
     = last_value "InstrumentSerialNumber" q /\
   forall k, k <> "instrument_family"%string -> k <> "instrument_revision"%string ->
     k <> "serial_number"%string ->
     GlobalMetadata._instrument_configuration md !! k = None) /\
  (GlobalMetadata._acquisition_parameters md !! "acquisition_date"%string
     = GlobalMetadata.Str <$> last_value "AcquisitionDateTime" q /\
   GlobalMetadata._acquisition_parameters md !! "operator_name"%string
     = GlobalMetadata.Str <$> last_value "OperatorName" q /\
   GlobalMetadata._acquisition_parameters md !! "scan_window_lower"%string
     = GlobalMetadata.Float <$> (last_value "MzAcqRangeLower" q ≫= float) /\
   GlobalMetadata._acquisition_parameters md !! "scan_window_upper"%string
     = GlobalMetadata.Float <$> (last_value "MzAcqRangeUpper" q ≫= float) /\
   forall k, k <> "acquisition_date"%string -> k <> "operator_name"%string ->
     k <> "scan_window_lower"%string -> k <> "scan_window_upper"%string ->
     GlobalMetadata._acquisition_parameters md !! k = None).

(** ** Controlled vocabulary terms ([metadata/cv.py]) *)

Module Term.

Record t := make {
  name : string;
  id : string;
  description : string;
  category : string;
  specialization : list string
}.

(** [self == other] for a string [other]. *)
Definition eq_str (self : t) (other : string) : bool :=
  String.eqb (name self) other || String.eqb (id self) other.

(** [self.is_a(term)] for a string [term]. *)
Definition is_a (self : t) (term : string) : bool :=
  String.eqb term (name self) || bool_decide (term ∈ specialization self).

End Term.

Module TermSet.

Record t := make {
  terms : list Term.t;
  by_name : gmap string Term.t;
  by_id : gmap string Term.t
}.

(** The dict comprehension [{key(t): t for t in terms}]: a later term
    replaces an earlier one with the same key. *)
Definition dict_of (key : Term.t -> string) (terms : list Term.t) : gmap string Term.t :=
  foldl (fun d t => <[key t := t]> d) ∅ terms.

(** [TermSet(terms)] *)
Definition init (terms : list Term.t) : t :=
  make terms (dict_of Term.name terms) (dict_of Term.id terms).

(** [len(self)] *)
Definition len (self : t) : Z := Z.of_nat (length (terms self)).

(** The keys of [__getitem__]: an [int] or a string. *)
Inductive key :=
| Int (k : Z)
| Str (k : string).

Inductive result (A : Type) :=
| Found (a : A)
| KeyError (k : string)
| IndexError (m : string).
Arguments Found {A} a.
Arguments KeyError {A} k.
Arguments IndexError {A} m.

(** [l[k]] on a Python list: a negative index counts from the end. *)
Definition list_getitem {A} (l : list A) (k : Z) : result A :=
  let i := if k <? 0 then k + Z.of_nat (length l) else k in
  if i <? 0 then IndexError "list index out of range"
  else match l !! Z.to_nat i with
       | Some a => Found a
       | None => IndexError "list index out of range"
       end.

(** [self[k]] *)
Definition getitem (self : t) (k : key) : result Term.t :=
  match k with
  | Int k => list_getitem (terms self) k
  | Str k =>
      match by_id self !! k with
      | Some t => Found t
      | None =>
          match by_name self !! k with
          | Some t => Found t
          | None => KeyError k
          end
      end
  end.

(** [self.get(key, default)] *)
Definition get (self : t) (k : key) (default : option Term.t) : option Term.t :=
  match getitem self k with
  | Found t => Some t
  | KeyError _ | IndexError _ => default
  end.

(** [term in self] for a string [term]: list membership compares with
    [Term.__eq__]. *)
Definition contains (self : t) (term : string) : bool :=
  existsb (fun t => Term.eq_str t term) (terms self)
  || bool_decide (is_Some (by_id self !! term))
  || bool_decide (is_Some (by_name self !! term)).

(** [self.keys()] *)
Definition keys (self : t) : gset string :=
  dom (by_id self) ∪ dom (by_name self).

(** [self + other] *)
Definition add (self other : t) : t :=
  init (terms self ++ terms other).

End TermSet.

(** [_unique_list(items)]: the loop with its set [seen] and list [out]. *)
Fixpoint unique_loop `{Countable A} (items : list A) (seen : gset A) (out : list A)
    : list A :=
  match items with
  | [] => out
  | x :: items =>
      if bool_decide (x ∈ seen) then unique_loop items seen out
      else unique_loop items ({[x]} ∪ seen) (out ++ [x])
  end.

Definition _unique_list `{Countable A} (items : list A) : list A :=
  unique_loop items ∅ [].

Module MoreExamples.

(** A single scan and a merged scan of the PASEF frame 8, a scan of the
    plain MS2 frame 5 as loaded, and the merged scan of frame 7. *)
Definition pasef_scan : TIMSSpectrumDataBase.t Z :=
  TIMSSpectrumDataBase.make Example.frame8 0 None.
Definition scan5 : TIMSSpectrumDataBase.t Z :=
  TIMSSpectrumDataBase.make (loaded_frame Example.conn 5 (Example.frames_row 5 2)) 0 None.
Definition merged7 : TIMSSpectrumDataBase.t Z :=
  TIMSSpectrumDataBase.make Example.frame7 0 (Some 3).

(** A buffer whose one scan counts three peaks and holds two words after
    the count, and one whose count is the largest [uint32]. *)
Definition truncated_buffer : list N := [3; 10; 11]%N.
Definition wrapping_buffer : list N := [4294967295; 10; 11; 12]%N.

(** The rows of the frame count query and of the global metadata. *)
Definition frame_count_rows : list (Z * Z) := [(0, 4); (8, 12)].
Definition global_metadata_rows : list (string * string) :=
  [("InstrmentFamily", "timsTOF"); ("InstrumentFamily", "9");
   ("MzAcqRangeLower", "100"); ("InstrmentFamily", "timsTOF Pro")]%string.

(** A stand-in for [float] that reads the one number of the example. *)
Definition float (value : string) : option Z :=
  if String.eqb value "100" then Some 100 else None.

(** Three terms: the name of the first is the id of the third. *)
Definition quadrupole : Term.t :=
  Term.make "quadrupole" "MS:1000081" "" "mass analyzer" ["mass analyzer"]%string.
Definition ion_trap : Term.t :=
  Term.make "ion trap" "MS:1000264" "" "mass analyzer" ["mass analyzer"]%string.
Definition alias : Term.t :=
  Term.make "alias" "quadrupole" "" "mass analyzer" []%string.
Definition analyzers : list Term.t := [quadrupole; ion_trap; alias].

End MoreExamples.

(** * Properties *)

(** ** Text and identifier patterns *)

Lemma text_cons c s : text (String c s) = N_of_ascii c :: text s.
Proof. done. Qed.

Lemma text_app a b : text (a +:+ b) = text a ++ text b.
Proof.
  induction a as [|c a IH]; [done|].
  change (text (String c (a +:+ b)) = text (String c a) ++ text b).
  by rewrite !text_cons, IH.
Qed.

Section TextFacts.
Context (unicode : unicode_database).

Lemma match_literal_app lit s : match_literal lit (lit ++ s) = Some s.
Proof.
  induction lit as [|c lit IH]; simpl; [done|].
  by rewrite N.eqb_refl.
Qed.

Lemma match_literal_Some lit : forall s r, match_literal lit s = Some r -> s = lit ++ r.
Proof.
  induction lit as [|c lit IH]; intros s r; simpl.
  - by intros [= ->].
  - destruct s as [|c' s]; [done|].
    destruct (c =? c')%N eqn:E; [|done].
    apply N.eqb_eq in E as ->. intros H. by rewrite (IH _ _ H).
Qed.

Lemma span_digits_spec s : forall d r, span_digits unicode s = (d, r) ->
  s = d ++ r /\ digits unicode d = true /\ no_digit_ahead unicode r.
Proof.
  induction s as [|c s IH]; intros d r; simpl.
  - intros [= <- <-]. by repeat split.
  - destruct (is_digit unicode c) eqn:E.
    + destruct (span_digits unicode s) as [ds rest]. intros [= <- <-].
      destruct (IH ds rest eq_refl) as (-> & Hd & Hr).
      repeat split; simpl; [by rewrite E, Hd | done].
    + intros [= <- <-]. repeat split. intros c' r' [= <- <-]. done.
Qed.

Lemma span_digits_app d : forall r, digits unicode d = true ->
  no_digit_ahead unicode r ->
  span_digits unicode (d ++ r) = (d, r).
Proof.
  induction d as [|c d IH]; intros r Hd Hr; simpl in *.
  - destruct r as [|c r]; [done|]. simpl. by rewrite (Hr c r eq_refl).
  - apply andb_true_iff in Hd as [Hc Hd]. by rewrite Hc, (IH r Hd Hr).
Qed.

Lemma span_digits_prefix d : forall r, digits unicode d = true ->
  exists d' r', span_digits unicode (d ++ r) = (d ++ d', r').
Proof.
  induction d as [|c d IH]; intros r Hd; simpl in *.
  - destruct (span_digits unicode r) as [d' r'] eqn:E. by exists d', r'.
  - apply andb_true_iff in Hd as [Hc Hd]. rewrite Hc.
    destruct (IH r Hd) as (d' & r' & ->). by exists d', r'.
Qed.

Lemma match_digits_Some s d r : match_digits unicode s = Some (d, r) ->
  s = d ++ r /\ digits1 unicode d /\ no_digit_ahead unicode r.
Proof.
  unfold match_digits. destruct (span_digits unicode s) as [ds rest] eqn:E.
  destruct (span_digits_spec _ _ _ E) as (-> & Hd & Hr).
  destruct ds as [|c ds]; [done|]. intros [= <- <-]. by repeat split.
Qed.

Lemma match_digits_app d r : digits1 unicode d -> no_digit_ahead unicode r ->
  match_digits unicode (d ++ r) = Some (d, r).
Proof.
  intros [Hne Hd] Hr. unfold match_digits. rewrite span_digits_app by done.
  by destruct d.
Qed.

Lemma match_digits_prefix d r : digits1 unicode d -> is_Some (match_digits unicode (d ++ r)).
Proof.
  intros [Hne Hd]. unfold match_digits.
  destruct (span_digits_prefix d r Hd) as (d' & r' & ->).
  destruct d; [done|]. simpl. by eexists.
Qed.

Lemma match_digits_all d : digits1 unicode d -> match_digits unicode d = Some (d, []).
Proof.
  intros Hd. rewrite <- (app_nil_r d) at 1. by apply match_digits_app.
Qed.

(** A text that goes on with an ASCII character other than a digit. *)
Lemma no_digit_ahead_cons c rest :
  is_digit unicode c = false -> no_digit_ahead unicode (c :: rest).
Proof. by intros H c' rest' [= <- _]. Qed.

Lemma no_digit_ahead_nil : no_digit_ahead unicode [].
Proof. by intros c rest. Qed.

(** The ASCII digits are the decimal digits of ASCII, whatever the
    database. *)
Lemma to_decimal_ascii_digit (c : N) :
  (48 <= c <= 57)%N -> to_decimal unicode c = Some (c - 48)%N.
Proof.
  intros Hc. unfold to_decimal.
  assert ((c <? 128)%N = true) as -> by (apply N.ltb_lt; lia).
  assert ((48 <=? c)%N = true) as -> by (apply N.leb_le; lia).
  assert ((c <=? 57)%N = true) as -> by (apply N.leb_le; lia).
  done.
Qed.

Lemma ascii_digits_string_of_uint u : ascii_digits (NilEmpty.string_of_uint u).
Proof.
  unfold ascii_digits.
  induction u; simpl; [apply Forall_nil_2|..]; (apply Forall_cons_2; [simpl; lia|done]).
Qed.

Lemma digits_ascii_digits s : ascii_digits s -> digits unicode (text s) = true.
Proof.
  unfold ascii_digits, digits, text.
  induction 1 as [|a l Ha Hl IH]; [done|]. simpl.
  unfold is_digit at 1. by rewrite (to_decimal_ascii_digit _ Ha), IH.
Qed.

Lemma int_ascii_digits s : ascii_digits s ->
  int unicode (text s) =
  match NilEmpty.uint_of_string s with
  | Some d => Z.of_uint d
  | None => 0
  end.
Proof.
  intros Hs. unfold int.
  assert (map (fun c => ascii_of_N (48 + default 0%N (to_decimal unicode c))) (text s)
          = list_ascii_of_string s) as ->.
  { unfold ascii_digits, text in *.
    induction Hs as [|a l Ha Hl IH]; [done|]. simpl.
    rewrite (to_decimal_ascii_digit _ Ha). simpl.
    replace (48 + (N_of_ascii a - 48))%N with (N_of_ascii a) by lia.
    by rewrite ascii_N_embedding, IH. }
  by rewrite string_of_list_ascii_of_string.
Qed.

Lemma format_d_digits1 z : 0 <= z -> digits1 unicode (format_d z).
Proof.
  intros Hz. unfold format_d. destruct z as [|p|p]; [by split| |lia].
  simpl. unfold NilZero.string_of_uint.
  pose proof (Unsigned.to_uint_nonnil p) as Hn.
  destruct (Pos.to_uint p) eqn:E; [done|..];
    (split; [done | apply digits_ascii_digits, (ascii_digits_string_of_uint (_ _))]).
Qed.

Lemma int_format_d z : 0 <= z -> int unicode (format_d z) = z.
Proof.
  intros Hz. unfold format_d. destruct z as [|p|p]; [done| |lia].
  simpl. unfold NilZero.string_of_uint.
  pose proof (Unsigned.to_uint_nonnil p) as Hn.
  assert (NilEmpty.uint_of_string (NilEmpty.string_of_uint (Pos.to_uint p))
          = Some (Pos.to_uint p)) as Hu by apply NilEmpty.usu.
  destruct (Pos.to_uint p) eqn:E; [done|..];
    rewrite (int_ascii_digits _ (ascii_digits_string_of_uint (_ _))), Hu, <- E;
    unfold Z.of_uint; by rewrite Unsigned.of_to.
Qed.

Lemma format_d_negative z : z < 0 ->
  forall rest, match_digits unicode (format_d z ++ rest) = None.
Proof.
  intros Hz rest. destruct z as [|p|p]; [lia|lia|]. done.
Qed.

Local Ltac run_parser :=
  repeat first
    [ rewrite match_literal_app
    | rewrite match_digits_app;
        [|by apply format_d_digits1|by apply no_digit_ahead_cons]
    | rewrite match_digits_all by by apply format_d_digits1
    | progress simpl ].

Lemma single_parser_format f s : 0 <= f -> 0 <= s ->
  single_scan_id_parser unicode (text "frame=" ++ format_d f ++ text " scan=" ++ format_d s)
  = Some (format_d f, format_d s).
Proof. intros Hf Hs. unfold single_scan_id_parser. by run_parser. Qed.

Lemma multi_parser_format f s e : 0 <= f -> 0 <= s -> 0 <= e ->
  multi_scan_id_parser unicode
    (text "frame=" ++ format_d f ++ text " startScan=" ++ format_d s ++
     text " endScan=" ++ format_d e)
  = Some (format_d f, format_d s, format_d e).
Proof. intros Hf Hs He. unfold multi_scan_id_parser. by run_parser. Qed.

(** After [frame=<digits>] the two patterns go on with different
    literals. *)
Lemma single_parser_on_multi d1 rest : digits1 unicode d1 ->
  single_scan_id_parser unicode (text "frame=" ++ d1 ++ text " startScan=" ++ rest) = None.
Proof.
  intros Hd. unfold single_scan_id_parser. rewrite match_literal_app. simpl.
  rewrite match_digits_app; [done|done|by apply no_digit_ahead_cons].
Qed.

Lemma multi_parser_on_single d1 rest : digits1 unicode d1 ->
  multi_scan_id_parser unicode (text "frame=" ++ d1 ++ text " scan=" ++ rest) = None.
Proof.
  intros Hd. unfold multi_scan_id_parser. rewrite match_literal_app. simpl.
  rewrite match_digits_app; [done|done|by apply no_digit_ahead_cons].
Qed.

Lemma single_parser_rejects_multi f s e : 0 <= f ->
  single_scan_id_parser unicode
    (text "frame=" ++ format_d f ++ text " startScan=" ++ format_d s ++
     text " endScan=" ++ format_d e)
  = None.
Proof. intros Hf. by apply single_parser_on_multi, format_d_digits1. Qed.

(** What the parsers take from a text that begins with an identifier:
    the longest runs of digits. *)
Lemma single_parser_groups d1 d2 rest :
  digits1 unicode d1 -> digits1 unicode d2 -> no_digit_ahead unicode rest ->
  single_scan_id_parser unicode (text "frame=" ++ d1 ++ text " scan=" ++ d2 ++ rest)
  = Some (d1, d2).
Proof.
  intros H1 H2 Hr. unfold single_scan_id_parser. rewrite match_literal_app. simpl.
  rewrite match_digits_app; [|done|by apply no_digit_ahead_cons]. simpl.
  by rewrite (match_digits_app d2 rest).
Qed.

Lemma multi_parser_groups d1 d2 d3 rest :
  digits1 unicode d1 -> digits1 unicode d2 -> digits1 unicode d3 ->
  no_digit_ahead unicode rest ->
  multi_scan_id_parser unicode
    (text "frame=" ++ d1 ++ text " startScan=" ++ d2 ++ text " endScan=" ++ d3 ++ rest)
  = Some (d1, d2, d3).
Proof.
  intros H1 H2 H3 Hr. unfold multi_scan_id_parser. rewrite match_literal_app. simpl.
  rewrite match_digits_app; [|done|by apply no_digit_ahead_cons]. simpl.
  rewrite match_digits_app; [|done|by apply no_digit_ahead_cons]. simpl.
  by rewrite (match_digits_app d3 rest).
Qed.

(** The two parsers match exactly the texts that begin with an identifier. *)
Lemma single_parser_begins s g1 g2 :
  single_scan_id_parser unicode s = Some (g1, g2) -> begins_with_single_id unicode s.
Proof.
  unfold single_scan_id_parser. intros H.
  apply bind_Some in H as (s1 & E1 & H).
  apply bind_Some in H as ([d1 s2] & E2 & H).
  apply bind_Some in H as (s3 & E3 & H).
  apply bind_Some in H as ([d2 s4] & E4 & H).
  apply match_literal_Some in E1 as ->. apply match_digits_Some in E2 as (-> & Hd1 & _).
  apply match_literal_Some in E3 as ->. apply match_digits_Some in E4 as (-> & Hd2 & _).
  by exists d1, d2, s4.
Qed.

Lemma multi_parser_begins s g :
  multi_scan_id_parser unicode s = Some g -> begins_with_multi_id unicode s.
Proof.
  unfold multi_scan_id_parser. intros H.
  apply bind_Some in H as (s1 & E1 & H).
  apply bind_Some in H as ([d1 s2] & E2 & H).
  apply bind_Some in H as (s3 & E3 & H).
  apply bind_Some in H as ([d2 s4] & E4 & H).
  apply bind_Some in H as (s5 & E5 & H).
  apply bind_Some in H as ([d3 s6] & E6 & H).
  apply match_literal_Some in E1 as ->. apply match_digits_Some in E2 as (-> & Hd1 & _).
  apply match_literal_Some in E3 as ->. apply match_digits_Some in E4 as (-> & Hd2 & _).
  apply match_literal_Some in E5 as ->. apply match_digits_Some in E6 as (-> & Hd3 & _).
  by exists d1, d2, d3, s6.
Qed.

Lemma begins_single_parser s :
  begins_with_single_id unicode s -> is_Some (single_scan_id_parser unicode s).
Proof.
  intros (d1 & d2 & rest & Hd1 & Hd2 & ->). unfold single_scan_id_parser.
  rewrite match_literal_app. simpl.
  rewrite match_digits_app; [|done|by apply no_digit_ahead_cons]. simpl.
  destruct (match_digits_prefix d2 rest Hd2) as [[g2 r2] ->]. by eexists.
Qed.

Lemma begins_multi_parser s :
  begins_with_multi_id unicode s -> is_Some (multi_scan_id_parser unicode s).
Proof.
  intros (d1 & d2 & d3 & rest & Hd1 & Hd2 & Hd3 & ->). unfold multi_scan_id_parser.
  rewrite match_literal_app. simpl.
  rewrite match_digits_app; [|done|by apply no_digit_ahead_cons]. simpl.
  rewrite match_digits_app; [|done|by apply no_digit_ahead_cons]. simpl.
  destruct (match_digits_prefix d3 rest Hd3) as [[g2 r2] ->]. by eexists.
Qed.

(** A text in one of the formats of the specification ends with a digit. *)
Lemma last_app_nonempty {A} (a b : list A) : b <> [] -> last (a ++ b) = last b.
Proof.
  intros Hb. destruct b as [|x b] using rev_ind; [done|].
  by rewrite (assoc_L (++)), !last_snoc.
Qed.

Lemma digits1_last d : digits1 unicode d ->
  exists c, last d = Some c /\ is_digit unicode c = true.
Proof.
  intros [Hne Hd]. destruct d as [|c d] using rev_ind; [done|].
  exists c. rewrite last_snoc. split; [done|].
  unfold digits in Hd. rewrite forallb_app in Hd. simpl in Hd.
  apply andb_true_iff in Hd as [_ Hd]. by apply andb_true_iff in Hd as [Hd _].
Qed.

Lemma int_text_last t : int_text unicode t ->
  t <> [] /\ exists c, last t = Some c /\ is_digit unicode c = true.
Proof.
  intros [Hd|(d & Hd & ->)].
  - split; [by destruct Hd|by apply digits1_last].
  - split; [done|]. rewrite last_app_nonempty by by destruct Hd. by apply digits1_last.
Qed.

Lemma app_nonempty_r {A} (a b : list A) : b <> [] -> a ++ b <> [].
Proof. intros Hb. by destruct a. Qed.

Lemma single_id_format_last s : single_id_format unicode s ->
  exists c, last s = Some c /\ is_digit unicode c = true.
Proof.
  intros (t1 & t2 & H1 & H2 & ->).
  destruct (int_text_last _ H2) as [Hne Hl].
  by rewrite !last_app_nonempty by auto using app_nonempty_r.
Qed.

Lemma multi_id_format_last s : multi_id_format unicode s ->
  exists c, last s = Some c /\ is_digit unicode c = true.
Proof.
  intros (t1 & t2 & t3 & H1 & H2 & H3 & ->).
  destruct (int_text_last _ H3) as [Hne Hl].
  by rewrite !last_app_nonempty by auto 6 using app_nonempty_r.
Qed.

End TextFacts.

(** ** Loading frames *)

Section FrameLoading.
Context {F : Type} (conn : connection F).

Lemma new_events_app (self self' : TIMSData F) new :
  log self' = log self ++ new -> new_events self self' = new.
Proof. intros H. unfold new_events. rewrite H. by rewrite drop_app_length. Qed.

Lemma get_frame_by_id_hit frame_id self frame :
  _frame_cache self !! frame_id = Some frame ->
  get_frame_by_id conn frame_id self = (Return frame, self).
Proof. intros H. unfold get_frame_by_id. by rewrite H. Qed.

Lemma get_frame_by_id_miss frame_id self rowdict :
  _frame_cache self !! frame_id = None ->
  select_frame conn frame_id = Some rowdict ->
  get_frame_by_id conn frame_id self =
    (Return (loaded_frame conn frame_id rowdict),
     Build_TIMSData (handle self) (initial_frame_buffer_size self)
       (<[frame_id := loaded_frame conn frame_id rowdict]> (_frame_cache self))
       (_scan_merging_parameters self)
       (log self ++ load_events frame_id rowdict)).
Proof.
  intros Hc Hr. unfold get_frame_by_id, loaded_frame, load_events.
  rewrite Hc. unfold mbind, M_MBind, M_bind, mret, M_MRet, M_ret. simpl.
  rewrite Hr. simpl.
  destruct (FramesRow.MsMsType rowdict =? 0) eqn:E0; simpl.
  - apply Z.eqb_eq in E0. rewrite E0. simpl. done.
  - destruct (FramesRow.MsMsType rowdict =? 8) eqn:E8; simpl;
      by rewrite <- app_assoc.
Qed.

Lemma get_frame_by_id_missing frame_id self :
  _frame_cache self !! frame_id = None ->
  select_frame conn frame_id = None ->
  exists e self', get_frame_by_id conn frame_id self = (Raise e, self').
Proof.
  intros Hc Hr. unfold get_frame_by_id.
  rewrite Hc. unfold mbind, M_MBind, M_bind, mret, M_MRet, M_ret. simpl.
  rewrite Hr. by eexists _, _.
Qed.

Lemma cache_consistent_init handle params : cache_consistent conn (TIMSData_init handle params).
Proof. intros k fr. simpl. by rewrite lookup_empty. Qed.

End FrameLoading.

Section FrameLoadingByType.
Context {F : Type} (conn : connection F).

Lemma loaded_frame_precursors frame_id (rowdict : FramesRow.t F) :
  FramesRow.MsMsType rowdict <> 8 ->
  TIMSFrame.pasef_precursors (loaded_frame conn frame_id rowdict) = [].
Proof.
  intros H. unfold loaded_frame.
  destruct (FramesRow.MsMsType rowdict =? 8) eqn:E; [|done].
  by apply Z.eqb_eq in E.
Qed.

Lemma get_frame_by_id_consistent frame_id self o self' :
  cache_consistent conn self ->
  get_frame_by_id conn frame_id self = (o, self') ->
  cache_consistent conn self'.
Proof.
  intros Hinv Hrun.
  destruct (_frame_cache self !! frame_id) as [frame|] eqn:Hc.
  - rewrite (get_frame_by_id_hit conn _ _ _ Hc) in Hrun. by injection Hrun as <- <-.
  - destruct (select_frame conn frame_id) as [rowdict|] eqn:Hr.
    + rewrite (get_frame_by_id_miss conn _ _ _ Hc Hr) in Hrun.
      injection Hrun as <- <-. intros k fr. simpl.
      destruct (decide (frame_id = k)) as [->|Hne].
      * rewrite lookup_insert_eq. intros [= <-]. by exists rowdict.
      * rewrite lookup_insert_ne by done. apply Hinv.
    + unfold get_frame_by_id in Hrun. rewrite Hc in Hrun.
      unfold mbind, M_MBind, M_bind in Hrun. simpl in Hrun. rewrite Hr in Hrun.
      injection Hrun as <- <-. exact Hinv.
Qed.

(** Claim C9, amended.  For a frame of the metadata store and a reader
    whose cache is consistent, [get_frame_by_id] returns the frame; its
    precursor list is empty unless its type is 8, and is the list of the
    join query when it is.  The warning is emitted exactly when the frame
    is loaded (not found in the cache) and its type is neither 0 nor 8;
    the join query runs exactly when a frame of type 8 is loaded. *)
Theorem get_frame_by_id_by_type frame_id self rowdict :
  select_frame conn frame_id = Some rowdict ->
  cache_consistent conn self ->
  exists frame self',
    get_frame_by_id conn frame_id self = (Return frame, self') /\
    frame = loaded_frame conn frame_id rowdict /\
    (FramesRow.MsMsType rowdict <> 8 -> TIMSFrame.pasef_precursors frame = []) /\
    (FramesRow.MsMsType rowdict = 8 ->
       TIMSFrame.pasef_precursors frame =
       map PASEFPrecursorInformation_from_query (select_pasef_precursors conn frame_id)) /\
    (forall m, warnings_warn m ∈ new_events self self' <->
       _frame_cache self !! frame_id = None /\
       FramesRow.MsMsType rowdict <> 0 /\ FramesRow.MsMsType rowdict <> 8 /\
       m = Msg "No support for MSMSType %r yet" [ArgInt (FramesRow.MsMsType rowdict)]) /\
    (forall k, sql_select_pasef_precursors k ∈ new_events self self' <->
       _frame_cache self !! frame_id = None /\
       FramesRow.MsMsType rowdict = 8 /\ k = frame_id).
Proof.
  intros Hr Hinv.
  destruct (_frame_cache self !! frame_id) as [frame|] eqn:Hc.
  - exists frame, self. rewrite (get_frame_by_id_hit conn _ _ _ Hc).
    destruct (Hinv _ _ Hc) as (row' & Hr' & ->).
    rewrite Hr in Hr'. injection Hr' as <-.
    assert (new_events self self = []) as -> by (apply new_events_app; by rewrite app_nil_r).
    split_and!; [done|done|apply loaded_frame_precursors| | |].
    + intros E. unfold loaded_frame. rewrite E. done.
    + intros m. rewrite elem_of_nil. split; [done|]. intros [E _]. congruence.
    + intros k. rewrite elem_of_nil. split; [done|]. intros [E _]. congruence.
  - eexists _, _. rewrite (get_frame_by_id_miss conn _ _ _ Hc Hr).
    split; [done|].
    rewrite (new_events_app _ _ (load_events frame_id rowdict)) by done.
    split_and!; [done|apply loaded_frame_precursors| | |].
    + intros E. unfold loaded_frame. rewrite E. done.
    + intros m. unfold load_events.
      destruct (FramesRow.MsMsType rowdict =? 0) eqn:E0;
        [|destruct (FramesRow.MsMsType rowdict =? 8) eqn:E8];
        rewrite ?Z.eqb_eq, ?Z.eqb_neq in *;
        rewrite ?elem_of_cons, elem_of_nil.
      * split; [intros [|[]]; done | intros (_ & E & _); congruence].
      * split; [intros [|[|[]]]; done | intros (_ & _ & E & _); congruence].
      * split; [intros [|[[= ->]|[]]]; done | intros (_ & _ & _ & ->); auto].
    + intros k. unfold load_events.
      destruct (FramesRow.MsMsType rowdict =? 0) eqn:E0;
        [|destruct (FramesRow.MsMsType rowdict =? 8) eqn:E8];
        rewrite ?Z.eqb_eq, ?Z.eqb_neq in *;
        rewrite ?elem_of_cons, elem_of_nil.
      * split; [intros [|[]]; done | intros (_ & E & _); congruence].
      * split; [intros [|[[= ->]|[]]]; done | intros (_ & _ & ->); auto].
      * split; [intros [|[|[]]]; done | intros (_ & E & _); congruence].
Qed.

(** The errors of the two calls [get_scan_by_id] makes. *)
Lemma get_frame_by_id_error frame_id self e self' :
  get_frame_by_id conn frame_id self = (Raise e, self') ->
  e = TypeError (Msg "'NoneType' object is not iterable" []).
Proof.
  destruct (_frame_cache self !! frame_id) as [cached|] eqn:Hc.
  { by rewrite (get_frame_by_id_hit conn _ _ _ Hc). }
  destruct (select_frame conn frame_id) as [rowdict|] eqn:Hr.
  { by rewrite (get_frame_by_id_miss conn _ _ _ Hc Hr). }
  unfold get_frame_by_id. rewrite Hc.
  unfold mbind, M_MBind, M_bind, mret, M_MRet, M_ret. simpl. rewrite Hr.
  by intros [= <- _].
Qed.

Lemma locate_error (scan : TIMSSpectrumDataBase.t F) e scan_id :
  _locate_pasef_precursor_for scan = Raise e -> e <> InvalidScanIdentifier scan_id.
Proof.
  unfold _locate_pasef_precursor_for.
  destruct (TIMSSpectrumDataBase.is_combined scan); [|done].
  cbv zeta. destruct (_ =? 0)%nat; [done|].
  destruct (1 <? _)%nat; [by intros [= <-]|].
  destruct (_ !! 0%nat); [done|by intros [= <-]].
Qed.

(** [get_scan_by_id] on a text one of the parsers matches: it uses the
    groups only. *)
Lemma get_scan_by_id_single unicode scan_id g1 g2 self :
  single_scan_id_parser unicode scan_id = Some (g1, g2) ->
  get_scan_by_id unicode conn scan_id self =
  (frame ← get_frame_by_id conn (int unicode g1);
   if TIMSFrame.msms_type frame =? 8 then
     let pasef_scan : TIMSPASEFSpectrumData.t F :=
       TIMSPASEFSpectrumData.init frame (int unicode g2 - 1) None None in
     precursor ← lift (_locate_pasef_precursor_for (TIMSPASEFSpectrumData.base pasef_scan));
     mret (ScanOfPASEF
             (TIMSPASEFSpectrumData.make
                (TIMSPASEFSpectrumData.base pasef_scan) precursor))
   else
     mret (ScanOfBase (TIMSSpectrumDataBase.make frame (int unicode g2 - 1) None))) self.
Proof. intros E. unfold get_scan_by_id. by rewrite E. Qed.

Lemma get_scan_by_id_multi unicode scan_id g1 g2 g3 self :
  single_scan_id_parser unicode scan_id = None ->
  multi_scan_id_parser unicode scan_id = Some (g1, g2, g3) ->
  get_scan_by_id unicode conn scan_id self =
  (frame ← get_frame_by_id conn (int unicode g1);
   if TIMSFrame.msms_type frame =? 8 then
     let pasef_scan : TIMSPASEFSpectrumData.t F :=
       TIMSPASEFSpectrumData.init frame (int unicode g2 - 1) None (Some (int unicode g3)) in
     precursor ← lift (_locate_pasef_precursor_for (TIMSPASEFSpectrumData.base pasef_scan));
     mret (ScanOfPASEF
             (TIMSPASEFSpectrumData.make
                (TIMSPASEFSpectrumData.base pasef_scan) precursor))
   else
     mret (ScanOfBase
             (TIMSSpectrumDataBase.make frame (int unicode g2 - 1) (Some (int unicode g3))))) self.
Proof. intros E1 E2. unfold get_scan_by_id. by rewrite E1, E2. Qed.

Lemma get_scan_by_id_matched unicode scan_id self :
  is_Some (single_scan_id_parser unicode scan_id) \/
  is_Some (multi_scan_id_parser unicode scan_id) ->
  (get_scan_by_id unicode conn scan_id self).1 <> Raise (InvalidScanIdentifier scan_id).
Proof.
  intros Hm. unfold get_scan_by_id.
  destruct (single_scan_id_parser unicode scan_id) as [[g1 g2]|].
  - unfold mbind, M_MBind, M_bind, mret, M_MRet, M_ret, lift.
    destruct (get_frame_by_id conn (int unicode g1) self) as [[frame|e] self1] eqn:Hf.
    + destruct (TIMSFrame.msms_type frame =? 8); [|done].
      destruct (_locate_pasef_precursor_for _) as [p|e] eqn:Hl; [done|].
      simpl. intros [= ->]. by eapply locate_error.
    + apply get_frame_by_id_error in Hf as ->. done.
  - destruct (multi_scan_id_parser unicode scan_id) as [[[g1 g2] g3]|].
    + unfold mbind, M_MBind, M_bind, mret, M_MRet, M_ret, lift.
      destruct (get_frame_by_id conn (int unicode g1) self) as [[frame|e] self1] eqn:Hf.
      * destruct (TIMSFrame.msms_type frame =? 8); [|done].
        destruct (_locate_pasef_precursor_for _) as [p|e] eqn:Hl; [done|].
        simpl. intros [= ->]. by eapply locate_error.
      * apply get_frame_by_id_error in Hf as ->. done.
    + by destruct Hm as [[? ?]|[? ?]].
Qed.

(** Claim C8, amended.  [get_scan_by_id] raises [InvalidScanIdentifier],
    the reader being left as it was, exactly for the texts that begin
    neither with [frame=<digits> scan=<digits>] nor with
    [frame=<digits> startScan=<digits> endScan=<digits>], [<digits>]
    being one or more decimal digits of the interpreter's Unicode
    database.  A text that begins with one of them is read by its longest
    such prefix: when no digit follows the prefix, what follows it is
    ignored. *)
Theorem get_scan_by_id_rejects unicode scan_id self :
  (get_scan_by_id unicode conn scan_id self = (Raise (InvalidScanIdentifier scan_id), self) <->
   ~ begins_with_single_id unicode scan_id /\ ~ begins_with_multi_id unicode scan_id) /\
  (forall d1 d2 rest,
     digits1 unicode d1 -> digits1 unicode d2 -> no_digit_ahead unicode rest ->
     scan_id = text "frame=" ++ d1 ++ text " scan=" ++ d2 ++ rest ->
     get_scan_by_id unicode conn scan_id self
     = get_scan_by_id unicode conn (text "frame=" ++ d1 ++ text " scan=" ++ d2) self) /\
  (forall d1 d2 d3 rest,
     digits1 unicode d1 -> digits1 unicode d2 -> digits1 unicode d3 ->
     no_digit_ahead unicode rest ->
     scan_id = text "frame=" ++ d1 ++ text " startScan=" ++ d2 ++ text " endScan=" ++ d3 ++ rest ->
     get_scan_by_id unicode conn scan_id self
     = get_scan_by_id unicode conn
         (text "frame=" ++ d1 ++ text " startScan=" ++ d2 ++ text " endScan=" ++ d3) self).
Proof.
  split_and!.
  - split.
    + intros Hrun. split.
      * intros Hb. apply (get_scan_by_id_matched unicode scan_id self).
        { left. by apply begins_single_parser. }
        by rewrite Hrun.
      * intros Hb. apply (get_scan_by_id_matched unicode scan_id self).
        { right. by apply begins_multi_parser. }
        by rewrite Hrun.
    + intros [Hs Hm]. unfold get_scan_by_id.
      destruct (single_scan_id_parser unicode scan_id) as [[g1 g2]|] eqn:E1.
      { destruct Hs. by eapply single_parser_begins. }
      destruct (multi_scan_id_parser unicode scan_id) as [g|] eqn:E2.
      { destruct Hm. by eapply multi_parser_begins. }
      done.
  - intros d1 d2 rest H1 H2 Hr ->.
    rewrite (get_scan_by_id_single unicode _ d1 d2) by by apply single_parser_groups.
    rewrite (get_scan_by_id_single unicode (text "frame=" ++ d1 ++ text " scan=" ++ d2) d1 d2).
    + done.
    + rewrite <- (app_nil_r d2) at 1.
      apply single_parser_groups; [done|done|apply no_digit_ahead_nil].
  - intros d1 d2 d3 rest H1 H2 H3 Hr ->.
    rewrite (get_scan_by_id_multi unicode _ d1 d2 d3);
      [|by apply single_parser_on_multi|by apply multi_parser_groups].
    rewrite (get_scan_by_id_multi unicode
               (text "frame=" ++ d1 ++ text " startScan=" ++ d2 ++ text " endScan=" ++ d3)
               d1 d2 d3).
    + done.
    + by apply single_parser_on_multi.
    + rewrite <- (app_nil_r d3) at 1.
      apply multi_parser_groups; [done|done|done|apply no_digit_ahead_nil].
Qed.

End FrameLoadingByType.

(** Claim C9 as stated fails: frame 5 has type 2, and a second
    [get_frame_by_id(5)] returns the cached frame without any event, so
    without a warning. *)
Lemma get_frame_by_id_cached_no_warning :
  TIMSFrame.msms_type Example.frame5 = 2 /\
  _frame_cache Example.reader_after_frame5 !! 5 = Some Example.frame5 /\
  get_frame_by_id Example.conn 5 Example.reader_after_frame5
  = (Return Example.frame5, Example.reader_after_frame5) /\
  new_events Example.reader_after_frame5
    (get_frame_by_id Example.conn 5 Example.reader_after_frame5).2 = [].
Proof.
  assert (_frame_cache Example.reader_after_frame5 !! 5 = Some Example.frame5) as H.
  { unfold Example.reader_after_frame5.
    rewrite (get_frame_by_id_miss Example.conn 5 Example.reader (Example.frames_row 5 2)) by done.
    simpl. by rewrite lookup_insert_eq. }
  split_and!; [done|done|by apply get_frame_by_id_hit|].
  rewrite (get_frame_by_id_hit _ _ _ _ H). simpl. apply new_events_app. by rewrite app_nil_r.
Qed.

(** Claim C8 as stated fails: [frame=7 scan=3x] is in neither format, and
    [get_scan_by_id] builds scan 2 of frame 7 from it. *)
Lemma trailing_text_accepted :
  ~ single_id_format Example.unicode (text "frame=7 scan=3x") /\
  ~ multi_id_format Example.unicode (text "frame=7 scan=3x") /\
  get_scan_by_id Example.unicode Example.conn (text "frame=7 scan=3x") Example.reader
  = (Return (ScanOfBase (TIMSSpectrumDataBase.make Example.frame7 2 None)),
     (get_frame_by_id Example.conn 7 Example.reader).2).
Proof.
  split_and!.
  - intros H. apply single_id_format_last in H as (c & Hc & Hd).
    simpl in Hc. injection Hc as <-. done.
  - intros H. apply multi_id_format_last in H as (c & Hc & Hd).
    simpl in Hc. injection Hc as <-. done.
  - rewrite (get_scan_by_id_single Example.conn Example.unicode _ (text "7") (text "3"))
      by reflexivity.
    change (int Example.unicode (text "7")) with 7.
    change (int Example.unicode (text "3")) with 3.
    unfold mbind, M_MBind, M_bind.
    rewrite (get_frame_by_id_miss Example.conn 7 Example.reader (Example.frames_row 7 0)) by done.
    done.
Qed.

(** Digits of another script: with the Arabic-Indic seven (U+0667) as
    its frame number, the identifier is read as scan 2 of frame 7. *)
Lemma arabic_indic_digits_read :
  get_scan_by_id Example.unicode Example.conn
    (text "frame=" ++ [1639%N] ++ text " scan=3") Example.reader
  = (Return (ScanOfBase (TIMSSpectrumDataBase.make Example.frame7 2 None)),
     (get_frame_by_id Example.conn 7 Example.reader).2).
Proof.
  rewrite (get_scan_by_id_single Example.conn Example.unicode _ [1639%N] (text "3"))
    by reflexivity.
  change (int Example.unicode [1639%N]) with 7.
  change (int Example.unicode (text "3")) with 3.
  unfold mbind, M_MBind, M_bind.
  rewrite (get_frame_by_id_miss Example.conn 7 Example.reader (Example.frames_row 7 0)) by done.
  done.
Qed.

(** ** Locating precursors *)

Section PrecursorLocation.
Context {F : Type}.
Implicit Types (scan : TIMSSpectrumDataBase.t F) (P Q : PASEFPrecursorInformation.t F).

Lemma is_combined_spec scan :
  TIMSSpectrumDataBase.is_combined scan = true <->
  exists e, TIMSSpectrumDataBase._end_scan scan = Some e /\
            e - TIMSSpectrumDataBase.start_scan scan > 1.
Proof.
  unfold TIMSSpectrumDataBase.is_combined.
  destruct (TIMSSpectrumDataBase._end_scan scan) as [e|].
  - rewrite bool_decide_eq_true. split; [by exists e|by intros (? & [= <-] & ?)].
  - split; [done|by intros (? & ? & ?)].
Qed.

Lemma is_combined_iff scan :
  TIMSSpectrumDataBase.is_combined scan = true <->
  TIMSSpectrumDataBase.end_scan scan - TIMSSpectrumDataBase.start_scan scan > 1.
Proof.
  rewrite is_combined_spec. unfold TIMSSpectrumDataBase.end_scan.
  destruct (TIMSSpectrumDataBase._end_scan scan) as [e|].
  - split; [by intros (? & [= <-] & ?)|by exists e].
  - split; [by intros (? & ? & ?)|lia].
Qed.

Lemma contains_scan_spec s P :
  contains_scan s P = true <->
  PASEFPrecursorInformation.start_scan P <= s < PASEFPrecursorInformation.end_scan P.
Proof. unfold contains_scan. rewrite andb_true_iff, Z.leb_le, Z.ltb_lt. done. Qed.

Lemma overlaps_query_spec a b P :
  overlaps_query (Interval.make a b) P = true <->
  exists s, a <= s < b /\
    PASEFPrecursorInformation.start_scan P <= s < PASEFPrecursorInformation.end_scan P.
Proof.
  unfold overlaps_query, Interval.overlaps. simpl. rewrite bool_decide_eq_true. split.
  - intros H. exists (Z.max a (PASEFPrecursorInformation.start_scan P)). lia.
  - intros (s & ? & ?). lia.
Qed.

Lemma find_first {A} (f : A -> bool) (l : list A) x :
  List.find f l = Some x <->
  exists before after, l = before ++ x :: after /\ f x = true /\
    forall y, y ∈ before -> f y = false.
Proof.
  induction l as [|a l IH]; simpl.
  - split; [done|]. intros (before & after & H & _). by destruct before.
  - destruct (f a) eqn:E.
    + split.
      * intros [= ->]. exists [], l. split_and!; [done|done|]. intros y Hy. by apply elem_of_nil in Hy.
      * intros (before & after & H & Hx & Hb). destruct before as [|b before].
        -- by injection H as -> _.
        -- injection H as -> _. rewrite Hb in E; [done|]. by left.
    + rewrite IH. split.
      * intros (before & after & -> & Hx & Hb). exists (a :: before), after.
        split_and!; [done|done|]. intros y [->|Hy]%elem_of_cons; auto.
      * intros (before & after & H & Hx & Hb). destruct before as [|b before].
        -- injection H as -> _. congruence.
        -- injection H as -> ->. exists before, after. split_and!; [done|done|].
           intros y Hy. apply Hb. by right.
Qed.

Lemma find_none_iff {A} (f : A -> bool) (l : list A) :
  List.find f l = None <-> forall y, y ∈ l -> f y = false.
Proof.
  induction l as [|a l IH]; simpl.
  - split; [|done]. intros _ y Hy. by apply elem_of_nil in Hy.
  - destruct (f a) eqn:E.
    + split; [done|]. intros H. rewrite H in E; [done|by left].
    + rewrite IH. split.
      * intros H y [->|Hy]%elem_of_cons; auto.
      * intros H y Hy. apply H. by right.
Qed.

(** Claim C4.  For a single-scan reference with scan number [s] the
    locator never raises; it returns the first precursor [P] of the
    frame's list with [start_scan P <= s < end_scan P], none when no
    precursor contains [s], and never a precursor whose range ends at
    [s]. *)
Theorem locate_single_scan scan :
  TIMSSpectrumDataBase.end_scan scan = TIMSSpectrumDataBase.start_scan scan + 1 ->
  let s := TIMSSpectrumDataBase.start_scan scan in
  let precursors := TIMSFrame.pasef_precursors (TIMSSpectrumDataBase.frame scan) in
  let contains P :=
    PASEFPrecursorInformation.start_scan P <= s < PASEFPrecursorInformation.end_scan P in
  (exists found, _locate_pasef_precursor_for scan = Return found) /\
  (forall P, _locate_pasef_precursor_for scan = Return (Some P) <->
     exists before after, precursors = before ++ P :: after /\ contains P /\
       forall Q, Q ∈ before -> ~ contains Q) /\
  (_locate_pasef_precursor_for scan = Return None <->
     forall Q, Q ∈ precursors -> ~ contains Q) /\
  (forall P, P ∈ precursors -> PASEFPrecursorInformation.end_scan P = s ->
     _locate_pasef_precursor_for scan <> Return (Some P)).
Proof.
  intros Hend s precursors contains.
  assert (TIMSSpectrumDataBase.is_combined scan = false) as Hc.
  { apply not_true_is_false. rewrite is_combined_iff. lia. }
  unfold _locate_pasef_precursor_for. rewrite Hc. fold s precursors.
  assert (forall Q, contains_scan s Q = false <-> ~ contains Q) as Hn.
  { intros Q. unfold contains. rewrite <- contains_scan_spec. by destruct (contains_scan s Q). }
  split_and!.
  - by eexists.
  - intros P. split.
    + intros [= H]. apply find_first in H as (before & after & H1 & H2 & H3).
      exists before, after. split_and!; [done|by apply contains_scan_spec|].
      intros Q HQ. apply Hn. auto.
    + intros (before & after & H1 & H2 & H3). f_equal. apply find_first.
      exists before, after. split_and!; [done|by apply contains_scan_spec|].
      intros Q HQ. apply Hn. auto.
  - split.
    + intros [= H]. intros Q HQ. apply Hn. revert Q HQ. by apply find_none_iff.
    + intros H. f_equal. apply find_none_iff. intros Q HQ. apply Hn. auto.
  - intros P HP He [= H]. apply find_first in H as (_ & _ & _ & H & _).
    apply contains_scan_spec in H. lia.
Qed.

(** Claim C3.  For a combined reference the matches are the precursors
    whose half-open range shares a scan number with the half-open query
    range; no match gives none, a single match gives that precursor, and
    two or more raise [AmbiguousPrecursorMatch]. *)
Theorem locate_combined_scan scan :
  TIMSSpectrumDataBase.end_scan scan - TIMSSpectrumDataBase.start_scan scan > 1 ->
  let query_interval :=
    Interval.make (TIMSSpectrumDataBase.start_scan scan) (TIMSSpectrumDataBase.end_scan scan) in
  let matches :=
    List.filter (overlaps_query query_interval)
      (TIMSFrame.pasef_precursors (TIMSSpectrumDataBase.frame scan)) in
  (forall P, overlaps_query query_interval P = true <->
     exists s,
       TIMSSpectrumDataBase.start_scan scan <= s < TIMSSpectrumDataBase.end_scan scan /\
       PASEFPrecursorInformation.start_scan P <= s < PASEFPrecursorInformation.end_scan P) /\
  match matches with
  | [] => _locate_pasef_precursor_for scan = Return None
  | [P] => _locate_pasef_precursor_for scan = Return (Some P)
  | _ :: _ :: _ => _locate_pasef_precursor_for scan = Raise AmbiguousPrecursorMatch
  end.
Proof.
  intros Hc query_interval matches. apply is_combined_iff in Hc.
  split; [intros P; apply overlaps_query_spec|].
  unfold _locate_pasef_precursor_for. rewrite Hc. fold query_interval matches.
  by destruct matches as [|P [|Q rest]].
Qed.

(** Claim C10.  [_activation] returns an [ActivationInformation], with
    the collision energy of the precursor, exactly when the locator finds
    a precursor; when the locator returns none it raises
    [UnboundLocalError] for [collision_energy], and when the locator
    raises, so does it. *)
Theorem activation_by_precursor scan (self : TIMSData F) located :
  _locate_pasef_precursor_for scan = located ->
  (_activation scan self).1 =
  match located with
  | Return None => Raise (UnboundLocalError "collision_energy")
  | Return (Some P) =>
      Return (Build_ActivationInformation
                (method_of_mode (TIMSFrame.scan_mode (TIMSSpectrumDataBase.frame scan)))
                (PASEFPrecursorInformation.collision_energy P))
  | Raise e => Raise e
  end.
Proof.
  intros <-. unfold _activation, method_of_mode.
  unfold mbind, M_MBind, M_bind, mret, M_MRet, M_ret, lift, raise.
  destruct (bool_decide (_ ∈ [2; 8; 9])) eqn:E1.
  - assert (bool_decide (TIMSFrame.scan_mode (TIMSSpectrumDataBase.frame scan) ∈ [3; 4; 5]) = false) as ->.
    { apply bool_decide_eq_true in E1. apply bool_decide_eq_false. rewrite !elem_of_cons, elem_of_nil in *. lia. }
    by destruct (_locate_pasef_precursor_for scan) as [[P|]|e].
  - destruct (bool_decide (_ ∈ [3; 4; 5])) eqn:E2;
      by destruct (_locate_pasef_precursor_for scan) as [[P|]|e].
Qed.

End PrecursorLocation.

(** ** The buffer-growing loop *)

Section BufferLoop.
Context {F : Type} (dll : timsdata F).
Implicit Types self : TIMSData F.

Lemma throw_tims_error_run {A} self :
  throw_tims_error dll (A:=A) self =
  (Raise (RuntimeError (Msg (tims_get_last_error_string dll) [])),
   Build_TIMSData (handle self) (initial_frame_buffer_size self) (_frame_cache self)
     (_scan_merging_parameters self)
     (log self ++ [call_tims_get_last_error_string; call_tims_get_last_error_string])).
Proof.
  unfold throw_tims_error, mbind, M_MBind, M_bind, raise. simpl.
  by rewrite <- (assoc_L (++)).
Qed.

Lemma read_scans_buffer_negative fuel frame_id scan_begin scan_end self :
  attempt_size self < 0 ->
  read_scans_buffer dll (S fuel) frame_id scan_begin scan_end self =
  Some (Raise (ValueError (Msg "negative dimensions are not allowed" [])), self).
Proof.
  intros H. simpl. fold (attempt_size self).
  by rewrite (proj2 (Z.ltb_lt _ _) H).
Qed.

Lemma read_scans_buffer_step fuel frame_id scan_begin scan_end self :
  0 <= attempt_size self ->
  read_scans_buffer dll (S fuel) frame_id scan_begin scan_end self =
  let '(required_len, words) := service_reply dll frame_id scan_begin scan_end self in
  let self1 := after_attempt frame_id scan_begin scan_end self in
  if required_len =? 0 then Some (throw_tims_error dll self1)
  else if required_len >? 4 * attempt_size self then
    if required_len >? 16777216 then Some (Raise FrameTooLarge, self1)
    else read_scans_buffer dll fuel frame_id scan_begin scan_end
           (with_estimate (Qplus (Qmake required_len 4) 1) self1)
  else Some (Return (map words (seq 0 (Z.to_nat (attempt_size self)))), self1).
Proof.
  intros H. unfold service_reply, after_attempt, with_estimate.
  cbn [read_scans_buffer]. fold (attempt_size self).
  rewrite (proj2 (Z.ltb_ge _ _) H). cbn [record_event snd handle].
  destruct (tims_read_scans_v2 _ _ _ _ _ _) as [required_len words].
  cbn [set_initial_frame_buffer_size record_event snd handle initial_frame_buffer_size
       _frame_cache _scan_merging_parameters log].
  by rewrite <- (assoc_L (++)).
Qed.

Lemma py_int_grown required_len :
  0 <= required_len -> py_int (Qplus (Qmake required_len 4) 1) = required_len / 4 + 1.
Proof.
  intros H. unfold py_int. simpl. change (Z.pos (4 * 1)) with 4.
  rewrite Z.mul_1_r, Z.quot_div_nonneg by lia.
  by rewrite Z.div_add by lia.
Qed.



Lemma grown_attempt_size required_len self :
  0 <= required_len ->
  attempt_size (with_estimate (Qplus (Qmake required_len 4) 1) self) = required_len / 4 + 1.
Proof. intros H. unfold attempt_size. simpl. by apply py_int_grown. Qed.

(** The loop ends whatever the library answers: a retry strictly grows
    the buffer, and no retry follows a buffer of 4194304 words or more. *)
Lemma read_scans_buffer_ends fuel : forall frame_id scan_begin scan_end self,
  (Z.to_nat (4194305 - attempt_size self) + 1 <= fuel)%nat ->
  is_Some (read_scans_buffer dll fuel frame_id scan_begin scan_end self).
Proof.
  induction fuel as [|fuel IH]; intros frame_id scan_begin scan_end self Hfuel; [lia|].
  destruct (Z.lt_ge_cases (attempt_size self) 0) as [Hneg|Hpos].
  { rewrite read_scans_buffer_negative by done. by eexists. }
  rewrite read_scans_buffer_step by done.
  destruct (service_reply dll frame_id scan_begin scan_end self) as [required_len words].
  cbv zeta.
  destruct (required_len =? 0); [by eexists|].
  destruct (required_len >? 4 * attempt_size self) eqn:Hgt; [|by eexists].
  destruct (required_len >? 16777216) eqn:Hmax; [by eexists|].
  apply Z.gtb_lt in Hgt. rewrite Z.gtb_ltb in Hmax. apply Z.ltb_ge in Hmax.
  apply IH. rewrite grown_attempt_size by lia.
  pose proof (Z.div_le_mono _ _ 4 ltac:(lia) Hmax) as Hq. change (16777216 / 4) with 4194304 in Hq.
  assert (attempt_size self <= required_len / 4) by (apply Z.div_le_lower_bound; lia).
  lia.
Qed.

Lemma read_scans_buffer_fuel fuel : forall frame_id scan_begin scan_end self r,
  read_scans_buffer dll fuel frame_id scan_begin scan_end self = Some r ->
  forall fuel', (fuel <= fuel')%nat ->
  read_scans_buffer dll fuel' frame_id scan_begin scan_end self = Some r.
Proof.
  induction fuel as [|fuel IH]; intros frame_id scan_begin scan_end self r Hr fuel' Hle; [done|].
  destruct fuel' as [|fuel']; [lia|].
  destruct (Z.lt_ge_cases (attempt_size self) 0) as [Hneg|Hpos].
  { rewrite read_scans_buffer_negative in * by done. done. }
  rewrite read_scans_buffer_step in * by done.
  destruct (service_reply dll frame_id scan_begin scan_end self) as [required_len words].
  cbv zeta in *.
  destruct (required_len =? 0); [done|].
  destruct (required_len >? 4 * attempt_size self); [|done].
  destruct (required_len >? 16777216); [done|].
  eapply IH; [done|lia].
Qed.

(** Every allocation of a call is the buffer of the entry estimate or one
    of at most 4194305 words, four bytes above 16 MiB. *)
Lemma read_scans_buffer_allocations fuel : forall frame_id scan_begin scan_end self o self',
  read_scans_buffer dll fuel frame_id scan_begin scan_end self = Some (o, self') ->
  exists new, log self' = log self ++ new /\
    Forall (fun e => e = np_empty (attempt_size self) \/ is_allocation_within 4194305 e) new /\
    (attempt_size self' = attempt_size self \/ attempt_size self' <= 4194305) /\
    conversion_calls new = [].
Proof.
  induction fuel as [|fuel IH]; intros frame_id scan_begin scan_end self o self' Hr; [done|].
  destruct (Z.lt_ge_cases (attempt_size self) 0) as [Hneg|Hpos].
  { rewrite read_scans_buffer_negative in Hr by done. injection Hr as <- <-.
    exists []. rewrite app_nil_r. split_and!; [done|done|by left|done]. }
  rewrite read_scans_buffer_step in Hr by done.
  destruct (service_reply dll frame_id scan_begin scan_end self) as [required_len words].
  cbv zeta in Hr.
  assert (Forall (fun e => e = np_empty (attempt_size self) \/ is_allocation_within 4194305 e)
            [np_empty (F:=F) (attempt_size self);
             call_tims_read_scans_v2 frame_id scan_begin scan_end (4 * attempt_size self)])
    as Hfirst.
  { apply Forall_cons; split; [by left|]. apply Forall_cons; split; [by right|]. by apply Forall_nil_2. }
  destruct (required_len =? 0).
  { rewrite throw_tims_error_run in Hr. injection Hr as <- <-. simpl.
    eexists. rewrite <- !(assoc_L (++)). split; [done|].
    split; [|by split; [left|]].
    apply Forall_app. split; [done|].
    apply Forall_cons; split; [by right|]. apply Forall_cons; split; [by right|]. by apply Forall_nil_2. }
  destruct (required_len >? 4 * attempt_size self) eqn:Hgt.
  2:{ injection Hr as <- <-. simpl. eexists. split; [done|]. split; [done|by split; [left|]]. }
  destruct (required_len >? 16777216) eqn:Hmax.
  { injection Hr as <- <-. simpl. eexists. split; [done|]. split; [done|by split; [left|]]. }
  apply Z.gtb_lt in Hgt. rewrite Z.gtb_ltb in Hmax. apply Z.ltb_ge in Hmax.
  apply IH in Hr as (new & Hlog & Hall & Hsize & Hconv).
  rewrite grown_attempt_size in * by lia.
  pose proof (Z.div_le_mono _ _ 4 ltac:(lia) Hmax) as Hq. change (16777216 / 4) with 4194304 in Hq.
  simpl in Hlog. eexists. rewrite Hlog, <- (assoc_L (++)). split; [done|].
  split; [|split; [right; lia|done]].
  apply Forall_app. split; [done|].
  eapply Forall_impl; [exact Hall|]. intros e [->|He]; right; [simpl; lia|done].
Qed.

End BufferLoop.

Section BufferNegotiation.
Context {F : Type} (dll : timsdata F).
Implicit Types self : TIMSData F.

(** Claim C5.  When the library asks for more bytes than the buffer
    holds: above 16777216 bytes the call raises [FrameTooLarge] after
    this one attempt; otherwise the estimate becomes
    [required_len / 4 + 1], the read is tried again with a buffer of that
    many words, four bytes above the ceiling at most; and whatever comes
    next, every allocation of the call is the one of the entry estimate
    or has at most 4194305 words. *)
Theorem buffer_negotiation fuel frame_id scan_begin scan_end self required_len words :
  0 <= attempt_size self ->
  service_reply dll frame_id scan_begin scan_end self = (required_len, words) ->
  required_len > 4 * attempt_size self ->
  let self1 := after_attempt frame_id scan_begin scan_end self in
  (required_len > 16777216 ->
     read_scans_buffer dll (S fuel) frame_id scan_begin scan_end self
     = Some (Raise FrameTooLarge, self1)) /\
  (required_len <= 16777216 ->
     let self2 := with_estimate (Qplus (Qmake required_len 4) 1) self1 in
     read_scans_buffer dll (S fuel) frame_id scan_begin scan_end self
     = read_scans_buffer dll fuel frame_id scan_begin scan_end self2 /\
     attempt_size self2 = required_len / 4 + 1 /\
     4 * attempt_size self2 <= 16777216 + 4) /\
  (forall o self',
     read_scans_buffer dll (S fuel) frame_id scan_begin scan_end self = Some (o, self') ->
     Forall (fun e => e = np_empty (attempt_size self) \/
                      is_allocation_within 4194305 e)
       (new_events self self')).
Proof.
  intros Hpos Hreply Hgt self1.
  pose proof (read_scans_buffer_step dll fuel frame_id scan_begin scan_end self Hpos) as Hstep.
  rewrite Hreply in Hstep. cbv zeta in Hstep. fold self1 in Hstep.
  assert ((required_len =? 0) = false) as E0 by (apply Z.eqb_neq; lia).
  assert ((required_len >? 4 * attempt_size self) = true) as E1 by (apply Z.gtb_lt; lia).
  rewrite E0, E1 in Hstep.
  split_and!.
  - intros Hmax. rewrite Hstep.
    assert ((required_len >? 16777216) = true) as -> by (apply Z.gtb_lt; lia). done.
  - intros Hmax self2. rewrite Hstep.
    assert ((required_len >? 16777216) = false) as ->.
    { rewrite Z.gtb_ltb. apply Z.ltb_ge. lia. }
    split; [done|]. unfold self2. rewrite grown_attempt_size by lia.
    split; [done|].
    pose proof (Z.div_le_mono _ _ 4 ltac:(lia) Hmax) as Hq.
    change (16777216 / 4) with 4194304 in Hq. lia.
  - intros o self' Hr.
    apply read_scans_buffer_allocations in Hr as (new & Hlog & Hall & _ & _).
    by rewrite (new_events_app _ _ _ Hlog).
Qed.

End BufferNegotiation.

(** *** Decoding a buffer *)

Lemma sum_list_take_le (l : list nat) i : (sum_list (take i l) <= sum_list l)%nat.
Proof.
  rewrite <- (take_drop i l) at 2. rewrite sum_list_with_app. lia.
Qed.

Lemma sum_list_take_lookup (l : list nat) i x :
  l !! i = Some x -> (sum_list (take i l) + x <= sum_list l)%nat.
Proof.
  intros H. rewrite <- (take_drop_middle l i x H) at 2.
  rewrite sum_list_with_app. simpl. lia.
Qed.

Lemma np_slice_length {A} (buf : list A) start len :
  (start + len <= length buf)%nat ->
  np_slice buf start (start + len) = take len (drop start buf) /\
  length (np_slice buf start (start + len)) = len.
Proof.
  intros H. unfold np_slice. replace (start + len - start)%nat with len by lia.
  split; [done|]. rewrite length_take, length_drop. lia.
Qed.

(** A sum below the limit of the promotion rule is exact, and slices at
    natural positions are the slices of lists. *)
Lemma np_add_exact numpy d c :
  0 <= d -> d + Z.of_N c < wrap_limit numpy -> np_add numpy d c = Return (d + Z.of_N c).
Proof.
  intros Hd Hc. destruct numpy; unfold np_add, wrap_limit in *.
  - change (2 ^ 63) with 9223372036854775808 in *.
    change (2 ^ 64) with 18446744073709551616.
    rewrite Z.mod_small by lia. f_equal. lia.
  - change (2 ^ 32) with 4294967296 in *.
    assert ((0 <=? d) = true) as -> by (apply Z.leb_le; lia).
    assert ((d <? 4294967296) = true) as -> by (apply Z.ltb_lt; lia).
    simpl. by rewrite Z.mod_small by lia.
Qed.

(** A [uint32] sum is a [uint32], and does not exceed the exact sum. *)
Lemma np_add_weak d c :
  0 <= d < 2 ^ 32 ->
  exists stop, np_add weak_promotion d c = Return stop /\
    0 <= stop < 2 ^ 32 /\ stop <= d + Z.of_N c.
Proof.
  intros Hd. unfold np_add. change (2 ^ 32) with 4294967296 in *.
  assert ((0 <=? d) = true) as -> by (apply Z.leb_le; lia).
  assert ((d <? 4294967296) = true) as -> by (apply Z.ltb_lt; lia).
  simpl. eexists. split; [done|].
  pose proof (Z.mod_pos_bound (d + Z.of_N c) 4294967296 ltac:(lia)).
  pose proof (Z.mod_le (d + Z.of_N c) 4294967296 ltac:(lia) ltac:(lia)).
  lia.
Qed.

Lemma np_add_Return_weak d c stop :
  np_add weak_promotion d c = Return stop -> 0 <= stop < 2 ^ 32.
Proof.
  unfold np_add. destruct ((0 <=? d) && (d <? 2 ^ 32)); [|done].
  intros [= <-]. by apply Z.mod_pos_bound.
Qed.

(** Only the weak promotion refuses a sum: when the Python [int] is no
    [uint32]. *)
Lemma np_add_Raise numpy d c e :
  np_add numpy d c = Raise e ->
  numpy = weak_promotion /\
  e = OverflowError (Msg "Python integer %d out of bounds for uint32" [ArgInt d]) /\
  ~ (0 <= d < 2 ^ 32).
Proof.
  destruct numpy; unfold np_add; [done|].
  destruct (0 <=? d) eqn:H0; simpl.
  - destruct (d <? 2 ^ 32) eqn:H1; [done|]. intros [= <-].
    apply Z.ltb_ge in H1. split_and!; [done|done|lia].
  - intros [= <-]. apply Z.leb_gt in H0. split_and!; [done|done|lia].
Qed.

(** A slice is no longer than its bounds are apart. *)
Lemma np_slice_int_length {A} (buf : list A) start stop (c : nat) :
  0 <= start -> 0 <= stop -> stop <= start + Z.of_nat c ->
  (length (np_slice_int buf start stop) <= c)%nat.
Proof.
  intros H0 H1 H. unfold np_slice_int, np_slice, slice_bound.
  rewrite length_take, length_drop.
  destruct (Z.ltb_spec start 0), (Z.ltb_spec stop 0); lia.
Qed.

Lemma slice_bound_nat len (i : nat) : slice_bound len (Z.of_nat i) = Nat.min i len.
Proof.
  unfold slice_bound.
  assert ((Z.of_nat i <? 0) = false) as -> by (apply Z.ltb_ge; lia). lia.
Qed.

Lemma np_slice_clip {A} (buf : list A) a b :
  np_slice buf (Nat.min a (length buf)) (Nat.min b (length buf)) = np_slice buf a b.
Proof.
  unfold np_slice. destruct (decide (a < length buf)%nat) as [Ha|Ha].
  - rewrite (Nat.min_l a) by lia.
    destruct (decide (b <= length buf)%nat) as [Hb|Hb].
    + by rewrite (Nat.min_l b) by lia.
    + rewrite (Nat.min_r b) by lia.
      rewrite !take_ge; [done|rewrite length_drop; lia|rewrite length_drop; lia].
  - rewrite (Nat.min_r a) by lia. by rewrite !drop_ge, !take_nil by lia.
Qed.

Lemma np_slice_int_nat {A} (buf : list A) (a b : nat) :
  np_slice_int buf (Z.of_nat a) (Z.of_nat b) = np_slice buf a b.
Proof. unfold np_slice_int. rewrite !slice_bound_nat. apply np_slice_clip. Qed.

(** One iteration of the decoding loop whose two sums are exact. *)
Lemma decode_scans_step numpy buf k n (d : nat) c :
  buf !! k = Some c ->
  Z.of_nat (d + N.to_nat c + N.to_nat c) < wrap_limit numpy ->
  decode_scans numpy buf k (S n) (Z.of_nat d) =
  match decode_scans numpy buf (S k) n (Z.of_nat (d + N.to_nat c + N.to_nat c)) with
  | Return result =>
      Return ((np_slice buf d (d + N.to_nat c),
               np_slice buf (d + N.to_nat c) (d + N.to_nat c + N.to_nat c)) :: result)
  | Raise e => Raise e
  end.
Proof.
  intros Hk Hb. simpl. rewrite Hk.
  rewrite (np_add_exact numpy (Z.of_nat d) c) by lia.
  rewrite (np_add_exact numpy (Z.of_nat d + Z.of_N c) c) by lia.
  replace (Z.of_nat d + Z.of_N c) with (Z.of_nat (d + N.to_nat c)) by lia.
  replace (Z.of_nat (d + N.to_nat c) + Z.of_N c)
    with (Z.of_nat (d + N.to_nat c + N.to_nat c)) by lia.
  by rewrite !np_slice_int_nat.
Qed.

Lemma decode_scans_layout numpy buf : forall n k d,
  (k + n <= length buf)%nat ->
  Z.of_nat (d + 2 * sum_list (map N.to_nat (take n (drop k buf)))) < wrap_limit numpy ->
  exists result, decode_scans numpy buf k n (Z.of_nat d) = Return result /\
    length result = n /\
    forall i c, (i < n)%nat -> buf !! (k + i)%nat = Some c ->
      let o := (d + 2 * sum_list (map N.to_nat (take i (drop k buf))))%nat in
      result !! i = Some (np_slice buf o (o + N.to_nat c),
                          np_slice buf (o + N.to_nat c) (o + N.to_nat c + N.to_nat c)).
Proof.
  induction n as [|n IH]; intros k d Hk Hb.
  { exists []. split_and!; [done|done|]. intros; lia. }
  destruct (lookup_lt_is_Some_2 buf k ltac:(lia)) as [c0 Hc0].
  rewrite (drop_S buf c0 k Hc0) in Hb. simpl in Hb.
  rewrite (decode_scans_step numpy buf k n d c0 Hc0) by lia.
  destruct (IH (S k) (d + N.to_nat c0 + N.to_nat c0)%nat ltac:(lia) ltac:(lia))
    as (rest & -> & Hlen & Hrest).
  eexists. split_and!; [done|simpl; lia|].
  intros i c Hi Hc. destruct i as [|i].
  - rewrite Nat.add_0_r in Hc. rewrite Hc0 in Hc. injection Hc as <-.
    simpl. by rewrite !Nat.add_0_r.
  - replace (k + S i)%nat with (S k + i)%nat in Hc by lia.
    specialize (Hrest i c ltac:(lia) Hc). cbv zeta in Hrest |- *.
    assert (sum_list (map N.to_nat (take (S i) (drop k buf)))
            = (N.to_nat c0 + sum_list (map N.to_nat (take i (drop (S k) buf))))%nat) as ->.
    { by rewrite (drop_S buf c0 k Hc0). }
    change (rest !! i = Some
      (np_slice buf (d + 2 * (N.to_nat c0 + sum_list (map N.to_nat (take i (drop (S k) buf)))))
         (d + 2 * (N.to_nat c0 + sum_list (map N.to_nat (take i (drop (S k) buf)))) + N.to_nat c),
       np_slice buf
         (d + 2 * (N.to_nat c0 + sum_list (map N.to_nat (take i (drop (S k) buf)))) + N.to_nat c)
         (d + 2 * (N.to_nat c0 + sum_list (map N.to_nat (take i (drop (S k) buf)))) + N.to_nat c
          + N.to_nat c))).
    rewrite Hrest. do 2 f_equal; f_equal; lia.
Qed.

(** The read position at the start: the number of scans of the range. *)
Lemma decode_scans_start numpy buf (x : Z) :
  decode_scans numpy buf 0 (Z.to_nat x) x
  = decode_scans numpy buf 0 (Z.to_nat x) (Z.of_nat (Z.to_nat x)).
Proof.
  destruct (Z.le_gt_cases 0 x) as [Hx|Hx].
  - by rewrite Z2Nat.id.
  - by replace (Z.to_nat x) with 0%nat by lia.
Qed.

Section ReadScans.
Context {F : Type} (numpy : promotion) (dll : timsdata F).
Implicit Types self : TIMSData F.

Lemma read_scans_of_buffer fuel frame_id scan_begin scan_end self buf self' :
  read_scans_buffer dll fuel frame_id scan_begin scan_end self = Some (Return buf, self') ->
  read_scans numpy dll fuel frame_id scan_begin scan_end self =
  Some (decode_scans numpy buf 0 (Z.to_nat (scan_end - scan_begin))
          (Z.of_nat (Z.to_nat (scan_end - scan_begin))), self').
Proof. intros H. unfold read_scans. by rewrite H, decode_scans_start. Qed.

Lemma decode_scans_fits buf n :
  layout_fits buf n ->
  Z.of_nat (n + 2 * sum_list (peak_counts buf n)) < wrap_limit numpy ->
  exists result, decode_scans numpy buf 0 n (Z.of_nat n) = Return result /\
    length result = n /\
    forall i, (i < n)%nat -> exists c, buf !! i = Some c /\
      let o := payload_offset buf n i in
      let len := N.to_nat c in
      result !! i = Some (take len (drop o buf), take len (drop (o + len) buf)) /\
      (o + 2 * len <= length buf)%nat.
Proof.
  intros Hfit Hsmall. unfold layout_fits in Hfit.
  assert (n <= length buf)%nat as Hn by lia.
  destruct (decode_scans_layout numpy buf n 0 n ltac:(lia)) as (result & Hdec & Hlen & Hres).
  { by rewrite drop_0. }
  exists result. split_and!; [done|done|].
  intros i Hi. destruct (lookup_lt_is_Some_2 buf i ltac:(lia)) as [c Hc].
  exists c. split; [done|]. cbv zeta.
  specialize (Hres i c Hi Hc). cbv zeta in Hres. rewrite drop_0 in Hres.
  assert (take i (peak_counts buf n) = map N.to_nat (take i buf)) as Htake.
  { unfold peak_counts. rewrite <- fmap_take, take_take. f_equal. f_equal. lia. }
  assert (peak_counts buf n !! i = Some (N.to_nat c)) as Hci.
  { unfold peak_counts. rewrite list_lookup_fmap, lookup_take_lt by lia. by rewrite Hc. }
  pose proof (sum_list_take_lookup _ _ _ Hci) as Hsum.
  unfold payload_offset. rewrite Htake in *.
  set (o := (n + 2 * sum_list (map N.to_nat (take i buf)))%nat) in *.
  assert (o + 2 * N.to_nat c <= length buf)%nat as Hbound by lia.
  split; [|done]. rewrite Hres. f_equal. f_equal.
  - by apply np_slice_length; lia.
  - replace (o + N.to_nat c + N.to_nat c)%nat with ((o + N.to_nat c) + N.to_nat c)%nat by lia.
    apply np_slice_length. lia.
Qed.

(** A layout within a buffer shorter than the limit of the promotion
    rule. *)
Lemma layout_small buf n :
  layout_fits buf n -> Z.of_nat (length buf) < wrap_limit numpy ->
  Z.of_nat (n + 2 * sum_list (peak_counts buf n)) < wrap_limit numpy.
Proof. unfold layout_fits. lia. Qed.

Lemma read_scans_layout_pairs fuel frame_id scan_begin scan_end self buf self' :
  read_scans_buffer dll fuel frame_id scan_begin scan_end self = Some (Return buf, self') ->
  layout_fits buf (Z.to_nat (scan_end - scan_begin)) ->
  Z.of_nat (length buf) < wrap_limit numpy ->
  exists result,
    read_scans numpy dll fuel frame_id scan_begin scan_end self = Some (Return result, self') /\
    Forall (fun scan : list N * list N => length scan.1 = length scan.2) result.
Proof.
  intros Hbuf Hfit Hsmall.
  destruct (decode_scans_fits buf _ Hfit (layout_small _ _ Hfit Hsmall))
    as (result & Hdec & Hlen & Hres).
  exists result. rewrite (read_scans_of_buffer _ _ _ _ _ _ _ Hbuf), Hdec.
  split; [done|]. apply Forall_lookup. intros i scan Hi.
  destruct (Hres i) as (c & Hc & Hr & Hbound).
  { rewrite <- Hlen. by eapply lookup_lt_Some. }
  cbv zeta in Hr. rewrite Hr in Hi. injection Hi as <-. simpl.
  rewrite !length_take, !length_drop. lia.
Qed.

(** Claim C2.  Once the buffer-growing loop has ended with a buffer
    whose packed layout lies within it, and whose length is below the
    limit of numpy's promotion rule, so that the read positions are
    exact, [read_scans] returns one pair per mobility scan of the range,
    in scan order: pair [i] is made of the
    [c] words at the payload offset of scan [i] and of the [c] words that
    follow them, [c] being word [i] of the buffer, taken as they are. *)
Theorem read_scans_layout fuel frame_id scan_begin scan_end self buf self' :
  scan_begin < scan_end ->
  read_scans_buffer dll fuel frame_id scan_begin scan_end self = Some (Return buf, self') ->
  let n := Z.to_nat (scan_end - scan_begin) in
  layout_fits buf n ->
  Z.of_nat (length buf) < wrap_limit numpy ->
  exists result,
    read_scans numpy dll fuel frame_id scan_begin scan_end self = Some (Return result, self') /\
    Z.of_nat (length result) = scan_end - scan_begin /\
    forall i, (i < n)%nat -> exists c indices intensities,
      buf !! i = Some c /\
      result !! i = Some (indices, intensities) /\
      length indices = N.to_nat c /\ length intensities = N.to_nat c /\
      indices = take (N.to_nat c) (drop (payload_offset buf n i) buf) /\
      intensities = take (N.to_nat c) (drop (payload_offset buf n i + N.to_nat c) buf).
Proof.
  intros Hlt Hbuf n Hfit Hsmall.
  destruct (decode_scans_fits buf n Hfit (layout_small _ _ Hfit Hsmall))
    as (result & Hdec & Hlen & Hres).
  exists result. rewrite (read_scans_of_buffer _ _ _ _ _ _ _ Hbuf). fold n. rewrite Hdec.
  split_and!; [done|lia|].
  intros i Hi. destruct (Hres i Hi) as (c & Hc & Hr & Hbound).
  eexists c, _, _. split_and!; [done|exact Hr| | |done|done].
  - rewrite length_take, length_drop. lia.
  - rewrite length_take, length_drop. lia.
Qed.

End ReadScans.

(** ** Reading a spectrum *)

Section ReadSpectrum.
Context {F : Type} (numpy : promotion) (dll : timsdata F) (float_of_uint32 : N -> F).
Implicit Types self : TIMSData F.

Lemma fold_accumulate_scan scans : forall allind allint,
  fold_left (accumulate_scan float_of_uint32) scans (allind, allint) =
  (allind ++ map float_of_uint32 (concat (map fst (non_empty_scans scans))),
   allint ++ map float_of_uint32 (concat (map snd (non_empty_scans scans)))).
Proof.
  induction scans as [|[indices intens] scans IH]; intros allind allint; simpl.
  { by rewrite !app_nil_r. }
  destruct (0 <? length indices)%nat; simpl.
  - rewrite IH, !fmap_app, !(assoc_L (++)). done.
  - apply IH.
Qed.

Lemma non_empty_scans_lengths scans :
  Forall (fun scan : list N * list N => length scan.1 = length scan.2) scans ->
  length (concat (map fst (non_empty_scans scans))) =
  length (concat (map snd (non_empty_scans scans))).
Proof.
  induction 1 as [|[indices intens] scans Hx _ IH]; simpl; [done|].
  destruct (0 <? length indices)%nat; simpl; [|done].
  rewrite !length_app. simpl in Hx. lia.
Qed.

Lemma index_to_mz_run frame_id input self success out :
  tims_convert dll tims_index_to_mz (handle self) (c_int64 frame_id) input = (success, out) ->
  success <> 0 ->
  index_to_mz dll frame_id input self =
  (Return (map out (seq 0 (length input))),
   Build_TIMSData (handle self) (initial_frame_buffer_size self) (_frame_cache self)
     (_scan_merging_parameters self)
     (log self ++ [call_conversion tims_index_to_mz frame_id input])).
Proof.
  intros Hconv Hok. unfold index_to_mz, _convert_callback. rewrite Hconv.
  unfold mbind, M_MBind, M_bind, mret, M_MRet, M_ret. simpl.
  by rewrite (proj2 (Z.eqb_neq _ _) Hok).
Qed.

(** Claim C6.  On a buffer whose packed layout lies within it, and whose
    length is below the limit of numpy's promotion rule, so that the read
    positions are exact, [read_spectrum] concatenates the indices and
    the intensities of the non-empty decoded scans, in scan order,
    converts the whole sequence of indices in one call to the library,
    the only conversion call it makes, and returns the converted sequence
    with the concatenated intensities, both of one length and in
    concatenation order. *)
Theorem read_spectrum_batched fuel frame_id scan_begin scan_end self buf self1 scans
    success out :
  scan_begin < scan_end ->
  read_scans_buffer dll fuel frame_id scan_begin scan_end self = Some (Return buf, self1) ->
  layout_fits buf (Z.to_nat (scan_end - scan_begin)) ->
  Z.of_nat (length buf) < wrap_limit numpy ->
  read_scans numpy dll fuel frame_id scan_begin scan_end self = Some (Return scans, self1) ->
  let allind := map float_of_uint32 (concat (map fst (non_empty_scans scans))) in
  let allint := map float_of_uint32 (concat (map snd (non_empty_scans scans))) in
  tims_convert dll tims_index_to_mz (handle self1) (c_int64 frame_id) allind = (success, out) ->
  success <> 0 ->
  exists allmz self2,
    read_spectrum numpy dll float_of_uint32 fuel frame_id scan_begin scan_end self
    = Some (Return (allmz, allint), self2) /\
    allmz = map out (seq 0 (length allind)) /\
    length allmz = length allint /\
    conversion_calls (new_events self self2)
    = [call_conversion tims_index_to_mz frame_id allind].
Proof.
  intros Hlt Hbuf Hfit Hsmall Hscans allind allint Hconv Hok.
  eexists _, _. unfold read_spectrum. rewrite Hscans.
  rewrite fold_accumulate_scan. simpl. fold allind allint.
  unfold mbind, M_MBind, M_bind, mret, M_MRet, M_ret.
  rewrite (index_to_mz_run _ _ _ _ _ Hconv Hok).
  split; [done|]. split; [done|].
  assert (Forall (fun scan : list N * list N => length scan.1 = length scan.2) scans) as Hpairs.
  { destruct (read_scans_layout_pairs numpy dll fuel frame_id scan_begin scan_end self buf self1
                Hbuf Hfit Hsmall)
      as (result & Hres & Hall).
    rewrite Hscans in Hres. by injection Hres as <-. }
  split.
  - rewrite length_map, length_seq. unfold allind, allint. rewrite !length_map.
    by apply non_empty_scans_lengths.
  - apply read_scans_buffer_allocations in Hbuf as (new & Hlog & _ & _ & Hnone).
    rewrite (new_events_app _ _ (new ++ [call_conversion tims_index_to_mz frame_id allind])).
    + unfold conversion_calls in *. by rewrite List.filter_app, Hnone.
    + simpl. by rewrite Hlog, <- (assoc_L (++)).
Qed.

End ReadSpectrum.

(** ** Assembling scan arrays *)

Lemma mapM_cons_Some {A B} (f : A -> option B) x l k :
  mapM f (x :: l) = Some k <->
  exists y k', f x = Some y /\ mapM f l = Some k' /\ k = y :: k'.
Proof.
  rewrite mapM_Some. split.
  - intros H. inversion H as [|? y ? k' Hy Hk]; subst. exists y, k'.
    by rewrite mapM_Some.
  - intros (y & k' & Hy & Hk & ->). constructor; [done|]. by apply mapM_Some.
Qed.

Lemma mapM_Permutation {A B} (f : A -> option B) l1 l2 :
  Permutation l1 l2 -> forall k1, mapM f l1 = Some k1 ->
  exists k2, mapM f l2 = Some k2 /\ Permutation k1 k2.
Proof.
  induction 1 as [|x l1 l2 _ IH|x y l|l1 l2 l3 _ IH1 _ IH2]; intros k1 Hk1.
  - exists k1. by split.
  - apply mapM_cons_Some in Hk1 as (y & k' & Hy & Hk & ->).
    destruct (IH _ Hk) as (k2 & Hk2 & Hp). exists (y :: k2).
    split; [|by constructor]. apply mapM_cons_Some. by exists y, k2.
  - apply mapM_cons_Some in Hk1 as (b & k' & Hb & Hk & ->).
    apply mapM_cons_Some in Hk as (a & k'' & Ha & Hk & ->).
    exists (a :: b :: k''). split; [|by constructor].
    apply mapM_cons_Some. exists a, (b :: k''). split_and!; [done| |done].
    apply mapM_cons_Some. by exists b, k''.
  - destruct (IH1 _ Hk1) as (k2 & Hk2 & Hp2).
    destruct (IH2 _ Hk2) as (k3 & Hk3 & Hp3).
    exists k3. split; [done|by etrans].
Qed.

Lemma np_take_all {A} (a : list A) : np_take a (seq 0 (length a)) = Some a.
Proof.
  unfold np_take. apply mapM_Some. apply Forall2_same_length_lookup_2.
  - by rewrite length_seq.
  - intros i x y Hx Hy. apply lookup_seq in Hx as [-> _]. done.
Qed.

Lemma np_take_zip {A B} (a : list A) (b : list B) mask : forall ka kb,
  np_take a mask = Some ka -> np_take b mask = Some kb ->
  np_take (zip a b) mask = Some (zip ka kb).
Proof.
  unfold np_take. induction mask as [|i mask IH]; intros ka kb Ha Hb.
  - injection Ha as <-. injection Hb as <-. done.
  - apply mapM_cons_Some in Ha as (x & ka' & Hx & Ha & ->).
    apply mapM_cons_Some in Hb as (y & kb' & Hy & Hb & ->).
    apply mapM_cons_Some. exists (x, y), (zip ka' kb'). split_and!; [|by apply IH|done].
    apply lookup_zip_with_Some. by exists x, y.
Qed.

Lemma np_take_permutation {A} (a : list A) mask :
  Permutation mask (seq 0 (length a)) ->
  exists taken, np_take a mask = Some taken /\ Permutation taken a.
Proof.
  intros Hp. symmetry in Hp.
  destruct (mapM_Permutation (fun i => a !! i) _ _ Hp a (np_take_all a)) as (k & Hk & Hpk).
  exists k. by split.
Qed.

Lemma np_take_lookup {A} (a : list A) mask taken :
  np_take a mask = Some taken ->
  length taken = length mask /\
  forall i m, mask !! i = Some m -> taken !! i = a !! m.
Proof.
  unfold np_take. intros H%mapM_Some. split.
  - symmetry. by eapply Forall2_length.
  - intros i m Hm. destruct (Forall2_lookup_l _ _ _ _ _ H Hm) as (x & Hx & Hax).
    by rewrite Hx, Hax.
Qed.

Lemma StronglySorted_lookup_iff {A} (R : relation A) (l : list A) :
  StronglySorted R l <->
  forall i j x y, (i < j)%nat -> l !! i = Some x -> l !! j = Some y -> R x y.
Proof.
  induction l as [|a l IH].
  - split; [intros _ i j x y _ Hx; by destruct i|constructor].
  - rewrite StronglySorted_cons, IH, Forall_lookup. split.
    + intros [Ha Hl] i j x y Hij Hx Hy. destruct i as [|i], j as [|j]; try lia.
      * injection Hx as <-. by eapply Ha.
      * apply (Hl i j); [lia|done|done].
    + intros H. split.
      * intros i x Hx. by apply (H 0%nat (S i) a x); [lia| |].
      * intros i j x y Hij Hx Hy. apply (H (S i) (S j)); [lia|done|done].
Qed.

Section ScanArrays.
Context {F : Type} (numpy : promotion) (dll : timsdata F) (float_of_uint32 : N -> F).
Implicit Types self : TIMSData F.

Lemma read_scans_buffer_parameters fuel : forall frame_id scan_begin scan_end self o self',
  read_scans_buffer dll fuel frame_id scan_begin scan_end self = Some (o, self') ->
  _scan_merging_parameters self' = _scan_merging_parameters self.
Proof.
  induction fuel as [|fuel IH]; intros frame_id scan_begin scan_end self o self' Hr; [done|].
  destruct (Z.lt_ge_cases (attempt_size self) 0) as [Hneg|Hpos].
  { rewrite read_scans_buffer_negative in Hr by done. by injection Hr as <- <-. }
  rewrite read_scans_buffer_step in Hr by done.
  destruct (service_reply dll frame_id scan_begin scan_end self) as [required_len words].
  cbv zeta in Hr.
  destruct (required_len =? 0).
  { rewrite throw_tims_error_run in Hr. by injection Hr as <- <-. }
  destruct (required_len >? 4 * attempt_size self); [|by injection Hr as <- <-].
  destruct (required_len >? 16777216); [by injection Hr as <- <-|].
  by apply IH in Hr.
Qed.

Lemma index_to_mz_parameters frame_id input self o self' :
  index_to_mz dll frame_id input self = (o, self') ->
  _scan_merging_parameters self' = _scan_merging_parameters self.
Proof.
  unfold index_to_mz, _convert_callback.
  destruct (tims_convert _ _ _ _ _) as [success out].
  unfold throw_tims_error, mbind, M_MBind, M_bind, mret, M_MRet, M_ret, raise. simpl.
  destruct (success =? 0); by intros [= <- <-].
Qed.

Lemma read_spectrum_parameters fuel frame_id scan_begin scan_end self o self' :
  read_spectrum numpy dll float_of_uint32 fuel frame_id scan_begin scan_end self = Some (o, self') ->
  _scan_merging_parameters self' = _scan_merging_parameters self.
Proof.
  unfold read_spectrum, read_scans.
  destruct (read_scans_buffer dll fuel frame_id scan_begin scan_end self)
    as [[[buf|e] self1]|] eqn:Hbuf; [| |done].
  - apply read_scans_buffer_parameters in Hbuf as <-.
    destruct (decode_scans _ _ _ _ _) as [scans|e]; [|by intros [= <- <-]].
    destruct (fold_left _ _ _) as [allind allint].
    unfold mbind, M_MBind, M_bind.
    destruct (index_to_mz dll frame_id allind self1) as [[allmz|e] self2] eqn:Hconv;
      apply index_to_mz_parameters in Hconv as <-; by intros [= <- <-].
  - apply read_scans_buffer_parameters in Hbuf as <-. by intros [= <- <-].
Qed.

Context (argsort : list F -> list nat) {PeakSet : Type}.
Context (pick_peaks : list F -> list F -> PeakSet).
Context (reprofile : PeakSet -> F -> F -> list F * list F).

(** Claim C7.  [_scan_arrays] branches on [is_combined], which holds
    exactly when an end of range is set and is more than one scan after
    the start.  A reference that is not combined gets the converted
    spectrum as read.  For a combined one the spectrum is reordered by the
    mask of [argsort]: place [i] of the sorted m/z values and of the
    sorted intensities holds what the spectrum has at place [mask[i]], so
    that the m/z values ascend and each intensity stays with its m/z; the
    sorted arrays are centroided by [pick_peaks] and reprofiled with the
    reader's [dx] and [fwhm]. *)
Theorem scan_arrays_by_combination (le : F -> F -> Prop) fuel
    (scan : TIMSSpectrumDataBase.t F) self mzs intensities self1 :
  read_spectrum numpy dll float_of_uint32 fuel
    (TIMSFrame.id (TIMSSpectrumDataBase.frame scan))
    (TIMSSpectrumDataBase.start_scan scan) (TIMSSpectrumDataBase.end_scan scan) self
  = Some (Return (mzs, intensities), self1) ->
  length mzs = length intensities ->
  argsort_result le mzs (argsort mzs) ->
  (TIMSSpectrumDataBase.is_combined scan = true <->
     exists e, TIMSSpectrumDataBase._end_scan scan = Some e /\
               e - TIMSSpectrumDataBase.start_scan scan > 1) /\
  if TIMSSpectrumDataBase.is_combined scan then
    exists sorted_mzs sorted_intensities,
      length sorted_mzs = length mzs /\
      length sorted_intensities = length intensities /\
      (forall i, (i < length mzs)%nat -> exists m,
         argsort mzs !! i = Some m /\ (m < length mzs)%nat /\
         sorted_mzs !! i = mzs !! m /\
         sorted_intensities !! i = intensities !! m) /\
      StronglySorted le sorted_mzs /\
      Sorted le sorted_mzs /\
      Permutation (zip sorted_mzs sorted_intensities) (zip mzs intensities) /\
      _scan_arrays numpy dll float_of_uint32 argsort pick_peaks reprofile fuel scan self
      = Some (Return (reprofile (pick_peaks sorted_mzs sorted_intensities)
                        (dx (_scan_merging_parameters self))
                        (fwhm (_scan_merging_parameters self))), self1)
  else
    _scan_arrays numpy dll float_of_uint32 argsort pick_peaks reprofile fuel scan self
    = Some (Return (mzs, intensities), self1).
Proof.
  intros Hread Hlen [Hperm Hasc].
  split; [apply is_combined_spec|].
  unfold _scan_arrays. rewrite Hread.
  destruct (TIMSSpectrumDataBase.is_combined scan); [|done].
  assert (length (argsort mzs) = length mzs) as Hmask.
  { by rewrite (Permutation_length Hperm), length_seq. }
  destruct (np_take_permutation mzs _ Hperm) as (sorted_mzs & Hm & Hpm).
  pose proof Hperm as Hperm'. rewrite Hlen in Hperm'.
  destruct (np_take_permutation intensities _ Hperm') as (sorted_intensities & Hi & Hpi).
  exists sorted_mzs, sorted_intensities. rewrite Hm, Hi.
  rewrite (read_spectrum_parameters _ _ _ _ _ _ _ Hread).
  destruct (np_take_lookup _ _ _ Hm) as [Hlm Hatm].
  destruct (np_take_lookup _ _ _ Hi) as [Hli Hati].
  assert (StronglySorted le sorted_mzs) as Hsorted.
  { apply StronglySorted_lookup_iff. intros i j x y Hij Hx Hy.
    destruct (lookup_lt_is_Some_2 (argsort mzs) i) as [mi Hmi].
    { rewrite <- Hlm. by eapply lookup_lt_Some. }
    destruct (lookup_lt_is_Some_2 (argsort mzs) j) as [mj Hmj].
    { rewrite <- Hlm. by eapply lookup_lt_Some. }
    apply (Hasc i j mi mj x y Hij Hmi Hmj).
    - by rewrite <- (Hatm i mi Hmi).
    - by rewrite <- (Hatm j mj Hmj). }
  split_and!; [lia|lia| |done|by apply StronglySorted_Sorted| |done].
  - intros i Hi'.
    destruct (lookup_lt_is_Some_2 (argsort mzs) i ltac:(lia)) as [m Hmi].
    exists m. split_and!; [done| |by apply Hatm|by apply Hati].
    assert (m ∈ seq 0 (length mzs)) as Hin.
    { rewrite <- Hperm. by eapply list_elem_of_lookup_2. }
    apply elem_of_seq in Hin. lia.
  - pose proof (np_take_zip _ _ _ _ _ Hm Hi) as Hz.
    assert (Permutation (argsort mzs) (seq 0 (length (zip mzs intensities)))) as Hpz.
    { rewrite length_zip_with. rewrite Hlen, Nat.min_id. done. }
    destruct (np_take_permutation (zip mzs intensities) _ Hpz) as (taken & Ht & Hpt).
    rewrite Hz in Ht. by injection Ht as <-.
Qed.

End ScanArrays.

(** ** Identifier round trips *)

Section RoundTrip.
Context {F : Type} (unicode : unicode_database) (conn : connection F).

Lemma single_id_round_trip (ref : TIMSSpectrumDataBase.t F) self frame self' :
  TIMSSpectrumDataBase._end_scan ref = None ->
  0 <= TIMSFrame.id (TIMSSpectrumDataBase.frame ref) ->
  0 <= TIMSSpectrumDataBase.start_scan ref ->
  get_frame_by_id conn (TIMSFrame.id (TIMSSpectrumDataBase.frame ref)) self
  = (Return frame, self') ->
  exists scan,
    get_scan_by_id unicode conn (TIMSSpectrumDataBase.make_id_string ref) self = (Return scan, self') /\
    scan_data scan = TIMSSpectrumDataBase.make frame (TIMSSpectrumDataBase.start_scan ref) None.
Proof.
  intros Hend Hid Hstart Hframe.
  unfold TIMSSpectrumDataBase.make_id_string, get_scan_by_id. rewrite Hend.
  rewrite single_parser_format by lia. cbv beta iota zeta.
  rewrite !int_format_d by lia.
  unfold mbind, M_MBind, M_bind. rewrite Hframe.
  replace (TIMSSpectrumDataBase.start_scan ref + 1 - 1)
    with (TIMSSpectrumDataBase.start_scan ref) by lia.
  destruct (TIMSFrame.msms_type frame =? 8).
  - unfold lift, _locate_pasef_precursor_for. simpl. by eexists.
  - by eexists.
Qed.

(** A merged reference does not come back: the end of the range is one
    more than the one formatted. *)
Lemma multi_id_round_trip (ref : TIMSSpectrumDataBase.t F) self frame self' e :
  TIMSSpectrumDataBase._end_scan ref = Some e ->
  0 <= TIMSFrame.id (TIMSSpectrumDataBase.frame ref) ->
  0 <= TIMSSpectrumDataBase.start_scan ref -> 0 <= e ->
  get_frame_by_id conn (TIMSFrame.id (TIMSSpectrumDataBase.frame ref)) self
  = (Return frame, self') ->
  TIMSFrame.msms_type frame <> 8 ->
  get_scan_by_id unicode conn (TIMSSpectrumDataBase.make_id_string ref) self
  = (Return (ScanOfBase (TIMSSpectrumDataBase.make frame
                           (TIMSSpectrumDataBase.start_scan ref) (Some (e + 1)))), self').
Proof.
  intros Hend Hid Hstart He Hframe Htype.
  unfold TIMSSpectrumDataBase.make_id_string, TIMSSpectrumDataBase.end_scan, get_scan_by_id.
  rewrite Hend.
  rewrite single_parser_rejects_multi by lia.
  rewrite multi_parser_format by lia. cbv beta iota zeta.
  rewrite !int_format_d by lia.
  unfold mbind, M_MBind, M_bind. rewrite Hframe.
  replace (TIMSSpectrumDataBase.start_scan ref + 1 - 1)
    with (TIMSSpectrumDataBase.start_scan ref) by lia.
  by rewrite (proj2 (Z.eqb_neq _ _) Htype).
Qed.

End RoundTrip.

(** Claim C1, on frame 7, whatever the Unicode database.  The single-scan reference to scan 2 is
    formatted as [frame=7 scan=3] and [get_scan_by_id] gives it back.
    The merged reference to the scans [2, 4) is formatted as
    [frame=7 startScan=3 endScan=5], and [get_scan_by_id] on that text
    builds a reference whose range ends at 5, not at 4: it takes 1 off
    the start of the range and nothing off its end. *)
Theorem merged_id_does_not_round_trip (unicode : unicode_database) :
  let single := TIMSSpectrumDataBase.make Example.frame7 2 None in
  let merged := TIMSSpectrumDataBase.make Example.frame7 2 (Some 4) in
  TIMSSpectrumDataBase.make_id_string single = text "frame=7 scan=3" /\
  (get_scan_by_id unicode Example.conn (text "frame=7 scan=3") Example.reader).1
  = Return (ScanOfBase single) /\
  TIMSSpectrumDataBase.make_id_string merged = text "frame=7 startScan=3 endScan=5" /\
  (get_scan_by_id unicode Example.conn (text "frame=7 startScan=3 endScan=5") Example.reader).1
  = Return (ScanOfBase (TIMSSpectrumDataBase.make Example.frame7 2 (Some 5))) /\
  (get_scan_by_id unicode Example.conn (text "frame=7 startScan=3 endScan=5") Example.reader).1
  <> Return (ScanOfBase merged).
Proof.
  assert (get_frame_by_id Example.conn 7 Example.reader
          = (Return Example.frame7, (get_frame_by_id Example.conn 7 Example.reader).2)) as Hf.
  { by rewrite (get_frame_by_id_miss Example.conn 7 Example.reader (Example.frames_row 7 0)). }
  intros single merged. split_and!.
  - done.
  - destruct (single_id_round_trip unicode Example.conn single Example.reader _ _
                eq_refl ltac:(done) ltac:(done) Hf) as (scan & Hrun & Hdata).
    change (TIMSSpectrumDataBase.make_id_string single) with (text "frame=7 scan=3") in Hrun.
    rewrite Hrun. simpl. f_equal.
    unfold get_scan_by_id in Hrun.
    change (single_scan_id_parser unicode (text "frame=7 scan=3"))
      with (Some (text "7", text "3")) in Hrun.
    cbv beta iota zeta in Hrun. unfold mbind, M_MBind, M_bind in Hrun.
    change (int unicode (text "7")) with 7 in Hrun. rewrite Hf in Hrun.
    simpl in Hrun. by injection Hrun as <-.
  - done.
  - pose proof (multi_id_round_trip unicode Example.conn merged Example.reader _ _ 4
                  eq_refl ltac:(done) ltac:(done) ltac:(done) Hf ltac:(done)) as Hrun.
    change (TIMSSpectrumDataBase.make_id_string merged)
      with (text "frame=7 startScan=3 endScan=5") in Hrun.
    by rewrite Hrun.
  - pose proof (multi_id_round_trip unicode Example.conn merged Example.reader _ _ 4
                  eq_refl ltac:(done) ltac:(done) ltac:(done) Hf ltac:(done)) as Hrun.
    change (TIMSSpectrumDataBase.make_id_string merged)
      with (text "frame=7 startScan=3 endScan=5") in Hrun.
    rewrite Hrun. simpl. intros [=].
Qed.

(** ** Bounds and checks on the example acquisition *)

Lemma layout_fits_of_required_len (words : nat -> N) cnt n required_len :
  required_len <= 4 * Z.of_nat cnt ->
  required_len = 4 * Z.of_nat (n + 2 * sum_list (map (fun i => N.to_nat (words i)) (seq 0 n))) ->
  layout_fits (map words (seq 0 cnt)) n.
Proof.
  intros Hle Hreq. unfold layout_fits, peak_counts.
  assert (n <= cnt)%nat as Hn by lia.
  rewrite length_map, length_seq, <- fmap_take, take_seq.
  rewrite Nat.min_l by done.
  change (map N.to_nat (map words (seq 0 n))) with (N.to_nat <$> (words <$> seq 0 n)).
  rewrite <- list_fmap_compose. 
  change (sum_list ((N.to_nat ∘ words) <$> seq 0 n))
    with (sum_list (map (fun i => N.to_nat (words i)) (seq 0 n))).
  lia.
Qed.

Section BufferBounds.
Context {F : Type} (numpy : promotion) (dll : timsdata F).

Lemma estimate_stays_bounded fuel frame_id scan_begin scan_end (self : TIMSData F) o self' :
  attempt_size self <= 4194305 ->
  read_scans_buffer dll fuel frame_id scan_begin scan_end self = Some (o, self') ->
  attempt_size self' <= 4194305 /\
  Forall (is_allocation_within 4194305) (new_events self self').
Proof.
  intros Hb Hr. apply read_scans_buffer_allocations in Hr as (new & Hlog & Hall & Hsize & _).
  split; [lia|]. rewrite (new_events_app _ _ _ Hlog).
  eapply Forall_impl; [exact Hall|]. intros e [->|He]; [simpl; lia|done].
Qed.

Lemma read_scans_ends frame_id scan_begin scan_end (self : TIMSData F) fuel :
  (Z.to_nat (4194305 - attempt_size self) + 1 <= fuel)%nat ->
  is_Some (read_scans numpy dll fuel frame_id scan_begin scan_end self).
Proof.
  intros Hfuel. unfold read_scans.
  destruct (read_scans_buffer_ends dll fuel frame_id scan_begin scan_end self Hfuel)
    as [[[buf|e] self'] ->]; by eexists.
Qed.
End BufferBounds.

(** Claim C2 on the example: three scans from a buffer grown to ten words. *)
Lemma read_scans_layout_witness :
  exists result,
    read_scans weak_promotion Example.dll 2 7 0 3 Example.small_reader
    = Some (Return result, Example.small_reader_read) /\
    Z.of_nat (length result) = 3 - 0.
Proof.
  destruct (read_scans_layout weak_promotion Example.dll 2 7 0 3 Example.small_reader
              Example.small_buffer Example.small_reader_read)
    as (result & Hrun & Hlen & _).
  - reflexivity.
  - reflexivity.
  - unfold layout_fits. vm_compute. lia.
  - reflexivity.
  - exists result. split; assumption.
Defined.

(** Claim C3 on frame 8: the range [0, 3) meets both precursors, the range
    [2, 4) only the second. *)
Lemma locate_combined_scan_witness :
  _locate_pasef_precursor_for (TIMSSpectrumDataBase.make Example.frame8 0 (Some 3))
  = Raise AmbiguousPrecursorMatch /\
  _locate_pasef_precursor_for (TIMSSpectrumDataBase.make Example.frame8 2 (Some 4))
  = Return (Some Example.precursor1).
Proof.
  split.
  - exact (proj2 (locate_combined_scan
                    (TIMSSpectrumDataBase.make Example.frame8 0 (Some 3)) eq_refl)).
  - exact (proj2 (locate_combined_scan
                    (TIMSSpectrumDataBase.make Example.frame8 2 (Some 4)) eq_refl)).
Defined.

(** Claim C4 on frame 8: scan 1 is in the first precursor, scan 2, where
    the first range ends, is not. *)
Lemma locate_single_scan_witness :
  _locate_pasef_precursor_for (TIMSSpectrumDataBase.make Example.frame8 1 None)
  = Return (Some Example.precursor0) /\
  _locate_pasef_precursor_for (TIMSSpectrumDataBase.make Example.frame8 2 None)
  <> Return (Some Example.precursor0).
Proof.
  split.
  - apply (locate_single_scan (TIMSSpectrumDataBase.make Example.frame8 1 None) eq_refl).
    exists [], [Example.precursor1]. split; [reflexivity|]. split; [simpl; lia|].
    intros Q HQ. by apply elem_of_nil in HQ.
  - apply (locate_single_scan (TIMSSpectrumDataBase.make Example.frame8 2 None) eq_refl).
    + apply list_elem_of_here.
    + reflexivity.
Defined.

(** Claim C5 on a frame of 32 MiB: one attempt, then [FrameTooLarge]; and
    on the example frame with a buffer of two words: a second attempt. *)
Lemma buffer_negotiation_witness :
  read_scans_buffer Example.oversized_dll 1 7 0 3 Example.reader
  = Some (Raise FrameTooLarge, after_attempt 7 0 3 Example.reader) /\
  read_scans_buffer Example.dll 2 7 0 3 Example.small_reader
  = read_scans_buffer Example.dll 1 7 0 3
      (with_estimate (Qplus (Qmake 36 4) 1) (after_attempt 7 0 3 Example.small_reader)).
Proof.
  split.
  - apply (buffer_negotiation Example.oversized_dll 0 7 0 3 Example.reader
             33554432 Example.words).
    + vm_compute. discriminate.
    + reflexivity.
    + reflexivity.
    + reflexivity.
  - apply (buffer_negotiation Example.dll 1 7 0 3 Example.small_reader 36 Example.words).
    + vm_compute. discriminate.
    + reflexivity.
    + reflexivity.
    + vm_compute. discriminate.
Defined.

(** Claim C6 on the example: one conversion call on the three indices. *)
Lemma read_spectrum_batched_witness :
  exists allmz self2,
    read_spectrum weak_promotion Example.dll Z.of_N 2 7 0 3 Example.small_reader
    = Some (Return (allmz, [100; 101; 102]), self2) /\
    allmz = [1010; 1011; 1012] /\
    conversion_calls (new_events Example.small_reader self2)
    = [call_conversion tims_index_to_mz 7 [10; 11; 12]].
Proof.
  destruct (read_spectrum_batched weak_promotion Example.dll Z.of_N 2 7 0 3 Example.small_reader
              Example.small_buffer Example.small_reader_read Example.scans7 1
              (fun i => 1000 + nth i [10; 11; 12] 0))
    as (allmz & self2 & Hrun & Hmz & _ & Hcalls).
  - reflexivity.
  - reflexivity.
  - unfold layout_fits. vm_compute. lia.
  - reflexivity.
  - reflexivity.
  - reflexivity.
  - discriminate.
  - exists allmz, self2. split; [exact Hrun|]. split; [exact Hmz|exact Hcalls].
Defined.

(** The merge sort of the example is an [argsort]. *)
Lemma by_value_sorted (l : list (Z * nat)) : StronglySorted Example.by_value (merge_sort Example.by_value l).
Proof.
  apply StronglySorted_merge_sort.
  - intros x y z. unfold Example.by_value. lia.
  - intros x y. unfold Example.by_value. lia.
Qed.

Lemma zip_seq_lookup {A} (a : list A) x m :
  (x, m) ∈ zip a (seq 0 (length a)) -> a !! m = Some x.
Proof.
  intros [k Hk]%list_elem_of_lookup_1.
  apply lookup_zip_with_Some in Hk as (x' & m' & [= <- <-] & Hx & Hm).
  apply lookup_seq in Hm as [-> _]. done.
Qed.

Lemma argsort_sorts (a : list Z) : argsort_result Z.le a (Example.argsort a).
Proof.
  unfold argsort_result, Example.argsort.
  set (pairs := zip a (seq 0 (length a))).
  pose proof (merge_sort_Permutation Example.by_value pairs) as Hperm.
  pose proof (by_value_sorted pairs) as Hsorted.
  split.
  - rewrite Hperm. unfold pairs. rewrite snd_zip; [done|by rewrite length_seq].
  - intros i j mi mj x y Hij Hmi Hmj Hx Hy.
    apply list_lookup_fmap_Some in Hmi as ([xi mi'] & -> & Hpi).
    apply list_lookup_fmap_Some in Hmj as ([xj mj'] & -> & Hpj).
    simpl in Hx, Hy.
    assert (a !! mi' = Some xi) as Hxi.
    { apply zip_seq_lookup. fold pairs. rewrite <- Hperm. by eapply list_elem_of_lookup_2. }
    assert (a !! mj' = Some xj) as Hxj.
    { apply zip_seq_lookup. fold pairs. rewrite <- Hperm. by eapply list_elem_of_lookup_2. }
    rewrite Hxi in Hx. rewrite Hxj in Hy. injection Hx as <-. injection Hy as <-.
    apply (proj1 (StronglySorted_lookup_iff _ _) Hsorted i j (xi, mi') (xj, mj') Hij Hpi Hpj).
Qed.

(** Claim C7 on frame 7 with a descending calibration: the range [0, 3)
    is combined, its spectrum is read with descending m/z values, the mask
    of [argsort] is [2, 1, 0] and the arrays are reversed by it; the range
    [0, 1) is read as the single scan 0. *)
Lemma scan_arrays_by_combination_witness :
  read_spectrum weak_promotion Example.descending_dll Z.of_N 2 7 0 3 Example.small_reader
  = Some (Return Example.descending7, Example.small_reader_converted) /\
  Example.argsort Example.descending7.1 = [2; 1; 0]%nat /\
  _scan_arrays weak_promotion Example.descending_dll Z.of_N Example.argsort
    Example.pick_peaks Example.reprofile 2
    (TIMSSpectrumDataBase.make Example.frame7 0 (Some 3)) Example.small_reader
  = Some (Return Example.ascending7, Example.small_reader_converted) /\
  _scan_arrays weak_promotion Example.descending_dll Z.of_N Example.argsort
    Example.pick_peaks Example.reprofile 2
    (TIMSSpectrumDataBase.make Example.frame7 0 (Some 1)) Example.small_reader
  = _scan_arrays weak_promotion Example.descending_dll Z.of_N Example.argsort
    Example.pick_peaks Example.reprofile 2
    (TIMSSpectrumDataBase.make Example.frame7 0 None) Example.small_reader.
Proof.
  split_and!; [reflexivity|reflexivity| |reflexivity].
  destruct (scan_arrays_by_combination weak_promotion Example.descending_dll Z.of_N
              Example.argsort Example.pick_peaks Example.reprofile Z.le 2
              (TIMSSpectrumDataBase.make Example.frame7 0 (Some 3)) Example.small_reader
              [1990; 1989; 1988] [100; 101; 102] Example.small_reader_converted)
    as [_ (sm & si & Hlm & Hli & Hat & _ & _ & _ & Hrun)].
  - reflexivity.
  - reflexivity.
  - apply argsort_sorts.
  - rewrite Hrun. clear Hrun.
    destruct (Hat 0%nat ltac:(simpl; lia)) as (m0 & Hm0 & _ & Hs0 & Hi0).
    destruct (Hat 1%nat ltac:(simpl; lia)) as (m1 & Hm1 & _ & Hs1 & Hi1).
    destruct (Hat 2%nat ltac:(simpl; lia)) as (m2 & Hm2 & _ & Hs2 & Hi2).
    vm_compute in Hm0, Hm1, Hm2.
    injection Hm0 as <-. injection Hm1 as <-. injection Hm2 as <-.
    destruct sm as [|a0 [|a1 [|a2 [|]]]]; try discriminate Hlm.
    destruct si as [|b0 [|b1 [|b2 [|]]]]; try discriminate Hli.
    simpl in Hs0, Hs1, Hs2, Hi0, Hi1, Hi2.
    injection Hs0 as ->. injection Hs1 as ->. injection Hs2 as ->.
    injection Hi0 as ->. injection Hi1 as ->. injection Hi2 as ->.
    reflexivity.
Defined.

(** Claim C8, amended, on the database of the example: a text without the
    space before [scan=] is rejected; [frame=7 scan=34x] is read as
    [frame=7 scan=34]; and an identifier whose frame number is the
    Arabic-Indic digit seven is not rejected. *)
Lemma get_scan_by_id_rejects_witness :
  get_scan_by_id Example.unicode Example.conn (text "frame=7scan=3") Example.reader
  = (Raise (InvalidScanIdentifier (text "frame=7scan=3")), Example.reader) /\
  get_scan_by_id Example.unicode Example.conn (text "frame=7 scan=34x") Example.reader
  = get_scan_by_id Example.unicode Example.conn (text "frame=7 scan=34") Example.reader /\
  get_scan_by_id Example.unicode Example.conn
    (text "frame=" ++ [1639%N] ++ text " scan=3") Example.reader
  <> (Raise (InvalidScanIdentifier (text "frame=" ++ [1639%N] ++ text " scan=3")),
      Example.reader).
Proof.
  split_and!.
  - apply (get_scan_by_id_rejects Example.conn Example.unicode (text "frame=7scan=3")
             Example.reader).
    split.
    + intros H. apply begins_single_parser in H. destruct H as [g H]. discriminate H.
    + intros H. apply begins_multi_parser in H. destruct H as [g H]. discriminate H.
  - apply (proj1 (proj2 (get_scan_by_id_rejects Example.conn Example.unicode
                           (text "frame=7 scan=34x") Example.reader))
             (text "7") (text "34") (text "x")).
    + split; [discriminate|reflexivity].
    + split; [discriminate|reflexivity].
    + intros c rest' [= <- <-]. reflexivity.
    + reflexivity.
  - intros H.
    apply (get_scan_by_id_rejects Example.conn Example.unicode
             (text "frame=" ++ [1639%N] ++ text " scan=3") Example.reader) in H.
    destruct H as [H _]. apply H.
    exists [1639%N], (text "3"), []. split_and!.
    + split; [discriminate|reflexivity].
    + split; [discriminate|reflexivity].
    + reflexivity.
Defined.

(** Claim C9, amended, on a first load of frame 5, of type 2. *)
Lemma get_frame_by_id_by_type_witness :
  exists self',
    get_frame_by_id Example.conn 5 Example.reader = (Return Example.frame5, self') /\
    TIMSFrame.pasef_precursors Example.frame5 = [] /\
    warnings_warn (Msg "No support for MSMSType %r yet" [ArgInt 2])
      ∈ new_events Example.reader self'.
Proof.
  destruct (get_frame_by_id_by_type Example.conn 5 Example.reader (Example.frames_row 5 2))
    as (frame & self' & Hrun & -> & Hnone & _ & Hwarn & _).
  - reflexivity.
  - apply cache_consistent_init.
  - exists self'. split; [exact Hrun|]. split; [reflexivity|].
    apply Hwarn. repeat split; discriminate.
Defined.

(** Claim C10 on frame 7, without precursors, and on scan 1 of frame 8. *)
Lemma activation_by_precursor_witness :
  (_activation (TIMSSpectrumDataBase.make Example.frame7 0 None) Example.reader).1
  = Raise (UnboundLocalError "collision_energy") /\
  (_activation (TIMSSpectrumDataBase.make Example.frame8 1 None) Example.reader).1
  = Return (Build_ActivationInformation "collision-induced dissociation" 42).
Proof.
  split.
  - exact (activation_by_precursor (TIMSSpectrumDataBase.make Example.frame7 0 None)
             Example.reader (Return None) eq_refl).
  - exact (activation_by_precursor (TIMSSpectrumDataBase.make Example.frame8 1 None)
             Example.reader (Return (Some Example.precursor0)) eq_refl).
Defined.

(** ** More on [read_scans] *)

Section ReadScansMore.
Context {F : Type} (numpy : promotion) (dll : timsdata F).
Implicit Types self : TIMSData F.

(** X1 ([read_scans]).  Whatever the library answers, the buffer-growing
    loop ends: with an estimate of [attempt_size self] words it makes at
    most [4194305 - attempt_size self + 1] attempts, and more fuel does
    not change its result. *)
Theorem read_scans_terminates frame_id scan_begin scan_end self fuel :
  (Z.to_nat (4194305 - attempt_size self) + 1 <= fuel)%nat ->
  exists r, read_scans numpy dll fuel frame_id scan_begin scan_end self = Some r /\
    forall fuel', (fuel <= fuel')%nat ->
      read_scans numpy dll fuel' frame_id scan_begin scan_end self = Some r.
Proof.
  intros Hfuel.
  destruct (read_scans_buffer_ends dll fuel frame_id scan_begin scan_end self Hfuel)
    as [r Hr].
  unfold read_scans. rewrite Hr.
  destruct r as [[buf|e] self']; (eexists; split; [done|]); intros fuel' Hle;
    by rewrite (read_scans_buffer_fuel dll fuel _ _ _ _ _ Hr fuel' Hle).
Qed.

Lemma read_scans_buffer_monotone fuel : forall frame_id scan_begin scan_end self o self',
  read_scans_buffer dll fuel frame_id scan_begin scan_end self = Some (o, self') ->
  attempt_size self <= attempt_size self' /\
  (forall e, o = Raise e -> 0 <= attempt_size self -> is_read_error dll e) /\
  handle self' = handle self /\ _frame_cache self' = _frame_cache self.
Proof.
  induction fuel as [|fuel IH]; intros frame_id scan_begin scan_end self o self' Hr; [done|].
  destruct (Z.lt_ge_cases (attempt_size self) 0) as [Hneg|Hpos].
  { rewrite read_scans_buffer_negative in Hr by done. injection Hr as <- <-.
    split_and!; [lia| |done|done]. intros e _ ?. lia. }
  rewrite read_scans_buffer_step in Hr by done.
  destruct (service_reply dll frame_id scan_begin scan_end self) as [required_len words].
  cbv zeta in Hr.
  destruct (required_len =? 0).
  { rewrite throw_tims_error_run in Hr. injection Hr as <- <-.
    split_and!; [done| |done|done]. intros e [= <-] _. by right. }
  destruct (required_len >? 4 * attempt_size self) eqn:Hgt.
  2:{ injection Hr as <- <-. split_and!; [done| |done|done]. intros e [=]. }
  destruct (required_len >? 16777216) eqn:Hmax.
  { injection Hr as <- <-. split_and!; [done| |done|done]. intros e [= <-] _. by left. }
  apply Z.gtb_lt in Hgt.
  apply IH in Hr as (Hle & Herr & Hh & Hc).
  rewrite grown_attempt_size in * by lia.
  assert (attempt_size self <= required_len / 4) by (apply Z.div_le_lower_bound; lia).
  split_and!; [lia| |done|done].
  intros e He _. apply (Herr e He). lia.
Qed.

(** X2 ([read_scans]).  From an estimate of at most 4194305 words (16 MiB
    and one word), [read_scans] never lowers the estimate, never raises it
    above 4194305 words, allocates no buffer larger than that, and leaves
    the frame cache alone, whether it returns or raises. *)
Theorem read_scans_estimate_invariant fuel frame_id scan_begin scan_end self o self' :
  0 <= attempt_size self <= 4194305 ->
  read_scans numpy dll fuel frame_id scan_begin scan_end self = Some (o, self') ->
  attempt_size self <= attempt_size self' <= 4194305 /\
  _frame_cache self' = _frame_cache self /\
  Forall (is_allocation_within 4194305) (new_events self self').
Proof.
  intros Hb Hr. unfold read_scans in Hr.
  destruct (read_scans_buffer dll fuel frame_id scan_begin scan_end self)
    as [[o1 self1]|] eqn:Hbuf; [|done].
  assert (self' = self1) as -> by (destruct o1; by injection Hr as _ <-).
  pose proof (read_scans_buffer_monotone _ _ _ _ _ _ _ Hbuf) as (Hle & _ & _ & Hc).
  pose proof (read_scans_buffer_allocations dll _ _ _ _ _ _ _ Hbuf)
    as (new & Hlog & Hall & Hsize & _).
  split_and!; [lia|lia|done|].
  rewrite (new_events_app _ _ _ Hlog).
  eapply Forall_impl; [exact Hall|]. intros e [->|He]; [simpl; lia|done].
Qed.

Lemma read_scans_buffer_length fuel : forall frame_id scan_begin scan_end self buf self',
  read_scans_buffer dll fuel frame_id scan_begin scan_end self = Some (Return buf, self') ->
  0 <= attempt_size self' /\ length buf = Z.to_nat (attempt_size self').
Proof.
  induction fuel as [|fuel IH]; intros frame_id scan_begin scan_end self buf self' Hr; [done|].
  destruct (Z.lt_ge_cases (attempt_size self) 0) as [Hneg|Hpos].
  { by rewrite read_scans_buffer_negative in Hr by done. }
  rewrite read_scans_buffer_step in Hr by done.
  destruct (service_reply dll frame_id scan_begin scan_end self) as [required_len words].
  cbv zeta in Hr.
  destruct (required_len =? 0).
  { by rewrite throw_tims_error_run in Hr. }
  destruct (required_len >? 4 * attempt_size self) eqn:Hgt.
  2:{ injection Hr as <- <-. by rewrite length_map, length_seq. }
  destruct (required_len >? 16777216) eqn:Hmax; [done|].
  by apply IH in Hr.
Qed.

Lemma decode_scans_raises buf : forall n k d e,
  decode_scans numpy buf k n d = Raise e -> (k <= length buf)%nat ->
  (e = IndexError (Msg "index %d is out of bounds" [ArgInt (Z.of_nat (length buf))]) /\
   (length buf < k + n)%nat) \/
  (numpy = weak_promotion /\
   e = OverflowError (Msg "Python integer %d out of bounds for uint32" [ArgInt d]) /\
   ~ (0 <= d < 2 ^ 32)).
Proof.
  induction n as [|n IH]; intros k d e; simpl; [done|].
  destruct (buf !! k) as [c|] eqn:Hk.
  - pose proof (lookup_lt_Some _ _ _ Hk) as Hlt.
    destruct (np_add numpy d c) as [stop|e1] eqn:H1.
    2:{ intros [= <-] _. right. by eapply np_add_Raise. }
    destruct (np_add numpy stop c) as [stop'|e2] eqn:H2.
    2:{ intros [= <-] _. apply np_add_Raise in H2 as (-> & _ & Hout).
        by apply np_add_Return_weak in H1. }
    destruct (decode_scans numpy buf (S k) n stop') as [r|e'] eqn:Hd; [done|].
    intros [= <-] _. destruct (IH _ _ _ Hd ltac:(lia)) as [[-> ?]|(-> & _ & Hout)].
    + left. split; [done|lia].
    + by apply np_add_Return_weak in H2.
  - apply lookup_ge_None in Hk. intros [= <-] Hle.
    assert (k = length buf) as -> by lia. left. split; [done|lia].
Qed.

(** X3 ([read_scans], [throw_tims_error]).  [read_scans] fails in four
    ways only: the frame is larger than 16 MiB; the library reported an
    error (its text is raised as a [RuntimeError]); the buffer has fewer
    words than the range has scans, and reading the count of a scan is an
    [IndexError] at the length of the buffer; or, under the weak promotion
    of NumPy 2 only, the range has [2 ^ 32] scans or more, a number the
    first [uint32] sum refuses with an [OverflowError]. *)
Theorem read_scans_failures fuel frame_id scan_begin scan_end self e self' :
  0 <= attempt_size self ->
  read_scans numpy dll fuel frame_id scan_begin scan_end self = Some (Raise e, self') ->
  e = FrameTooLarge \/
  e = RuntimeError (Msg (tims_get_last_error_string dll) []) \/
  (e = IndexError (Msg "index %d is out of bounds" [ArgInt (attempt_size self')]) /\
   attempt_size self' < scan_end - scan_begin) \/
  (numpy = weak_promotion /\
   e = OverflowError (Msg "Python integer %d out of bounds for uint32"
                        [ArgInt (scan_end - scan_begin)]) /\
   2 ^ 32 <= scan_end - scan_begin).
Proof.
  intros Hpos Hr. unfold read_scans in Hr.
  destruct (read_scans_buffer dll fuel frame_id scan_begin scan_end self)
    as [[[buf|e1] self1]|] eqn:Hbuf; [| |done].
  - injection Hr as Hdec <-.
    destruct (read_scans_buffer_length _ _ _ _ _ _ _ Hbuf) as [Hcnt Hlen].
    destruct (decode_scans_raises _ _ _ _ _ Hdec ltac:(lia)) as [[-> Hshort]|(-> & -> & Hout)].
    + right; right; left. rewrite Hlen, Z2Nat.id by done. split; [done|lia].
    + right; right; right. split_and!; [done|done|].
      destruct (Z.le_gt_cases (scan_end - scan_begin) 0) as [Hle|Hgt]; [|lia].
      by replace (Z.to_nat (scan_end - scan_begin)) with 0%nat in Hdec by lia.
  - injection Hr as <- <-.
    destruct (read_scans_buffer_monotone _ _ _ _ _ _ _ Hbuf) as (_ & Herr & _).
    destruct (Herr e1 eq_refl Hpos) as [->| ->]; auto.
Qed.

Lemma np_slice_bounds {A} (buf : list A) a c :
  length (np_slice buf a (a + c)) = Nat.min c (length buf - a).
Proof.
  unfold np_slice. rewrite length_take, length_drop. f_equal. lia.
Qed.

(** Under the weak promotion the read position is a [uint32] all along,
    and no slice is longer than its count. *)
Lemma decode_scans_weak buf : forall n k d,
  (k + n <= length buf)%nat -> 0 <= d < 2 ^ 32 ->
  exists result, decode_scans weak_promotion buf k n d = Return result /\
    length result = n /\
    forall i indices intensities, result !! i = Some (indices, intensities) ->
      exists c, buf !! (k + i)%nat = Some c /\
        (length indices <= N.to_nat c)%nat /\ (length intensities <= N.to_nat c)%nat.
Proof.
  induction n as [|n IH]; intros k d Hk Hd.
  { exists []. split_and!; [done|done|]. intros i ? ? Hi. by destruct i. }
  destruct (lookup_lt_is_Some_2 buf k ltac:(lia)) as [c Hc].
  simpl. rewrite Hc.
  destruct (np_add_weak d c Hd) as (stop & -> & Hstop & Hle).
  destruct (np_add_weak stop c Hstop) as (stop' & -> & Hstop' & Hle').
  destruct (IH (S k) stop' ltac:(lia) Hstop') as (rest & -> & Hlen & Hrest).
  eexists. split_and!; [done|simpl; lia|].
  intros i indices intensities Hi. destruct i as [|i].
  - injection Hi as <- <-. exists c. rewrite Nat.add_0_r. split_and!; [done| |].
    + apply np_slice_int_length; lia.
    + apply np_slice_int_length; lia.
  - replace (k + S i)%nat with (S k + i)%nat by lia. by eapply Hrest.
Qed.

(** The counts of a buffer of [uint32] words. *)
Lemma sum_peak_counts (buf : list N) n :
  Forall (fun w => (w < 2 ^ 32)%N) buf ->
  Z.of_nat (sum_list (peak_counts buf n)) <= Z.of_nat n * 4294967295.
Proof.
  unfold peak_counts. revert n. induction buf as [|w buf IH]; intros n Hall.
  - rewrite take_nil. simpl. lia.
  - destruct n as [|n]; [simpl; lia|].
    apply Forall_cons in Hall as [Hw Hall]. specialize (IH n Hall).
    change (2 ^ 32)%N with 4294967296%N in Hw.
    change (sum_list (map N.to_nat (take (S n) (w :: buf))))
      with (N.to_nat w + sum_list (map N.to_nat (take n buf)))%nat.
    lia.
Qed.

(** X4 ([read_scans], the decoding loop).  When the buffer of [uint32]
    words holds at least the [n] count words, [n] being less than
    [2 ^ 30], decoding returns [n] pairs and never fails: a scan whose
    payload runs past the end of the buffer is cut short by the slices, so
    that it has no more indices and no more intensities than its count
    says.  As long as the read positions are exact, it has no more
    intensities than indices either; once a [uint32] position has
    wrapped, it can have more. *)
Theorem decode_scans_truncates buf n :
  (n <= length buf)%nat ->
  Z.of_nat n < 2 ^ 30 ->
  Forall (fun w => (w < 2 ^ 32)%N) buf ->
  exists result, decode_scans numpy buf 0 n (Z.of_nat n) = Return result /\
    length result = n /\
    (forall i indices intensities, result !! i = Some (indices, intensities) ->
       exists c, buf !! i = Some c /\
         (length indices <= N.to_nat c)%nat /\ (length intensities <= N.to_nat c)%nat) /\
    (Z.of_nat (n + 2 * sum_list (peak_counts buf n)) < wrap_limit numpy ->
     forall i indices intensities, result !! i = Some (indices, intensities) ->
       (length intensities <= length indices)%nat).
Proof.
  intros Hn Hsmall Hwords. change (2 ^ 30) with 1073741824 in Hsmall.
  assert (forall result,
            decode_scans numpy buf 0 n (Z.of_nat n) = Return result ->
            Z.of_nat (n + 2 * sum_list (peak_counts buf n)) < wrap_limit numpy ->
            forall i indices intensities, result !! i = Some (indices, intensities) ->
              exists c, buf !! i = Some c /\
                (length intensities <= length indices <= N.to_nat c)%nat) as Hexact.
  { intros result Hdec Hlim i indices intensities Hi.
    destruct (decode_scans_layout numpy buf n 0 n ltac:(lia)) as (result' & Hdec' & Hlen & Hres).
    { by rewrite drop_0. }
    rewrite Hdec in Hdec'. injection Hdec' as <-.
    assert (i < n)%nat as Hlt by (rewrite <- Hlen; by eapply lookup_lt_Some).
    destruct (lookup_lt_is_Some_2 buf i ltac:(lia)) as [c Hc].
    exists c. split; [done|].
    specialize (Hres i c Hlt Hc). cbv zeta in Hres. rewrite Hres in Hi.
    injection Hi as <- <-. rewrite !np_slice_bounds. lia. }
  assert (exists result, decode_scans numpy buf 0 n (Z.of_nat n) = Return result /\
            length result = n /\
            forall i indices intensities, result !! i = Some (indices, intensities) ->
              exists c, buf !! i = Some c /\
                (length indices <= N.to_nat c)%nat /\
                (length intensities <= N.to_nat c)%nat) as (result & Hdec & Hlen & Hcut).
  { destruct numpy.
    - pose proof (sum_peak_counts buf n Hwords) as Hsum.
      assert (Z.of_nat (n + 2 * sum_list (peak_counts buf n)) < wrap_limit legacy_promotion)
        as Hlim.
      { unfold wrap_limit. change (2 ^ 63) with 9223372036854775808. lia. }
      destruct (decode_scans_layout legacy_promotion buf n 0 n ltac:(lia))
        as (result & Hdec & Hlen & _).
      { by rewrite drop_0. }
      exists result. split_and!; [done|done|].
      intros i indices intensities Hi.
      destruct (Hexact result Hdec Hlim i indices intensities Hi) as (c & Hc & Hle).
      exists c. split; [done|lia].
    - apply (decode_scans_weak buf n 0%nat (Z.of_nat n)); [lia|].
      change (2 ^ 32) with 4294967296. lia. }
  exists result. split_and!; [done|done|done|].
  intros Hlim i indices intensities Hi.
  destruct (Hexact result Hdec Hlim i indices intensities Hi) as (c & _ & Hle). lia.
Qed.

End ReadScansMore.

(** *** A library with a stable answer *)

Lemma take_drop_agree {A} (buf1 buf2 : list A) o c m :
  (o + c <= m)%nat ->
  (forall i, (i < m)%nat -> buf1 !! i = buf2 !! i) ->
  take c (drop o buf1) = take c (drop o buf2).
Proof.
  intros Hm Hagree. apply list_eq. intros j.
  destruct (decide (j < c)%nat) as [Hj|Hj].
  - rewrite !lookup_take_lt, !lookup_drop by done. apply Hagree. lia.
  - by rewrite !lookup_take_ge by lia.
Qed.

Lemma peak_counts_agree (buf1 buf2 : list N) n :
  (forall i, (i < n)%nat -> buf1 !! i = buf2 !! i) ->
  peak_counts buf1 n = peak_counts buf2 n.
Proof.
  intros Hagree. unfold peak_counts. f_equal. apply list_eq. intros j.
  destruct (decide (j < n)%nat) as [Hj|Hj].
  - rewrite !lookup_take_lt by done. by apply Hagree.
  - by rewrite !lookup_take_ge by lia.
Qed.

(** Decoding reads the packed layout only. *)
Lemma decode_scans_agree numpy (buf1 buf2 : list N) n :
  layout_fits buf1 n ->
  Z.of_nat (n + 2 * sum_list (peak_counts buf1 n)) < wrap_limit numpy ->
  (forall i, (i < n + 2 * sum_list (peak_counts buf1 n))%nat -> buf1 !! i = buf2 !! i) ->
  decode_scans numpy buf2 0 n (Z.of_nat n) = decode_scans numpy buf1 0 n (Z.of_nat n).
Proof.
  intros Hfit Hlim Hagree.
  assert (peak_counts buf2 n = peak_counts buf1 n) as Hpc.
  { symmetry. apply peak_counts_agree. intros i Hi. apply Hagree. lia. }
  assert (layout_fits buf2 n) as Hfit2.
  { unfold layout_fits in *. rewrite Hpc.
    set (m := (n + 2 * sum_list (peak_counts buf1 n))%nat) in *.
    destruct m as [|m]; [lia|].
    assert (is_Some (buf2 !! m)) as Hs.
    { rewrite <- Hagree by lia. apply lookup_lt_is_Some_2. lia. }
    apply lookup_lt_is_Some_1 in Hs. lia. }
  destruct (decode_scans_fits numpy buf1 n Hfit Hlim) as (r1 & -> & Hl1 & Hr1).
  destruct (decode_scans_fits numpy buf2 n Hfit2) as (r2 & -> & Hl2 & Hr2).
  { by rewrite Hpc. }
  f_equal. apply list_eq_same_length with n; [done|done|].
  intros i x y Hi Hx Hy.
  destruct (Hr1 i Hi) as (c1 & Hc1 & Hx1 & Hb1).
  destruct (Hr2 i Hi) as (c2 & Hc2 & Hx2 & Hb2).
  cbv zeta in *. unfold payload_offset in *. rewrite Hpc in *.
  set (o := (n + 2 * sum_list (take i (peak_counts buf1 n)))%nat) in *.
  assert (peak_counts buf1 n !! i = Some (N.to_nat c1)) as Hci.
  { unfold peak_counts. rewrite list_lookup_fmap, lookup_take_lt by lia. by rewrite Hc1. }
  pose proof (sum_list_take_lookup _ _ _ Hci) as Hsum.
  assert (c2 = c1) as ->.
  { rewrite <- Hagree in Hc2 by lia. congruence. }
  rewrite Hx1 in Hy. rewrite Hx2 in Hx. injection Hx as <-. injection Hy as <-.
  f_equal; symmetry; eapply take_drop_agree; try exact Hagree; fold o; lia.
Qed.

Lemma wrap_limit_large numpy : 4294967296 <= wrap_limit numpy.
Proof. by destruct numpy. Qed.

Lemma layout_words_counts (content : nat -> N) n cnt :
  (n <= cnt)%nat ->
  peak_counts (map content (seq 0 cnt)) n = map (fun i => N.to_nat (content i)) (seq 0 n).
Proof.
  intros Hn. unfold peak_counts.
  rewrite <- fmap_take, take_seq, Nat.min_l by done.
  change (map N.to_nat (map content (seq 0 n))) with (N.to_nat <$> (content <$> seq 0 n)).
  by rewrite <- list_fmap_compose.
Qed.

Lemma c_uint32_small z : 0 <= z < 4294967296 -> c_uint32 z = z.
Proof. intros H. unfold c_uint32. by apply Z.mod_small. Qed.

Section Stable.
Context {F : Type} (numpy : promotion) (dll : timsdata F).
Implicit Types self : TIMSData F.

(** With a buffer that holds the required length, one attempt reads the
    layout of the canonical content. *)
Lemma read_scans_fitting_attempt hdl frame_id scan_begin scan_end required_len content self :
  stable_reply dll hdl frame_id scan_begin scan_end required_len content ->
  0 < required_len ->
  4 * Z.of_nat (layout_words content (Z.to_nat (scan_end - scan_begin))) <= required_len ->
  handle self = hdl ->
  0 <= attempt_size self <= 4194305 ->
  required_len <= 4 * attempt_size self ->
  read_scans numpy dll 1 frame_id scan_begin scan_end self =
  Some (decode_scans numpy
          (map content (seq 0 (layout_words content (Z.to_nat (scan_end - scan_begin)))))
          0 (Z.to_nat (scan_end - scan_begin)) (scan_end - scan_begin),
        after_attempt frame_id scan_begin scan_end self).
Proof.
  intros Hstable Hreq Hlayout Hh Hcnt Hfits.
  unfold read_scans. rewrite read_scans_buffer_step by lia.
  unfold service_reply. rewrite Hh. rewrite (c_uint32_small (4 * attempt_size self)) by lia.
  destruct (Hstable (4 * attempt_size self)) as (words & -> & Hwords).
  cbv zeta.
  assert ((required_len =? 0) = false) as -> by (apply Z.eqb_neq; lia).
  assert ((required_len >? 4 * attempt_size self) = false) as ->.
  { rewrite Z.gtb_ltb. apply Z.ltb_ge. lia. }
  f_equal. f_equal. rewrite !decode_scans_start.
  set (n := Z.to_nat (scan_end - scan_begin)) in *.
  set (m := layout_words content n) in *.
  assert (n <= m)%nat as Hnm by (unfold m, layout_words; lia).
  assert (m <= Z.to_nat (attempt_size self))%nat as Hmc by lia.
  apply decode_scans_agree.
  - unfold layout_fits. rewrite layout_words_counts by done.
    rewrite length_map, length_seq. fold (layout_words content n). done.
  - rewrite layout_words_counts by done. fold (layout_words content n). fold m.
    pose proof (wrap_limit_large numpy). lia.
  - rewrite layout_words_counts by done. fold (layout_words content n). fold m.
    intros i Hi. rewrite !list_lookup_fmap, !lookup_seq_lt by lia. simpl.
    f_equal. symmetry. apply Hwords; lia.
Qed.

(** X5 ([read_scans]).  With a library that answers a read of one range
    the same way whatever the buffer (at most 16 MiB, its layout within
    the length it reports), [read_scans] returns the same scans from any
    estimate; and once it has returned, the estimate it leaves is enough:
    the next read of that range needs one attempt. *)
Theorem read_scans_growth_idempotent hdl frame_id scan_begin scan_end required_len content :
  stable_reply dll hdl frame_id scan_begin scan_end required_len content ->
  0 < required_len <= 16777216 ->
  4 * Z.of_nat (layout_words content (Z.to_nat (scan_end - scan_begin))) <= required_len ->
  exists result, forall self,
    handle self = hdl -> 0 <= attempt_size self <= 4194305 ->
    exists self',
      read_scans numpy dll 2 frame_id scan_begin scan_end self = Some (result, self') /\
      read_scans numpy dll 1 frame_id scan_begin scan_end self'
      = Some (result, after_attempt frame_id scan_begin scan_end self').
Proof.
  intros Hstable Hreq Hlayout. eexists. intros self Hh Hcnt.
  destruct (Z.le_gt_cases required_len (4 * attempt_size self)) as [Hfits|Hsmall].
  - pose proof (read_scans_fitting_attempt _ _ _ _ _ _ self Hstable ltac:(lia) Hlayout Hh Hcnt Hfits)
      as Hone.
    exists (after_attempt frame_id scan_begin scan_end self). split.
    + unfold read_scans in *.
      destruct (read_scans_buffer dll 1 frame_id scan_begin scan_end self) as [r|] eqn:Hr; [|done].
      by rewrite (read_scans_buffer_fuel dll 1 _ _ _ _ _ Hr 2 ltac:(lia)).
    + apply (read_scans_fitting_attempt _ _ _ _ _ _ _ Hstable); try done; try lia.
  - set (self1 := with_estimate (Qplus (Qmake required_len 4) 1)
                    (after_attempt frame_id scan_begin scan_end self)).
    assert (attempt_size self1 = required_len / 4 + 1) as Hsize1.
    { unfold self1. apply grown_attempt_size. lia. }
    pose proof (Z.div_le_mono _ _ 4 ltac:(lia) (proj2 Hreq)) as Hq.
    change (16777216 / 4) with 4194304 in Hq.
    pose proof (Z.mul_succ_div_gt required_len 4 ltac:(lia)) as Hgt.
    pose proof (Z.div_pos required_len 4 ltac:(lia) ltac:(lia)) as Hq0.
    assert (read_scans numpy dll 1 frame_id scan_begin scan_end self1 =
            Some (decode_scans numpy
                    (map content (seq 0 (layout_words content (Z.to_nat (scan_end - scan_begin)))))
                    0 (Z.to_nat (scan_end - scan_begin)) (scan_end - scan_begin),
                  after_attempt frame_id scan_begin scan_end self1)) as Hone.
    { apply (read_scans_fitting_attempt _ _ _ _ _ _ _ Hstable); try done; try lia. }
    exists (after_attempt frame_id scan_begin scan_end self1). split.
    + unfold read_scans in *. rewrite read_scans_buffer_step by lia.
      unfold service_reply. rewrite Hh. rewrite (c_uint32_small (4 * attempt_size self)) by lia.
      destruct (Hstable (4 * attempt_size self)) as (words & -> & _).
      cbv zeta.
      assert ((required_len =? 0) = false) as -> by (apply Z.eqb_neq; lia).
      assert ((required_len >? 4 * attempt_size self) = true) as -> by (apply Z.gtb_lt; lia).
      assert ((required_len >? 16777216) = false) as ->.
      { rewrite Z.gtb_ltb. apply Z.ltb_ge. lia. }
      fold self1. exact Hone.
    + apply (read_scans_fitting_attempt _ _ _ _ _ _ _ Hstable); [lia|done|done| |].
      * change (0 <= attempt_size self1 <= 4194305). lia.
      * change (required_len <= 4 * attempt_size self1). lia.
Qed.

End Stable.

(** ** More on the frame cache and on identifiers *)

Section FrameCache.
Context {F : Type} (conn : connection F).
Implicit Types self : TIMSData F.

(** X6 ([get_frame_by_id]).  A frame [get_frame_by_id] returns is in the
    cache afterwards, asking for it again returns the same frame without
    changing the reader, and no other entry of the cache has changed. *)
Theorem get_frame_by_id_cached_afterwards frame_id self frame self' :
  get_frame_by_id conn frame_id self = (Return frame, self') ->
  _frame_cache self' !! frame_id = Some frame /\
  get_frame_by_id conn frame_id self' = (Return frame, self') /\
  (forall other, other <> frame_id ->
     _frame_cache self' !! other = _frame_cache self !! other).
Proof.
  intros Hrun.
  destruct (_frame_cache self !! frame_id) as [cached|] eqn:Hc.
  - rewrite (get_frame_by_id_hit conn _ _ _ Hc) in Hrun. injection Hrun as <- <-.
    split_and!; [done|by apply get_frame_by_id_hit|done].
  - destruct (select_frame conn frame_id) as [rowdict|] eqn:Hr.
    + rewrite (get_frame_by_id_miss conn _ _ _ Hc Hr) in Hrun. injection Hrun as <- <-.
      assert (forall T (x : T) (m : gmap Z T), <[frame_id:=x]> m !! frame_id = Some x) as Hin.
      { intros. apply lookup_insert_eq. }
      split_and!.
      * simpl. apply Hin.
      * apply get_frame_by_id_hit. simpl. apply Hin.
      * intros other Hne. simpl. by rewrite lookup_insert_ne.
    + destruct (get_frame_by_id_missing conn _ _ Hc Hr) as (e & s & He).
      rewrite He in Hrun. done.
Qed.

Lemma get_frame_by_id_raises frame_id self e self' :
  get_frame_by_id conn frame_id self = (Raise e, self') ->
  _frame_cache self !! frame_id = None /\ select_frame conn frame_id = None.
Proof.
  intros Hrun.
  destruct (_frame_cache self !! frame_id) as [cached|] eqn:Hc.
  { by rewrite (get_frame_by_id_hit conn _ _ _ Hc) in Hrun. }
  destruct (select_frame conn frame_id) as [rowdict|] eqn:Hr; [|done].
  by rewrite (get_frame_by_id_miss conn _ _ _ Hc Hr) in Hrun.
Qed.

Lemma get_frame_by_id_missing_state frame_id self :
  _frame_cache self !! frame_id = None ->
  select_frame conn frame_id = None ->
  exists self',
    get_frame_by_id conn frame_id self
    = (Raise (TypeError (Msg "'NoneType' object is not iterable" [])), self') /\
    _frame_cache self' = _frame_cache self /\
    new_events self self' = [sql_select_frame frame_id].
Proof.
  intros Hc Hr. unfold get_frame_by_id.
  rewrite Hc. unfold mbind, M_MBind, M_bind, mret, M_MRet, M_ret. simpl.
  rewrite Hr. eexists. split; [done|]. split; [done|].
  by apply new_events_app.
Qed.

(** X7 ([get_frame_by_id]).  [get_frame_by_id] fails exactly for a frame
    that is neither in the cache nor in the table of frames.  It then
    raises the [TypeError] of [dict(None)], after one query, and leaves
    the cache as it was. *)
Theorem get_frame_by_id_fails_iff frame_id self :
  ((exists e self', get_frame_by_id conn frame_id self = (Raise e, self')) <->
   _frame_cache self !! frame_id = None /\ select_frame conn frame_id = None) /\
  (forall e self', get_frame_by_id conn frame_id self = (Raise e, self') ->
     e = TypeError (Msg "'NoneType' object is not iterable" []) /\
     _frame_cache self' = _frame_cache self /\
     new_events self self' = [sql_select_frame frame_id]).
Proof.
  split.
  - split.
    + intros (e & self' & Hrun). by apply (get_frame_by_id_raises _ _ _ _ Hrun).
    + intros [Hc Hr]. by apply get_frame_by_id_missing.
  - intros e self' Hrun.
    destruct (get_frame_by_id_raises _ _ _ _ Hrun) as [Hc Hr].
    destruct (get_frame_by_id_missing_state _ _ Hc Hr) as (self1 & Hrun1 & Hcache & Hlog).
    rewrite Hrun1 in Hrun. by injection Hrun as <- <-.
Qed.

(** X8 ([get_frame_by_id], the weak cache).  In a reader whose cached
    frames are those a load would produce, a frame that has dropped out of
    the weak cache is loaded again as an equal frame, and the cache is
    then what it was before the entry vanished. *)
Theorem evicted_frame_reloads frame_id self frame :
  cache_consistent conn self ->
  _frame_cache self !! frame_id = Some frame ->
  exists self',
    get_frame_by_id conn frame_id (evict frame_id self) = (Return frame, self') /\
    _frame_cache self' = _frame_cache self /\
    cache_consistent conn (evict frame_id self).
Proof.
  intros Hinv Hc. destruct (Hinv _ _ Hc) as (rowdict & Hr & ->).
  assert (_frame_cache (evict frame_id self) !! frame_id = None) as Hnone.
  { simpl. apply lookup_delete_eq. }
  rewrite (get_frame_by_id_miss conn _ _ _ Hnone Hr).
  eexists. split; [done|]. split.
  - simpl. rewrite insert_delete_eq. by apply insert_id.
  - intros k fr. simpl. intros Hk.
    apply lookup_delete_Some in Hk as [_ Hk]. by apply Hinv.
Qed.

(** X9 ([get_scan_by_id]).  [get_scan_by_id] keeps the cache consistent
    with the store, for every text, whether it returns a scan or
    raises. *)
Theorem get_scan_by_id_keeps_cache_consistent unicode scan_id self o self' :
  cache_consistent conn self ->
  get_scan_by_id unicode conn scan_id self = (o, self') ->
  cache_consistent conn self'.
Proof.
  intros Hinv. unfold get_scan_by_id.
  destruct (single_scan_id_parser unicode scan_id) as [[g1 g2]|].
  - unfold mbind, M_MBind, M_bind.
    destruct (get_frame_by_id conn (int unicode g1) self) as [[frame|e] self1] eqn:Hf;
      pose proof (get_frame_by_id_consistent conn _ _ _ _ Hinv Hf) as Hinv1.
    + destruct (TIMSFrame.msms_type frame =? 8).
      * unfold lift. destruct (_locate_pasef_precursor_for _); by intros [= <- <-].
      * by intros [= <- <-].
    + by intros [= <- <-].
  - destruct (multi_scan_id_parser unicode scan_id) as [[[g1 g2] g3]|].
    + unfold mbind, M_MBind, M_bind.
      destruct (get_frame_by_id conn (int unicode g1) self) as [[frame|e] self1] eqn:Hf;
        pose proof (get_frame_by_id_consistent conn _ _ _ _ Hinv Hf) as Hinv1.
      * destruct (TIMSFrame.msms_type frame =? 8).
        -- unfold lift. destruct (_locate_pasef_precursor_for _); by intros [= <- <-].
        -- by intros [= <- <-].
      * by intros [= <- <-].
    + by intros [= <- <-].
Qed.

End FrameCache.

(** Identifiers *)

Section IdentifierText.
Context (unicode : unicode_database).

(** X10 ([single_scan_id_parser], [multi_scan_id_parser]).  No text is
    matched by both patterns, so the order in which [get_scan_by_id]
    tries them does not matter. *)
Theorem parsers_exclusive scan_id groups :
  single_scan_id_parser unicode scan_id = Some groups ->
  multi_scan_id_parser unicode scan_id = None.
Proof.
  unfold single_scan_id_parser, multi_scan_id_parser. intros H.
  apply bind_Some in H as (s1 & -> & H). simpl.
  apply bind_Some in H as ([d1 s2] & -> & H). simpl.
  apply bind_Some in H as (s3 & E3 & _).
  apply match_literal_Some in E3 as ->. done.
Qed.

Lemma match_digits_negative z : z < 0 -> match_digits unicode (format_d z) = None.
Proof.
  intros Hz. rewrite <- (app_nil_r (format_d z)). by apply format_d_negative.
Qed.

Local Ltac parse_number z :=
  let H := fresh "H" in
  destruct (Z.lt_ge_cases z 0) as [H|H];
  [ first [ by rewrite (format_d_negative unicode z H)
          | by rewrite (match_digits_negative z H) ]
  | first [ rewrite (match_digits_app unicode (format_d z));
              [|by apply format_d_digits1|by apply no_digit_ahead_cons]
          | rewrite (match_digits_all unicode (format_d z)) by by apply format_d_digits1 ];
    simpl ].

Lemma single_parser_negative f s : f < 0 \/ s < 0 ->
  single_scan_id_parser unicode (text "frame=" ++ format_d f ++ text " scan=" ++ format_d s)
  = None.
Proof.
  intros Hneg. unfold single_scan_id_parser. rewrite match_literal_app. simpl.
  parse_number f. parse_number s. lia.
Qed.

Lemma multi_parser_on_single_format f s :
  multi_scan_id_parser unicode (text "frame=" ++ format_d f ++ text " scan=" ++ format_d s)
  = None.
Proof.
  unfold multi_scan_id_parser. rewrite match_literal_app. simpl.
  parse_number f. done.
Qed.

Lemma single_parser_on_multi_format f s e :
  single_scan_id_parser unicode
    (text "frame=" ++ format_d f ++ text " startScan=" ++ format_d s ++
     text " endScan=" ++ format_d e)
  = None.
Proof.
  unfold single_scan_id_parser. rewrite match_literal_app. simpl.
  parse_number f. done.
Qed.

Lemma multi_parser_negative f s e : f < 0 \/ s < 0 \/ e < 0 ->
  multi_scan_id_parser unicode
    (text "frame=" ++ format_d f ++ text " startScan=" ++ format_d s ++
     text " endScan=" ++ format_d e)
  = None.
Proof.
  intros Hneg. unfold multi_scan_id_parser. rewrite match_literal_app. simpl.
  parse_number f. parse_number s. parse_number e. lia.
Qed.

End IdentifierText.

Section Identifiers.
Context {F : Type} (unicode : unicode_database) (conn : connection F).
Implicit Types self : TIMSData F.

(** X11 ([make_id_string], [get_scan_by_id]).  The id of a single-scan
    reference with non-negative numbers, whose frame can be loaded,
    parses back to a reference to the same scan of the loaded frame,
    and that reference has the same id. *)
Theorem single_scan_reference_round_trip (ref : TIMSSpectrumDataBase.t F) self frame self' :
  TIMSSpectrumDataBase._end_scan ref = None ->
  0 <= TIMSFrame.id (TIMSSpectrumDataBase.frame ref) ->
  0 <= TIMSSpectrumDataBase.start_scan ref ->
  get_frame_by_id conn (TIMSFrame.id (TIMSSpectrumDataBase.frame ref)) self
  = (Return frame, self') ->
  exists scan,
    get_scan_by_id unicode conn (TIMSSpectrumDataBase.make_id_string ref) self
    = (Return scan, self') /\
    scan_data scan = TIMSSpectrumDataBase.make frame (TIMSSpectrumDataBase.start_scan ref) None /\
    (TIMSFrame.id frame = TIMSFrame.id (TIMSSpectrumDataBase.frame ref) ->
     TIMSSpectrumDataBase.make_id_string (scan_data scan)
     = TIMSSpectrumDataBase.make_id_string ref).
Proof.
  intros Hend Hid Hstart Hframe.
  destruct (single_id_round_trip unicode conn ref self frame self' Hend Hid Hstart Hframe)
    as (scan & Hrun & Hdata).
  exists scan. split_and!; [done|done|].
  intros Hsame. rewrite Hdata. unfold TIMSSpectrumDataBase.make_id_string.
  rewrite Hend. simpl. by rewrite Hsame.
Qed.

Lemma unparsed_id_rejected scan_id self :
  single_scan_id_parser unicode scan_id = None ->
  multi_scan_id_parser unicode scan_id = None ->
  get_scan_by_id unicode conn scan_id self = (Raise (InvalidScanIdentifier scan_id), self).
Proof. intros H1 H2. unfold get_scan_by_id. by rewrite H1, H2. Qed.

(** X12 ([make_id_string], [get_scan_by_id]).  The id [make_id_string]
    writes for a reference in which a formatted number is negative is
    rejected by [get_scan_by_id] as an invalid identifier, without a
    query: [%d] writes a sign and [\d+] matches none. *)
Theorem negative_numbers_rejected (ref : TIMSSpectrumDataBase.t F) self :
  Exists (fun z => z < 0) (formatted_numbers ref) ->
  get_scan_by_id unicode conn (TIMSSpectrumDataBase.make_id_string ref) self
  = (Raise (InvalidScanIdentifier (TIMSSpectrumDataBase.make_id_string ref)), self).
Proof.
  intros Hneg. apply unparsed_id_rejected.
  - unfold formatted_numbers, TIMSSpectrumDataBase.make_id_string in *.
    destruct (TIMSSpectrumDataBase._end_scan ref) as [e|].
    + apply single_parser_on_multi_format.
    + apply single_parser_negative. rewrite !Exists_cons, Exists_nil in Hneg. lia.
  - unfold formatted_numbers, TIMSSpectrumDataBase.make_id_string,
      TIMSSpectrumDataBase.end_scan in *.
    destruct (TIMSSpectrumDataBase._end_scan ref) as [e|].
    + apply multi_parser_negative. rewrite !Exists_cons, Exists_nil in Hneg. lia.
    + apply multi_parser_on_single_format.
Qed.

End Identifiers.

(** ** The other accessors *)

Section Accessors.
Context {F : Type} (dll : timsdata F) (conn : connection F).
Implicit Types (self : TIMSData F) (scan : TIMSSpectrumDataBase.t F).

Lemma locate_without_precursors scan :
  TIMSFrame.pasef_precursors (TIMSSpectrumDataBase.frame scan) = [] ->
  _locate_pasef_precursor_for scan = Return None.
Proof.
  intros H. unfold _locate_pasef_precursor_for. rewrite H.
  by destruct (TIMSSpectrumDataBase.is_combined scan).
Qed.

Lemma activation_unbound_without_precursor scan self :
  _locate_pasef_precursor_for scan = Return None ->
  (_activation scan self).1 = Raise (UnboundLocalError "collision_energy").
Proof.
  intros Hnone. unfold _activation.
  unfold mbind, M_MBind, M_bind, mret, M_MRet, M_ret, lift, raise. rewrite Hnone.
  destruct (bool_decide (_ ∈ [2; 8; 9])); [done|].
  by destruct (bool_decide (_ ∈ [3; 4; 5])).
Qed.

(** X13 ([_isolation_window], [_precursor_information], [_activation],
    [_ms_level]).  For a scan of a frame of any type but 8, as
    [get_frame_by_id] loads it: there is no isolation window and no
    precursor information, no conversion is called and no frame loaded,
    [_activation] fails on the unassigned [collision_energy], and the MS
    level is 2 unless the type is 0. *)
Theorem other_frames_have_no_precursor (float_of_int : Z -> F) (np_ceil halve : F -> F)
    frame_id rowdict scan self :
  FramesRow.MsMsType rowdict <> 8 ->
  TIMSSpectrumDataBase.frame scan = loaded_frame conn frame_id rowdict ->
  _isolation_window halve scan = Return None /\
  _precursor_information dll conn float_of_int np_ceil scan self = (Return None, self) /\
  (_activation scan self).1 = Raise (UnboundLocalError "collision_energy") /\
  (_ms_level scan = 2 <-> FramesRow.MsMsType rowdict <> 0).
Proof.
  intros Htype Hframe.
  assert (TIMSFrame.msms_type (TIMSSpectrumDataBase.frame scan) = FramesRow.MsMsType rowdict)
    as Hty.
  { rewrite Hframe. unfold loaded_frame.
    by destruct (FramesRow.MsMsType rowdict =? 8). }
  assert (_locate_pasef_precursor_for scan = Return None) as Hnone.
  { apply locate_without_precursors. rewrite Hframe. by apply loaded_frame_precursors. }
  assert ((TIMSFrame.msms_type (TIMSSpectrumDataBase.frame scan) =? 8) = false) as H8.
  { rewrite Hty. by apply Z.eqb_neq. }
  split_and!.
  - unfold _isolation_window. by rewrite H8.
  - unfold _precursor_information. by rewrite H8.
  - by rewrite (activation_unbound_without_precursor scan self Hnone).
  - unfold _ms_level. rewrite Hty.
    destruct (FramesRow.MsMsType rowdict =? 0) eqn:E0.
    + apply Z.eqb_eq in E0. split; [done|]. intros H. by destruct H.
    + apply Z.eqb_neq in E0. done.
Qed.

(** X14 ([_isolation_window], [_activation]).  For a scan of a PASEF
    frame, the isolation window and the activation follow the precursor
    located: with a precursor the window is symmetric, half the isolation
    width on each side of the isolation m/z, and the energy is the
    precursor's; with none there is no window and [_activation] fails;
    an ambiguous interval fails both. *)
Theorem isolation_window_by_precursor (halve : F -> F) scan self located :
  TIMSFrame.msms_type (TIMSSpectrumDataBase.frame scan) = 8 ->
  _locate_pasef_precursor_for scan = located ->
  match located with
  | Return (Some P) =>
      exists window, _isolation_window halve scan = Return (Some window) /\
        lower window = upper window /\
        lower window = halve (PASEFPrecursorInformation.isolation_width P) /\
        target window = PASEFPrecursorInformation.isolation_mz P /\
        exists activation, (_activation scan self).1 = Return activation /\
          energy activation = PASEFPrecursorInformation.collision_energy P
  | Return None =>
      _isolation_window halve scan = Return None /\
      (_activation scan self).1 = Raise (UnboundLocalError "collision_energy")
  | Raise e =>
      _isolation_window halve scan = Raise e /\ (_activation scan self).1 = Raise e
  end.
Proof.
  intros Hty <-. unfold _isolation_window. rewrite Hty. simpl.
  destruct (_locate_pasef_precursor_for scan) as [[P|]|e] eqn:Hloc.
  - eexists. split_and!; [done|done|done|done|].
    unfold _activation, mbind, M_MBind, M_bind, mret, M_MRet, M_ret, lift, raise.
    rewrite Hloc.
    destruct (bool_decide (_ ∈ [2; 8; 9])); [by eexists|].
    destruct (bool_decide (_ ∈ [3; 4; 5])); by eexists.
  - split; [done|]. by apply activation_unbound_without_precursor.
  - split; [done|].
    unfold _activation, mbind, M_MBind, M_bind, mret, M_MRet, M_ret, lift, raise.
    rewrite Hloc.
    destruct (bool_decide (_ ∈ [2; 8; 9])); [done|].
    by destruct (bool_decide (_ ∈ [3; 4; 5])).
Qed.

Lemma convert_callback_run frame_id input func self success out :
  tims_convert dll func (handle self) (c_int64 frame_id) input = (success, out) ->
  success <> 0 ->
  _convert_callback dll frame_id input func self =
  (Return (map out (seq 0 (length input))),
   Build_TIMSData (handle self) (initial_frame_buffer_size self) (_frame_cache self)
     (_scan_merging_parameters self)
     (log self ++ [call_conversion func frame_id input])).
Proof.
  intros Hconv Hok. unfold _convert_callback. rewrite Hconv.
  unfold mbind, M_MBind, M_bind, mret, M_MRet, M_ret. simpl.
  by rewrite (proj2 (Z.eqb_neq _ _) Hok).
Qed.

Lemma convert_callback_fails frame_id input func self out :
  tims_convert dll func (handle self) (c_int64 frame_id) input = (0, out) ->
  _convert_callback dll frame_id input func self =
  (Raise (RuntimeError (Msg (tims_get_last_error_string dll) [])),
   Build_TIMSData (handle self) (initial_frame_buffer_size self) (_frame_cache self)
     (_scan_merging_parameters self)
     (log self ++ [call_conversion func frame_id input;
                   call_tims_get_last_error_string; call_tims_get_last_error_string])).
Proof.
  intros Hconv. unfold _convert_callback. rewrite Hconv.
  unfold mbind, M_MBind, M_bind, mret, M_MRet, M_ret. simpl.
  rewrite throw_tims_error_run. simpl. by rewrite <- (assoc_L (++)).
Qed.

(** X15 ([_precursor_information]).  For a PASEF scan with a precursor,
    when the mobility conversion succeeds and the parent frame loads: the
    mobility is the one converted value, the product id is the id of the
    scan, and the precursor id is the merged-format id of the precursor's
    range in the parent frame, each bound one more than stored, which the
    single-scan pattern does not match, whatever the Unicode database. *)
Theorem precursor_information_of_pasef_scan (float_of_int : Z -> F) (np_ceil : F -> F)
    scan self P success out parent_frame self2 :
  TIMSFrame.msms_type (TIMSSpectrumDataBase.frame scan) = 8 ->
  _locate_pasef_precursor_for scan = Return (Some P) ->
  let frame_id := TIMSFrame.id (TIMSSpectrumDataBase.frame scan) in
  let input := mobility_input float_of_int np_ceil scan P in
  let self1 := after_conversion tims_scannum_to_oneoverk0 frame_id input self in
  tims_convert dll tims_scannum_to_oneoverk0 (handle self) (c_int64 frame_id) input
  = (success, out) ->
  success <> 0 ->
  get_frame_by_id conn (PASEFPrecursorInformation.parent P) self1
  = (Return parent_frame, self2) ->
  exists pinfo,
    _precursor_information dll conn float_of_int np_ceil scan self
    = (Return (Some pinfo), self2) /\
    inverse_reduced_ion_mobility pinfo = [out 0%nat] /\
    product_scan_id pinfo = TIMSSpectrumDataBase.make_id_string scan /\
    precursor_scan_id pinfo =
      text "frame=" ++ format_d (TIMSFrame.id parent_frame) ++
      text " startScan=" ++ format_d (PASEFPrecursorInformation.start_scan P + 1) ++
      text " endScan=" ++ format_d (PASEFPrecursorInformation.end_scan P + 1) /\
    forall unicode, single_scan_id_parser unicode (precursor_scan_id pinfo) = None.
Proof.
  intros Hty Hloc frame_id input self1 Hconv Hok Hparent.
  pose proof (convert_callback_run _ _ tims_scannum_to_oneoverk0 _ _ _ Hconv Hok) as Hcb.
  fold (scan_number_to_one_over_K0 dll frame_id input self) in Hcb.
  fold (after_conversion tims_scannum_to_oneoverk0 frame_id input self) in Hcb.
  fold self1 in Hcb.
  assert (length input = 1%nat) as Hlen.
  { unfold input, mobility_input. by destruct (TIMSSpectrumDataBase.is_combined scan). }
  rewrite Hlen in Hcb. simpl in Hcb.
  eexists. unfold _precursor_information. rewrite Hty. simpl.
  unfold mbind, M_MBind, M_bind, mret, M_MRet, M_ret, lift. rewrite Hloc.
  fold frame_id.
  assert ((if negb (TIMSSpectrumDataBase.is_combined scan)
           then scan_number_to_one_over_K0 dll frame_id
                  [float_of_int (TIMSSpectrumDataBase.start_scan scan)]
           else scan_number_to_one_over_K0 dll frame_id
                  [np_ceil (PASEFPrecursorInformation.average_scan_number P)])
          = scan_number_to_one_over_K0 dll frame_id input) as ->.
  { unfold input, mobility_input. by destruct (TIMSSpectrumDataBase.is_combined scan). }
  rewrite Hcb, Hparent.
  split; [reflexivity|]. simpl.
  split_and!; [done|done|done|intros unicode; apply single_parser_on_multi_format].
Qed.

End Accessors.

Section Centroids.
Context {F : Type} (numpy : promotion) (dll : timsdata F) (float_of_uint32 : N -> F).
Context (argsort : list F -> list nat) {PeakSet : Type}.
Context (pick_peaks : list F -> list F -> PeakSet).
Context (reprofile : PeakSet -> F -> F -> list F * list F).

(** X16 ([_get_centroids], [_scan_arrays]).  The arrays of a combined
    scan are the reprofiling of the centroids [_get_centroids] picks for
    it, with the merging parameters of the reader; when [_get_centroids]
    fails, [_scan_arrays] fails the same way. *)
Theorem scan_arrays_reprofiles_centroids fuel (scan : TIMSSpectrumDataBase.t F)
    (self : TIMSData F) :
  TIMSSpectrumDataBase.is_combined scan = true ->
  _scan_arrays numpy dll float_of_uint32 argsort pick_peaks reprofile fuel scan self =
  match _get_centroids numpy dll float_of_uint32 argsort pick_peaks fuel scan self with
  | None => None
  | Some (Return centroids, self') =>
      Some (Return (reprofile centroids (dx (_scan_merging_parameters self))
                      (fwhm (_scan_merging_parameters self))), self')
  | Some (Raise e, self') => Some (Raise e, self')
  end.
Proof.
  intros Hc. unfold _scan_arrays, _get_centroids. rewrite Hc.
  destruct (read_spectrum _ _ _ _ _ _ _ _) as [[[[mzs intensities]|e] self1]|] eqn:Hread;
    [|done|done].
  rewrite (read_spectrum_parameters numpy dll float_of_uint32 _ _ _ _ _ _ _ Hread).
  destruct (np_take mzs (argsort mzs)); [|done].
  by destruct (np_take intensities (argsort mzs)).
Qed.

End Centroids.

(** ** Library loading and merging parameters *)

Section LoadLibraryFacts.
Context {D : Type} (_load_library : string -> option D).

Lemma load_first_Some search_paths dll :
  LoadLibrary.load_first _load_library search_paths = Some dll <->
  exists before lib_path after,
    search_paths = before ++ lib_path :: after /\
    _load_library lib_path = Some dll /\
    forall p, p ∈ before -> _load_library p = None.
Proof.
  induction search_paths as [|p paths IH]; simpl.
  - split; [done|]. intros (before & ? & ? & H & _). by destruct before.
  - destruct (_load_library p) as [d|] eqn:E.
    + split.
      * intros [= ->]. exists [], p, paths. split_and!; [done|done|].
        intros q Hq. by apply elem_of_nil in Hq.
      * intros (before & q & after & H & Hq & Hb). destruct before as [|b before].
        -- injection H as -> _. congruence.
        -- injection H as -> _. rewrite Hb in E; [done|by left].
    + rewrite IH. split.
      * intros (before & q & after & -> & Hq & Hb). exists (p :: before), q, after.
        split_and!; [done|done|]. intros x [->|Hx]%elem_of_cons; auto.
      * intros (before & q & after & H & Hq & Hb). destruct before as [|b before].
        -- injection H as -> _. congruence.
        -- injection H as -> ->. exists before, q, after. split_and!; [done|done|].
           intros x Hx. apply Hb. by right.
Qed.

Lemma load_first_None search_paths :
  LoadLibrary.load_first _load_library search_paths = None <->
  forall p, p ∈ search_paths -> _load_library p = None.
Proof.
  induction search_paths as [|p paths IH]; simpl.
  - split; [|done]. intros _ q Hq. by apply elem_of_nil in Hq.
  - destruct (_load_library p) as [d|] eqn:E.
    + split; [done|]. intros H. rewrite H in E; [done|by left].
    + rewrite IH. split.
      * intros H q [->|Hq]%elem_of_cons; auto.
      * intros H q Hq. apply H. by right.
Qed.

(** X17 ([load_library]).  With no library loaded yet, [load_library]
    returns the library of the first search path that loads, skipping
    the paths that fail, and [None] when none loads; a single string is
    a list of one path and no argument is the empty list.  Once a library
    is loaded, every later call returns it, whatever its search paths. *)
Theorem load_library_first_loadable search_paths :
  (forall dll,
     LoadLibrary.load_library _load_library (LoadLibrary.Paths search_paths) None = Some dll <->
     exists before lib_path after,
       search_paths = before ++ lib_path :: after /\
       _load_library lib_path = Some dll /\
       forall p, p ∈ before -> _load_library p = None) /\
  (LoadLibrary.load_library _load_library (LoadLibrary.Paths search_paths) None = None <->
   forall p, p ∈ search_paths -> _load_library p = None) /\
  (forall path,
     LoadLibrary.load_library _load_library (LoadLibrary.OnePath path) None
     = _load_library path) /\
  LoadLibrary.load_library _load_library LoadLibrary.NoSearchPaths None = None /\
  (forall later_paths dll,
     LoadLibrary.load_library _load_library later_paths (Some dll) = Some dll).
Proof.
  split_and!.
  - intros dll. apply load_first_Some.
  - apply load_first_None.
  - intros path. simpl. by destruct (_load_library path).
  - done.
  - done.
Qed.

End LoadLibraryFacts.

Section MergingParameters.
Context {F : Type} (fwhm_default dx_default : F).

(** X18 ([TIMSData.__init__], the merging parameters).  In the
    parameters the reader keeps, every key the caller gave has the
    caller's value, and every other key has what the defaults have for
    it: the defaults fill in, they never replace. *)
Theorem init_scan_merging_parameters_lookup (given : gmap string F) key :
  init_scan_merging_parameters fwhm_default dx_default (Some given) !! key =
  match given !! key with
  | Some value => Some value
  | None =>
      init_scan_merging_parameters fwhm_default dx_default None !! key
  end.
Proof.
  unfold init_scan_merging_parameters, default_scan_merging_parameters. simpl.
  unfold setdefault.
  destruct (given !! "fwhm"%string) as [f|] eqn:Hf.
  - destruct (given !! "dx"%string) as [d|] eqn:Hd.
    + destruct (given !! key) as [v|] eqn:Hk; [done|].
      destruct (decide (key = "fwhm"%string)) as [->|]; [congruence|].
      destruct (decide (key = "dx"%string)) as [->|]; [congruence|].
      by rewrite !lookup_insert_ne, lookup_empty by done.
    + destruct (decide (key = "dx"%string)) as [->|Hne].
      * rewrite lookup_insert_eq, Hd. rewrite lookup_insert_ne by done.
        by rewrite lookup_insert_eq.
      * rewrite lookup_insert_ne by done.
        destruct (given !! key) as [v|] eqn:Hk; [done|].
        destruct (decide (key = "fwhm"%string)) as [->|]; [congruence|].
        by rewrite !lookup_insert_ne, lookup_empty by done.
  - rewrite lookup_insert_ne by done.
    destruct (given !! "dx"%string) as [d|] eqn:Hd.
    + destruct (decide (key = "fwhm"%string)) as [->|Hne].
      * by rewrite !lookup_insert_eq, Hf.
      * rewrite lookup_insert_ne by done.
        destruct (given !! key) as [v|] eqn:Hk; [done|].
        destruct (decide (key = "dx"%string)) as [->|]; [congruence|].
        by rewrite !lookup_insert_ne, lookup_empty by done.
    + destruct (decide (key = "dx"%string)) as [->|Hne].
      * rewrite lookup_insert_eq, Hd. rewrite lookup_insert_ne by done.
        by rewrite lookup_insert_eq.
      * rewrite lookup_insert_ne by done.
        destruct (decide (key = "fwhm"%string)) as [->|Hne2].
        -- by rewrite !lookup_insert_eq, Hf.
        -- rewrite !lookup_insert_ne by done.
           destruct (given !! key) as [v|] eqn:Hk; [done|].
           by rewrite lookup_empty.
Qed.

End MergingParameters.

(** ** The metadata of the file *)

(** Frame index *)

Lemma msms_type_to_label_Some e label :
  Metadata.msms_type_to_label !! e = Some label <->
  (e = 0 /\ label = "MS1 Scan"%string) \/ (e = 2 /\ label = "MS2 Scan"%string) \/
  (e = 8 /\ label = "PASEF MS2 Scan"%string) \/ (e = 9 /\ label = "DIA-PASEF"%string).
Proof.
  unfold Metadata.msms_type_to_label. simpl.
  rewrite !lookup_insert_Some, lookup_empty. split.
  - intros [[<- <-]|[? [[<- <-]|[? [[<- <-]|[? [[<- <-]|[? ?]]]]]]]]; auto 6. done.
  - intros [[-> ->]|[[-> ->]|[[-> ->]|[-> ->]]]]; auto 10.
Qed.

Lemma msms_type_to_label_None e :
  Metadata.msms_type_to_label !! e = None <-> e <> 0 /\ e <> 2 /\ e <> 8 /\ e <> 9.
Proof.
  unfold Metadata.msms_type_to_label. simpl.
  rewrite !lookup_insert_None. split.
  - intros ((((_ & ?) & ?) & ?) & ?). split_and!; done.
  - intros (? & ? & ? & ?). split_and!; done.
Qed.

Lemma msms_type_to_label_inj e1 e2 label :
  Metadata.msms_type_to_label !! e1 = Some label ->
  Metadata.msms_type_to_label !! e2 = Some label -> e1 = e2.
Proof.
  rewrite !msms_type_to_label_Some.
  intros [[-> ->]|[[-> ->]|[[-> ->]|[-> ->]]]] [[-> E]|[[-> E]|[[-> E]|[-> E]]]];
    done.
Qed.

Lemma msms_type_to_label_not_total e :
  Metadata.msms_type_to_label !! e <> Some "Total"%string.
Proof.
  rewrite msms_type_to_label_Some. intros [[_ E]|[[_ E]|[[_ E]|[_ E]]]]; done.
Qed.

Lemma count_frames_Found q counts0 total0 counts total :
  Metadata.count_frames q counts0 total0 = Metadata.Found (counts, total) ->
  total = total0 + foldr Z.add 0 q.*2 /\
  (forall row, row ∈ q -> is_Some (Metadata.msms_type_to_label !! row.1)) /\
  (forall label,
     (forall row, row ∈ q -> Metadata.msms_type_to_label !! row.1 <> Some label) ->
     counts !! label = counts0 !! label) /\
  (NoDup q.*1 -> forall row label, row ∈ q ->
     Metadata.msms_type_to_label !! row.1 = Some label ->
     counts !! label = Some row.2).
Proof.
  revert counts0 total0. induction q as [|[e c] q IH]; intros counts0 total0; simpl.
  - intros [= <- <-]. split_and!.
    + lia.
    + intros row Hrow. by apply elem_of_nil in Hrow.
    + done.
    + intros _ row label Hrow. by apply elem_of_nil in Hrow.
  - destruct (Metadata.msms_type_to_label !! e) as [l|] eqn:El; [|done].
    intros Hrun. destruct (IH _ _ Hrun) as (Ht & Hall & Hother & Hrows).
    split_and!.
    + rewrite Ht. symmetry. apply Z.add_assoc.
    + intros row [->|Hrow]%elem_of_cons; [simpl; by rewrite El|by apply Hall].
    + intros label Hnot. rewrite Hother.
      * apply lookup_insert_ne. intros ->. apply (Hnot (e, c)); [by left|done].
      * intros row Hrow. apply Hnot. by right.
    + intros Hnd row label Hrow Hl. apply NoDup_cons in Hnd as [Hnotin Hnd].
      apply elem_of_cons in Hrow as [->|Hrow].
      * simpl in Hl. assert (l = label) as -> by congruence.
        rewrite Hother; [by rewrite lookup_insert_eq|].
        intros row Hrow Hl'. apply Hnotin.
        rewrite (msms_type_to_label_inj _ _ _ El Hl').
        apply list_elem_of_fmap. by exists row.
      * by apply Hrows.
Qed.

Lemma count_frames_KeyError q counts0 total0 key :
  Metadata.count_frames q counts0 total0 = Metadata.KeyError key <->
  exists before count after,
    q = before ++ (key, count) :: after /\
    Metadata.msms_type_to_label !! key = None /\
    forall row, row ∈ before -> is_Some (Metadata.msms_type_to_label !! row.1).
Proof.
  revert counts0 total0. induction q as [|[e c] q IH]; intros counts0 total0; simpl.
  - split; [done|]. intros (before & ? & ? & H & _). by destruct before.
  - destruct (Metadata.msms_type_to_label !! e) as [l|] eqn:El.
    + rewrite IH. split.
      * intros (before & count & after & -> & Hk & Hb).
        exists ((e, c) :: before), count, after. split_and!; [done|done|].
        intros row [->|Hrow]%elem_of_cons; [simpl; by rewrite El|by apply Hb].
      * intros (before & count & after & H & Hk & Hb). destruct before as [|b before].
        -- simplify_eq/=.
        -- simplify_eq/=. exists before, count, after. split_and!; [done|done|].
           intros row Hrow. apply Hb. by right.
    + split.
      * intros [= ->]. exists [], c, q. split_and!; [done|done|].
        intros row Hrow. by apply elem_of_nil in Hrow.
      * intros (before & count & after & H & Hk & Hb). destruct before as [|b before].
        -- by simplify_eq/=.
        -- simplify_eq/=. destruct (Hb (e, c)) as [x Hx]; [by left|].
           simpl in Hx. congruence.
Qed.

(** X19 ([_build_frame_index]).  On a query result with one row per
    frame type, a frame index that is built holds the sum of all counts
    under [Total] and the count of each row under the label of its type;
    all types are among 0, 2, 8 and 9, and there is no other key. *)
Theorem build_frame_index_counts q counts :
  NoDup q.*1 ->
  Metadata._build_frame_index q = Metadata.Found counts ->
  counts !! "Total"%string = Some (foldr Z.add 0 q.*2) /\
  (forall scan_type_enum count label,
     (scan_type_enum, count) ∈ q ->
     Metadata.msms_type_to_label !! scan_type_enum = Some label ->
     counts !! label = Some count) /\
  (forall scan_type_enum count, (scan_type_enum, count) ∈ q ->
     scan_type_enum ∈ [0; 2; 8; 9]) /\
  (forall label, is_Some (counts !! label) ->
     label = "Total"%string \/
     exists scan_type_enum count, (scan_type_enum, count) ∈ q /\
       Metadata.msms_type_to_label !! scan_type_enum = Some label).
Proof.
  intros Hnd. unfold Metadata._build_frame_index.
  destruct (Metadata.count_frames q ∅ 0) as [[counts0 total]|key] eqn:Hrun; [|done].
  intros [= <-]. destruct (count_frames_Found _ _ _ _ _ Hrun) as (Ht & Hall & Hother & Hrows).
  split_and!.
  - rewrite lookup_insert_eq. f_equal. lia.
  - intros e c label Hrow Hl. rewrite lookup_insert_ne.
    + by apply (Hrows Hnd (e, c)).
    + intros <-. by apply (msms_type_to_label_not_total e).
  - intros e c Hrow. destruct (Hall _ Hrow) as [label Hl]. simpl in Hl.
    apply msms_type_to_label_Some in Hl.
    rewrite !elem_of_cons. destruct Hl as [[-> _]|[[-> _]|[[-> _]|[-> _]]]]; auto.
  - intros label Hs.
    destruct (decide (label = "Total"%string)) as [->|Hne]; [by left|right].
    rewrite lookup_insert_ne in Hs by done.
    destruct (decide (Exists (fun row => Metadata.msms_type_to_label !! row.1 = Some label) q))
      as [Hex|Hnex].
    + apply Exists_exists in Hex as ([e c] & Hrow & Hl). by exists e, c.
    + rewrite Hother in Hs.
      * rewrite lookup_empty in Hs. by destruct Hs.
      * intros row Hrow Hl. apply Hnex. apply Exists_exists. by exists row.
Qed.

(** X20 ([_build_frame_index]).  [_build_frame_index] raises [KeyError]
    exactly when a row has a type other than 0, 2, 8 and 9, and the key
    of the error is the first such type; otherwise it builds an index. *)
Theorem build_frame_index_fails_iff q :
  (forall key,
     Metadata._build_frame_index q = Metadata.KeyError key <->
     exists before count after,
       q = before ++ (key, count) :: after /\
       (key ∉ [0; 2; 8; 9]) /\
       forall row, row ∈ before -> row.1 ∈ [0; 2; 8; 9]) /\
  ((exists counts, Metadata._build_frame_index q = Metadata.Found counts) <->
   forall row, row ∈ q -> row.1 ∈ [0; 2; 8; 9]).
Proof.
  assert (forall e, is_Some (Metadata.msms_type_to_label !! e) <-> e ∈ [0; 2; 8; 9]) as Hdom.
  { intros e. rewrite !elem_of_cons, elem_of_nil. split.
    - intros [label Hl]. apply msms_type_to_label_Some in Hl. intuition.
    - destruct (Metadata.msms_type_to_label !! e) eqn:El; [done|].
      apply msms_type_to_label_None in El. intuition. }
  assert (forall e, Metadata.msms_type_to_label !! e = None <-> e ∉ [0; 2; 8; 9]) as Hout.
  { intros e. rewrite <- Hdom, eq_None_not_Some. done. }
  split.
  - intros key. unfold Metadata._build_frame_index.
    destruct (Metadata.count_frames q ∅ 0) as [[counts0 total]|k] eqn:Hrun.
    + split; [done|]. intros (before & count & after & Hq & Hk & Hb).
      assert (Metadata.count_frames q ∅ 0 = Metadata.KeyError key) as Hbad.
      { apply count_frames_KeyError. exists before, count, after. split_and!; [done|by apply Hout|].
        intros row Hrow. apply Hdom. by apply Hb. }
      congruence.
    + apply count_frames_KeyError in Hrun as (before & count & after & Hq & Hk & Hb). split.
      * intros [= <-]. exists before, count, after. split_and!; [done|by apply Hout|].
        intros row Hrow. apply Hdom. by apply Hb.
      * intros (before' & count' & after' & Hq' & Hk' & Hb'). f_equal.
        assert (Metadata.count_frames q ∅ 0 = Metadata.KeyError key) as Hbad.
        { apply count_frames_KeyError. exists before', count', after'.
          split_and!; [done|by apply Hout|]. intros row Hrow. apply Hdom. by apply Hb'. }
        assert (Metadata.count_frames q ∅ 0 = Metadata.KeyError k) as Hbad2.
        { apply (count_frames_KeyError q ∅ 0 k). exists before, count, after. done. }
        congruence.
  - unfold Metadata._build_frame_index.
    destruct (Metadata.count_frames q ∅ 0) as [[counts0 total]|k] eqn:Hrun.
    + split; [|by eexists]. intros _ row Hrow. apply Hdom.
      by apply (count_frames_Found _ _ _ _ _ Hrun).
    + split; [by intros [? ?]|]. intros Hall.
      apply count_frames_KeyError in Hrun as (before & count & after & -> & Hk & Hb).
      apply Hout in Hk. destruct Hk. apply (Hall (k, count)).
      apply elem_of_app. right. by left.
Qed.

(** Global metadata *)

Lemma last_value_snoc key q k v :
  last_value key (q ++ [(k, v)]) =
  if String.eqb k key then Some v else last_value key q.
Proof.
  unfold last_value. rewrite List.filter_app, map_app. simpl.
  destruct (String.eqb k key); simpl.
  - apply last_snoc.
  - by rewrite app_nil_r.
Qed.

Section GlobalMetadataFacts.
Context {F : Type} (float : string -> option F).

Lemma read_rows_snoc q k v (md : GlobalMetadata.t F) :
  GlobalMetadata.read_rows float (q ++ [(k, v)]) md =
  match GlobalMetadata.read_rows float q md with
  | Return md' => GlobalMetadata.read_row float md' k v
  | Raise e => Raise e
  end.
Proof.
  revert md. induction q as [|[k' v'] q IH]; intros md; simpl.
  - by destruct (GlobalMetadata.read_row float md k v).
  - destruct (GlobalMetadata.read_row float md k' v'); [apply IH|done].
Qed.

Lemma holds_last_values_initial : holds_last_values float [] GlobalMetadata.initial.
Proof.
  unfold holds_last_values, GlobalMetadata.initial. simpl. split_and!; try done.
  exists ∅. split_and!; done.
Qed.

Local Ltac other_key :=
  repeat match goal with
  | H : ?k <> ?c |- context [String.eqb ?k ?c] =>
      rewrite (proj2 (String.eqb_neq k c) H)
  end.

Lemma read_row_holds q (md md' : GlobalMetadata.t F) k v :
  holds_last_values float q md ->
  GlobalMetadata.read_row float md k v = Return md' ->
  holds_last_values float (q ++ [(k, v)]) md'.
Proof.
  intros ((acq & Hsw & Hname & Hversion & Hacq) & (Hfam & Hrev & Hser & Hins) &
          (Hdate & Hop & Hlo & Hup & Hpar)).
  unfold GlobalMetadata.read_row, GlobalMetadata.python_float.
  destruct (String.eqb_spec k "AcquistionSoftware") as [->|N1].
  { intros [= <-]. unfold holds_last_values. rewrite !last_value_snoc. simpl.
    split_and!; try done.
    exists (<["name"%string := v]> acq). rewrite Hsw, alter_insert_eq.
    split_and!; [done|by rewrite lookup_insert_eq|by rewrite lookup_insert_ne|].
    intros k ? ?. rewrite lookup_insert_ne by done. by apply Hacq. }
  destruct (String.eqb_spec k "AcquisitionSoftwareVersion") as [->|N2].
  { intros [= <-]. unfold holds_last_values. rewrite !last_value_snoc. simpl.
    split_and!; try done.
    exists (<["version"%string := v]> acq). rewrite Hsw, alter_insert_eq.
    split_and!; [done|by rewrite lookup_insert_ne|by rewrite lookup_insert_eq|].
    intros k ? ?. rewrite lookup_insert_ne by done. by apply Hacq. }
  destruct (String.eqb_spec k "InstrmentFamily") as [->|N3].
  { intros [= <-]. unfold holds_last_values. rewrite !last_value_snoc. simpl.
    split_and!; try done; try (by exists acq);
      try (by rewrite lookup_insert_eq); try (by rewrite lookup_insert_ne).
    intros k ? ? ?. rewrite lookup_insert_ne by done. by apply Hins. }
  destruct (String.eqb_spec k "InstrmentRevision") as [->|N4].
  { intros [= <-]. unfold holds_last_values. rewrite !last_value_snoc. simpl.
    split_and!; try done; try (by exists acq);
      try (by rewrite lookup_insert_eq); try (by rewrite lookup_insert_ne).
    intros k ? ? ?. rewrite lookup_insert_ne by done. by apply Hins. }
  destruct (String.eqb_spec k "InstrumentSerialNumber") as [->|N5].
  { intros [= <-]. unfold holds_last_values. rewrite !last_value_snoc. simpl.
    split_and!; try done; try (by exists acq);
      try (by rewrite lookup_insert_eq); try (by rewrite lookup_insert_ne).
    intros k ? ? ?. rewrite lookup_insert_ne by done. by apply Hins. }
  destruct (String.eqb_spec k "AcquisitionDateTime") as [->|N6].
  { intros [= <-]. unfold holds_last_values. rewrite !last_value_snoc. simpl.
    split_and!; try done; try (by exists acq);
      try (by rewrite lookup_insert_eq); try (by rewrite lookup_insert_ne).
    intros k ? ? ? ?. rewrite lookup_insert_ne by done. by apply Hpar. }
  destruct (String.eqb_spec k "OperatorName") as [->|N7].
  { intros [= <-]. unfold holds_last_values. rewrite !last_value_snoc. simpl.
    split_and!; try done; try (by exists acq);
      try (by rewrite lookup_insert_eq); try (by rewrite lookup_insert_ne).
    intros k ? ? ? ?. rewrite lookup_insert_ne by done. by apply Hpar. }
  destruct (String.eqb_spec k "MzAcqRangeLower") as [->|N8].
  { destruct (float v) as [x|] eqn:Ex; [|done].
    intros [= <-]. unfold holds_last_values. rewrite !last_value_snoc. simpl.
    split_and!; try done; try (by exists acq);
      try (by rewrite lookup_insert_eq, ?Ex); try (by rewrite lookup_insert_ne).
    intros k ? ? ? ?. rewrite lookup_insert_ne by done. by apply Hpar. }
  destruct (String.eqb_spec k "MzAcqRangeUpper") as [->|N9].
  { destruct (float v) as [x|] eqn:Ex; [|done].
    intros [= <-]. unfold holds_last_values. rewrite !last_value_snoc. simpl.
    split_and!; try done; try (by exists acq);
      try (by rewrite lookup_insert_eq, ?Ex); try (by rewrite lookup_insert_ne).
    intros k ? ? ? ?. rewrite lookup_insert_ne by done. by apply Hpar. }
  intros [= <-]. unfold holds_last_values. rewrite !last_value_snoc. other_key.
  split_and!; try done. by exists acq.
Qed.

Lemma read_rows_holds q (md : GlobalMetadata.t F) :
  GlobalMetadata.read_rows float q GlobalMetadata.initial = Return md ->
  holds_last_values float q md.
Proof.
  revert md. induction q as [|[k v] q IH] using rev_ind; intros md.
  - intros [= <-]. apply holds_last_values_initial.
  - rewrite read_rows_snoc.
    destruct (GlobalMetadata.read_rows float q GlobalMetadata.initial) as [md0|e]; [|done].
    intros Hrow. eapply read_row_holds; [by apply IH|done].
Qed.

Lemma read_row_Raise (md : GlobalMetadata.t F) k v e :
  GlobalMetadata.read_row float md k v = Raise e <->
  is_range_key k /\ float v = None /\
  e = ValueError (Msg "could not convert string to float: %r" [ArgStr v]).
Proof.
  unfold GlobalMetadata.read_row, GlobalMetadata.python_float, is_range_key.
  destruct (String.eqb_spec k "AcquistionSoftware") as [->|N1].
  { split; [done|]. by intros [[?|?] _]. }
  destruct (String.eqb_spec k "AcquisitionSoftwareVersion") as [->|N2].
  { split; [done|]. by intros [[?|?] _]. }
  destruct (String.eqb_spec k "InstrmentFamily") as [->|N3].
  { split; [done|]. by intros [[?|?] _]. }
  destruct (String.eqb_spec k "InstrmentRevision") as [->|N4].
  { split; [done|]. by intros [[?|?] _]. }
  destruct (String.eqb_spec k "InstrumentSerialNumber") as [->|N5].
  { split; [done|]. by intros [[?|?] _]. }
  destruct (String.eqb_spec k "AcquisitionDateTime") as [->|N6].
  { split; [done|]. by intros [[?|?] _]. }
  destruct (String.eqb_spec k "OperatorName") as [->|N7].
  { split; [done|]. by intros [[?|?] _]. }
  destruct (String.eqb_spec k "MzAcqRangeLower") as [->|N8].
  { destruct (float v) as [x|]; split; try done.
    - by intros (_ & ? & _).
    - intros [= <-]. auto.
    - by intros (_ & _ & ->). }
  destruct (String.eqb_spec k "MzAcqRangeUpper") as [->|N9].
  { destruct (float v) as [x|]; split; try done.
    - by intros (_ & ? & _).
    - intros [= <-]. auto.
    - by intros (_ & _ & ->). }
  split; [done|]. by intros [[?|?] _].
Qed.

Lemma read_rows_Raise q (md : GlobalMetadata.t F) e :
  GlobalMetadata.read_rows float q md = Raise e <->
  exists before key value after,
    q = before ++ (key, value) :: after /\
    is_range_key key /\ float value = None /\
    e = ValueError (Msg "could not convert string to float: %r" [ArgStr value]) /\
    forall row, row ∈ before -> is_range_key row.1 -> is_Some (float row.2).
Proof.
  revert md. induction q as [|[k v] q IH]; intros md; simpl.
  - split; [done|]. intros (before & ? & ? & ? & H & _). by destruct before.
  - destruct (GlobalMetadata.read_row float md k v) as [md1|e1] eqn:Hrow.
    + assert (is_range_key k -> is_Some (float v)) as Hok.
      { intros Hk. destruct (float v) as [x|] eqn:Ex; [done|].
        assert (GlobalMetadata.read_row float md k v =
                Raise (ValueError (Msg "could not convert string to float: %r" [ArgStr v])))
          as Hbad by by apply read_row_Raise.
        congruence. }
      rewrite IH. split.
      * intros (before & key & value & after & -> & Hk & Hv & He & Hb).
        exists ((k, v) :: before), key, value, after. split_and!; try done.
        intros row [->|Hin]%elem_of_cons; [done|by apply Hb].
      * intros (before & key & value & after & H & Hk & Hv & He & Hb).
        destruct before as [|b before].
        -- simplify_eq/=. destruct (Hok Hk) as [x Hx]. congruence.
        -- simplify_eq/=. exists before, key, value, after. split_and!; try done.
           intros row Hin. apply Hb. by right.
    + apply read_row_Raise in Hrow as (Hk & Hv & ->). split.
      * intros [= <-]. exists [], k, v, q. split_and!; try done.
        intros row Hin. by apply elem_of_nil in Hin.
      * intros (before & key & value & after & H & Hk' & Hv' & He & Hb).
        destruct before as [|b before].
        -- by simplify_eq/=.
        -- simplify_eq/=. destruct (Hb (k, v)) as [x Hx]; [by left|done|].
           simpl in Hx. congruence.
Qed.

(** X21 ([_read_global_metadata]).  When it returns, each field holds
    the value of the last row with the key the code tests for
    ([AcquistionSoftware], [InstrmentFamily] and [InstrmentRevision] as
    spelt there), the range bounds as floats; rows with any other key
    are ignored, nothing else is recorded, and the control software
    stays empty. *)
Theorem read_global_metadata_last_values q md :
  GlobalMetadata._read_global_metadata float q = Return md ->
  holds_last_values float q md.
Proof. apply read_rows_holds. Qed.

(** X22 ([_read_global_metadata]).  [_read_global_metadata] fails exactly
    when a row of an acquisition range bound has a value [float] does
    not read, with the [ValueError] of the first such row; no other row
    can make it fail. *)
Theorem read_global_metadata_fails_iff q e :
  GlobalMetadata._read_global_metadata float q = Raise e <->
  exists before key value after,
    q = before ++ (key, value) :: after /\
    is_range_key key /\ float value = None /\
    e = ValueError (Msg "could not convert string to float: %r" [ArgStr value]) /\
    forall row, row ∈ before -> is_range_key row.1 -> is_Some (float row.2).
Proof. apply read_rows_Raise. Qed.

End GlobalMetadataFacts.

(** ** Controlled vocabulary *)

(** Term sets *)

Lemma dict_of_foldl key terms (d : gmap string Term.t) k :
  foldl (fun d t => <[key t := t]> d) d terms !! k =
  match TermSet.dict_of key terms !! k with
  | Some t => Some t
  | None => d !! k
  end.
Proof.
  unfold TermSet.dict_of. revert d. induction terms as [|t terms IH] using rev_ind; intros d.
  - simpl. by rewrite lookup_empty.
  - rewrite !foldl_app. simpl. destruct (decide (key t = k)) as [<-|Hne].
    + by rewrite !lookup_insert_eq.
    + rewrite !lookup_insert_ne by done. apply IH.
Qed.

Lemma dict_of_app key a b k :
  TermSet.dict_of key (a ++ b) !! k =
  match TermSet.dict_of key b !! k with
  | Some t => Some t
  | None => TermSet.dict_of key a !! k
  end.
Proof. unfold TermSet.dict_of at 1. rewrite foldl_app. apply dict_of_foldl. Qed.

Lemma dict_of_snoc key terms t k :
  TermSet.dict_of key (terms ++ [t]) !! k =
  if decide (key t = k) then Some t else TermSet.dict_of key terms !! k.
Proof.
  unfold TermSet.dict_of. rewrite foldl_app. simpl.
  destruct (decide (key t = k)) as [<-|Hne].
  - by rewrite lookup_insert_eq.
  - by rewrite lookup_insert_ne.
Qed.

Lemma dict_of_Some key terms k t :
  TermSet.dict_of key terms !! k = Some t -> t ∈ terms /\ key t = k.
Proof.
  induction terms as [|u terms IH] using rev_ind.
  - unfold TermSet.dict_of. simpl. by rewrite lookup_empty.
  - rewrite dict_of_snoc. destruct (decide (key u = k)) as [<-|Hne].
    + intros [= ->]. split; [|done]. apply elem_of_app. right. by left.
    + intros H. destruct (IH H) as [Hin Hk]. split; [|done]. apply elem_of_app. by left.
Qed.

Lemma dict_of_is_Some key terms k :
  is_Some (TermSet.dict_of key terms !! k) <-> exists t, t ∈ terms /\ key t = k.
Proof.
  split.
  - intros [t Ht]. exists t. by apply (dict_of_Some key).
  - intros (t & Hin & Hk). induction terms as [|u terms IH] using rev_ind.
    + by apply elem_of_nil in Hin.
    + rewrite dict_of_snoc. destruct (decide (key u = k)); [done|].
      apply IH. apply elem_of_app in Hin as [Hin|Hin]; [done|].
      apply list_elem_of_singleton in Hin. congruence.
Qed.

Lemma dict_of_NoDup key terms t :
  NoDup (key <$> terms) -> t ∈ terms ->
  TermSet.dict_of key terms !! key t = Some t.
Proof.
  induction terms as [|u terms IH] using rev_ind; intros Hnd Hin.
  - by apply elem_of_nil in Hin.
  - rewrite dict_of_snoc. rewrite fmap_app in Hnd. apply NoDup_app in Hnd as (Hnd & Hdisj & _).
    apply elem_of_app in Hin as [Hin|Hin].
    + destruct (decide (key u = key t)) as [Heq|Hne].
      * exfalso. apply (Hdisj (key t)).
        -- apply list_elem_of_fmap. by exists t.
        -- simpl. rewrite Heq. by left.
      * by apply IH.
    + apply list_elem_of_singleton in Hin as ->. by rewrite decide_True.
Qed.

Lemma eq_str_true t k : Term.eq_str t k = true <-> Term.name t = k \/ Term.id t = k.
Proof.
  unfold Term.eq_str. rewrite orb_true_iff, !String.eqb_eq. done.
Qed.

Lemma contains_true terms k :
  TermSet.contains (TermSet.init terms) k = true <->
  exists t, t ∈ terms /\ Term.eq_str t k = true.
Proof.
  unfold TermSet.contains. simpl.
  rewrite !orb_true_iff, !bool_decide_eq_true, !dict_of_is_Some, existsb_exists.
  setoid_rewrite <- list_elem_of_In. setoid_rewrite eq_str_true.
  split.
  - intros [[H|(t & ? & ?)]|(t & ? & ?)]; [done|exists t; auto|exists t; auto].
  - intros (t & Hin & H). left. left. by exists t.
Qed.

(** X23 ([TermSet.__getitem__], [__contains__], [keys], [get]).  For a
    string [k]: [self[k]] returns a term of the set whose id or name is
    [k]; [k in self] holds exactly when [self[k]] returns, exactly when
    [k] is among [keys()]; otherwise [self[k]] raises [KeyError(k)] and
    [get] returns its default. *)
Theorem termset_getitem_str terms k :
  (forall t, TermSet.getitem (TermSet.init terms) (TermSet.Str k) = TermSet.Found t ->
     t ∈ terms /\ (Term.id t = k \/ Term.name t = k)) /\
  (TermSet.contains (TermSet.init terms) k = true <->
   exists t, TermSet.getitem (TermSet.init terms) (TermSet.Str k) = TermSet.Found t) /\
  (TermSet.contains (TermSet.init terms) k = false <->
   TermSet.getitem (TermSet.init terms) (TermSet.Str k) = TermSet.KeyError k) /\
  (k ∈ TermSet.keys (TermSet.init terms) <->
   TermSet.contains (TermSet.init terms) k = true) /\
  (forall default,
     TermSet.contains (TermSet.init terms) k = false ->
     TermSet.get (TermSet.init terms) (TermSet.Str k) default = default).
Proof.
  assert (TermSet.contains (TermSet.init terms) k = true <->
          exists t, TermSet.getitem (TermSet.init terms) (TermSet.Str k) = TermSet.Found t)
    as Hfound.
  { rewrite contains_true. simpl. split.
    - intros (t & Hin & [Hk|Hk]%eq_str_true).
      + destruct (TermSet.dict_of Term.id terms !! k) as [u|]; [by exists u|].
        destruct (proj2 (dict_of_is_Some Term.name terms k)) as [u ->]; [by exists t|].
        by exists u.
      + destruct (proj2 (dict_of_is_Some Term.id terms k)) as [u ->]; [by exists t|].
        by exists u.
    - intros [t Ht].
      destruct (TermSet.dict_of Term.id terms !! k) as [u|] eqn:Hid.
      + apply dict_of_Some in Hid as [Hin Hk]. exists u. split; [done|].
        apply eq_str_true. auto.
      + destruct (TermSet.dict_of Term.name terms !! k) as [u|] eqn:Hname; [|done].
        apply dict_of_Some in Hname as [Hin Hk]. exists u. split; [done|].
        apply eq_str_true. auto. }
  assert (TermSet.contains (TermSet.init terms) k = false <->
          TermSet.getitem (TermSet.init terms) (TermSet.Str k) = TermSet.KeyError k)
    as Hmissing.
  { rewrite <- not_true_iff_false, Hfound. simpl.
    destruct (TermSet.dict_of Term.id terms !! k) as [u|].
    - split; [|done]. intros H. destruct H. by exists u.
    - destruct (TermSet.dict_of Term.name terms !! k) as [u|].
      + split; [|done]. intros H. destruct H. by exists u.
      + split; [done|]. by intros _ [t Ht]. }
  split_and!; [|done|done| |].
  - intros t. simpl.
    destruct (TermSet.dict_of Term.id terms !! k) as [u|] eqn:Hid.
    + intros [= <-]. apply dict_of_Some in Hid as [Hin Hk]. auto.
    + destruct (TermSet.dict_of Term.name terms !! k) as [u|] eqn:Hname; [|done].
      intros [= <-]. apply dict_of_Some in Hname as [Hin Hk]. auto.
  - rewrite contains_true. unfold TermSet.keys. simpl.
    rewrite elem_of_union, !elem_of_dom, !dict_of_is_Some.
    setoid_rewrite eq_str_true. split.
    + intros [(t & ? & ?)|(t & ? & ?)]; exists t; auto.
    + intros (t & Hin & [Hk|Hk]); [right|left]; by exists t.
  - intros default Hno. apply Hmissing in Hno. unfold TermSet.get. by rewrite Hno.
Qed.

(** X24 ([TermSet.__init__], [__getitem__]).  In a set with distinct
    ids every term is found under its id; in a set with distinct names
    a term is found under its name when no term has that name as id. *)
Theorem termset_getitem_unique terms t :
  t ∈ terms ->
  (NoDup (Term.id <$> terms) ->
   TermSet.getitem (TermSet.init terms) (TermSet.Str (Term.id t)) = TermSet.Found t) /\
  (NoDup (Term.name <$> terms) ->
   (forall u, u ∈ terms -> Term.id u <> Term.name t) ->
   TermSet.getitem (TermSet.init terms) (TermSet.Str (Term.name t)) = TermSet.Found t).
Proof.
  intros Hin. split.
  - intros Hnd. simpl. by rewrite (dict_of_NoDup Term.id).
  - intros Hnd Hids. simpl.
    destruct (TermSet.dict_of Term.id terms !! Term.name t) as [u|] eqn:Hid.
    + apply dict_of_Some in Hid as [Hu Hk]. by destruct (Hids u Hu).
    + by rewrite (dict_of_NoDup Term.name).
Qed.

(** X25 ([TermSet.__getitem__]).  Ids are looked up before names: if the
    name of a term is the id of another term, looking up that name
    returns the other term. *)
Theorem termset_id_shadows_name terms t u :
  NoDup (Term.id <$> terms) ->
  t ∈ terms -> u ∈ terms -> Term.id u = Term.name t -> u <> t ->
  TermSet.getitem (TermSet.init terms) (TermSet.Str (Term.name t)) = TermSet.Found u.
Proof.
  intros Hnd Ht Hu Heq Hne. simpl. rewrite <- Heq.
  by rewrite (dict_of_NoDup Term.id).
Qed.

Lemma list_getitem_app_l {A} (a b : list A) i :
  0 <= i < Z.of_nat (length a) ->
  TermSet.list_getitem (a ++ b) i = TermSet.list_getitem a i.
Proof.
  intros Hi. unfold TermSet.list_getitem.
  assert ((i <? 0) = false) as -> by (apply Z.ltb_ge; lia).
  rewrite lookup_app_l by lia. done.
Qed.

Lemma list_getitem_app_r {A} (a b : list A) i :
  Z.of_nat (length a) <= i ->
  TermSet.list_getitem (a ++ b) i = TermSet.list_getitem b (i - Z.of_nat (length a)).
Proof.
  intros Hi. unfold TermSet.list_getitem.
  assert ((i <? 0) = false) as -> by (apply Z.ltb_ge; lia).
  assert ((i - Z.of_nat (length a) <? 0) = false) as -> by (apply Z.ltb_ge; lia).
  rewrite lookup_app_r by lia.
  replace (Z.to_nat i - length a)%nat with (Z.to_nat (i - Z.of_nat (length a))) by lia.
  by rewrite (proj2 (Z.ltb_ge i 0)), (proj2 (Z.ltb_ge (i - Z.of_nat (length a)) 0)) by lia.
Qed.

(** X26 ([TermSet.__add__]).  The sum of two sets lists the terms of the
    left one and then those of the right one; under an id or a name both
    have, it holds the term of the right one; and a string is in the sum
    exactly when it is in one of the two. *)
Theorem termset_add_shadows a b :
  let sum := TermSet.add (TermSet.init a) (TermSet.init b) in
  TermSet.len sum = TermSet.len (TermSet.init a) + TermSet.len (TermSet.init b) /\
  (forall i, 0 <= i < TermSet.len (TermSet.init a) ->
     TermSet.getitem sum (TermSet.Int i) = TermSet.getitem (TermSet.init a) (TermSet.Int i)) /\
  (forall i, TermSet.len (TermSet.init a) <= i ->
     TermSet.getitem sum (TermSet.Int i)
     = TermSet.getitem (TermSet.init b) (TermSet.Int (i - TermSet.len (TermSet.init a)))) /\
  (forall k,
     TermSet.by_id sum !! k =
     match TermSet.by_id (TermSet.init b) !! k with
     | Some t => Some t
     | None => TermSet.by_id (TermSet.init a) !! k
     end) /\
  (forall k,
     TermSet.by_name sum !! k =
     match TermSet.by_name (TermSet.init b) !! k with
     | Some t => Some t
     | None => TermSet.by_name (TermSet.init a) !! k
     end) /\
  (forall k,
     TermSet.contains sum k =
     TermSet.contains (TermSet.init a) k || TermSet.contains (TermSet.init b) k).
Proof.
  cbv zeta. unfold TermSet.add, TermSet.len. simpl. split_and!.
  - rewrite length_app. lia.
  - intros i Hi. by apply list_getitem_app_l.
  - intros i Hi. by apply list_getitem_app_r.
  - intros k. apply dict_of_app.
  - intros k. apply dict_of_app.
  - intros k. apply eq_true_iff_eq.
    rewrite orb_true_iff.
    rewrite (contains_true (a ++ b)), (contains_true a), (contains_true b).
    setoid_rewrite elem_of_app. split.
    + intros (t & [Hin|Hin] & Ht); [left|right]; by exists t.
    + intros [(t & Hin & Ht)|(t & Hin & Ht)]; exists t; auto.
Qed.

(** Unique lists *)

Lemma filter_keeps_all {A} (P : A -> Prop) `{forall x, Decision (P x)} (l : list A) :
  Forall P l -> filter P l = l.
Proof.
  induction 1 as [|x l Hx Hl IH]; [done|].
  rewrite filter_cons_True by done. by f_equal.
Qed.

Section UniqueList.
Context `{Countable A}.

Lemma unique_loop_filter n (items : list A) (seen : gset A) (out : list A) :
  (length items <= n)%nat ->
  unique_loop items seen out = out ++ _unique_list (filter (fun y => y ∉ seen) items).
Proof.
  unfold _unique_list.
  revert items seen out. induction n as [|n IH]; intros [|x items] seen out Hn;
    simpl in Hn; try lia.
  - simpl. by rewrite app_nil_r.
  - simpl. by rewrite app_nil_r.
  - simpl. case_bool_decide as Hx.
    + rewrite filter_cons_False by (intros Hno; by apply Hno).
      apply IH. lia.
    + rewrite filter_cons_True by done. simpl.
      rewrite bool_decide_false by apply not_elem_of_empty.
      rewrite (IH items) by lia.
      rewrite (IH (filter (fun y => y ∉ seen) items)).
      2:{ pose proof (length_filter (fun y => y ∉ seen) items). lia. }
      rewrite list_filter_filter, <- !(assoc_L (++)). simpl. do 3 f_equal.
      apply list_filter_iff. intros y.
      rewrite !elem_of_union, elem_of_singleton, elem_of_empty. tauto.
Qed.

Lemma unique_list_cons x (items : list A) :
  _unique_list (x :: items) = x :: _unique_list (filter (fun y => y <> x) items).
Proof.
  unfold _unique_list at 1. simpl. rewrite bool_decide_false by apply not_elem_of_empty.
  rewrite (unique_loop_filter (length items)) by done. simpl. f_equal. f_equal.
  apply list_filter_iff. intros y.
  rewrite !elem_of_union, elem_of_singleton, elem_of_empty. tauto.
Qed.

Lemma unique_list_elem_of n (items : list A) x :
  (length items <= n)%nat ->
  x ∈ _unique_list items <-> x ∈ items.
Proof.
  revert items. induction n as [|n IH]; intros [|y items] Hn; simpl in Hn; try lia.
  - done.
  - done.
  - rewrite unique_list_cons, !elem_of_cons, IH, list_elem_of_filter.
    + destruct (decide (x = y)); tauto.
    + pose proof (length_filter (fun z => z <> y) items). lia.
Qed.

Lemma unique_list_NoDup n (items : list A) :
  (length items <= n)%nat -> NoDup (_unique_list items).
Proof.
  revert items. induction n as [|n IH]; intros [|y items] Hn; simpl in Hn; try lia.
  - apply NoDup_nil_2.
  - apply NoDup_nil_2.
  - rewrite unique_list_cons. apply NoDup_cons_2.
    + rewrite (unique_list_elem_of (length items)).
      * rewrite list_elem_of_filter. tauto.
      * apply length_filter.
    + apply IH. pose proof (length_filter (fun z => z <> y) items). lia.
Qed.

Lemma unique_list_sublist n (items : list A) :
  (length items <= n)%nat -> _unique_list items `sublist_of` items.
Proof.
  revert items. induction n as [|n IH]; intros [|y items] Hn; simpl in Hn; try lia.
  - done.
  - done.
  - rewrite unique_list_cons. apply sublist_skip.
    transitivity (filter (fun z => z <> y) items).
    + apply IH. pose proof (length_filter (fun z => z <> y) items). lia.
    + apply sublist_filter.
Qed.

Lemma unique_list_id (items : list A) :
  NoDup items -> _unique_list items = items.
Proof.
  induction items as [|x items IH]; intros Hnd; [done|].
  apply NoDup_cons in Hnd as [Hx Hnd].
  rewrite unique_list_cons. f_equal.
  rewrite filter_keeps_all; [by apply IH|].
  apply Forall_forall. intros y Hy ->. done.
Qed.

(** X27 ([_unique_list]).  [_unique_list] keeps the first occurrence of
    each item, in order: the result has no duplicates, the same members
    as the input and is a sublist of it; its head is the head of the
    input and its tail the unique list of the rest without that item; it
    is idempotent, and leaves exactly the duplicate-free lists as they
    are. *)
Theorem unique_list_first_occurrences (items : list A) :
  NoDup (_unique_list items) /\
  (forall x, x ∈ _unique_list items <-> x ∈ items) /\
  _unique_list items `sublist_of` items /\
  (forall x rest, items = x :: rest ->
     _unique_list items = x :: _unique_list (filter (fun y => y <> x) rest)) /\
  _unique_list (_unique_list items) = _unique_list items /\
  (_unique_list items = items <-> NoDup items).
Proof.
  pose proof (unique_list_NoDup (length items) items ltac:(done)) as Hnd.
  split_and!.
  - done.
  - intros x. by apply (unique_list_elem_of (length items)).
  - by apply (unique_list_sublist (length items)).
  - intros x rest ->. apply unique_list_cons.
  - by apply unique_list_id.
  - split; [by intros <-|apply unique_list_id].
Qed.

End UniqueList.

(** ** The further properties on the examples *)

Lemma read_scans_terminates_witness :
  exists r,
    read_scans weak_promotion Example.dll (Z.to_nat 4194304) 7 0 3 Example.small_reader = Some r /\
    forall fuel', (Z.to_nat 4194304 <= fuel')%nat ->
      read_scans weak_promotion Example.dll fuel' 7 0 3 Example.small_reader = Some r.
Proof.
  apply (read_scans_terminates weak_promotion Example.dll 7 0 3 Example.small_reader (Z.to_nat 4194304)).
  change (attempt_size Example.small_reader) with 2. lia.
Defined.

Lemma read_scans_estimate_invariant_witness :
  attempt_size Example.small_reader <= attempt_size Example.small_reader_read <= 4194305 /\
  _frame_cache Example.small_reader_read = _frame_cache Example.small_reader /\
  Forall (is_allocation_within 4194305)
    (new_events Example.small_reader Example.small_reader_read).
Proof.
  apply (read_scans_estimate_invariant weak_promotion Example.dll 2 7 0 3 Example.small_reader
           (Return Example.scans7) Example.small_reader_read).
  - vm_compute. split; discriminate.
  - reflexivity.
Defined.

(** The fourth failure of X3 on the example: under the weak promotion, a
    range of [2 ^ 32] scans is refused by the first sum. *)
Lemma read_scans_range_overflow :
  read_scans weak_promotion Example.dll 1 7 0 4294967296 Example.reader
  = Some (Raise (OverflowError (Msg "Python integer %d out of bounds for uint32"
                                  [ArgInt 4294967296])),
          after_attempt 7 0 4294967296 Example.reader).
Proof.
  unfold read_scans.
  assert (read_scans_buffer Example.dll 1 7 0 4294967296 Example.reader
          = Some (Return (map Example.words (seq 0 128)),
                  after_attempt 7 0 4294967296 Example.reader)) as -> by reflexivity.
  replace (Z.to_nat (4294967296 - 0)) with (S (Z.to_nat 4294967295)) by lia.
  reflexivity.
Qed.

Lemma read_scans_failures_witness :
  FrameTooLarge = FrameTooLarge \/
  FrameTooLarge = RuntimeError (Msg (tims_get_last_error_string Example.oversized_dll) []) \/
  (FrameTooLarge
   = IndexError (Msg "index %d is out of bounds"
                   [ArgInt (attempt_size (after_attempt 7 0 3 Example.reader))]) /\
   attempt_size (after_attempt 7 0 3 Example.reader) < 3 - 0) \/
  (weak_promotion = weak_promotion /\
   FrameTooLarge
   = OverflowError (Msg "Python integer %d out of bounds for uint32" [ArgInt (3 - 0)]) /\
   2 ^ 32 <= 3 - 0).
Proof.
  apply (read_scans_failures weak_promotion Example.oversized_dll 1 7 0 3 Example.reader
           FrameTooLarge (after_attempt 7 0 3 Example.reader)).
  - vm_compute. discriminate.
  - reflexivity.
Defined.

(** X4 on a buffer whose one scan counts three peaks and holds two words
    after the count, and on one whose count makes the [uint32] position
    wrap: no indices, and the four words of the buffer as intensities. *)
Lemma decode_scans_truncates_witness :
  (exists result,
     decode_scans weak_promotion MoreExamples.truncated_buffer 0 1 (Z.of_nat 1)
     = Return result /\
     length result = 1%nat /\
     (forall i indices intensities, result !! i = Some (indices, intensities) ->
        exists c, MoreExamples.truncated_buffer !! i = Some c /\
          (length indices <= N.to_nat c)%nat /\ (length intensities <= N.to_nat c)%nat) /\
     (Z.of_nat (1 + 2 * sum_list (peak_counts MoreExamples.truncated_buffer 1))
      < wrap_limit weak_promotion ->
      forall i indices intensities, result !! i = Some (indices, intensities) ->
        (length intensities <= length indices)%nat)) /\
  decode_scans weak_promotion MoreExamples.truncated_buffer 0 1 1
  = Return [([10; 11], [])]%N /\
  decode_scans weak_promotion MoreExamples.wrapping_buffer 0 1 1
  = Return [([], [4294967295; 10; 11; 12])]%N /\
  decode_scans legacy_promotion MoreExamples.wrapping_buffer 0 1 1
  = Return [([10; 11; 12], [])]%N.
Proof.
  split; [|split_and!; reflexivity].
  apply (decode_scans_truncates weak_promotion MoreExamples.truncated_buffer 1).
  - vm_compute. lia.
  - reflexivity.
  - repeat constructor.
Defined.

Lemma read_scans_growth_idempotent_witness :
  exists result, forall self : TIMSData Z,
    handle self = 1 -> 0 <= attempt_size self <= 4194305 ->
    exists self',
      read_scans weak_promotion Example.dll 2 7 0 3 self = Some (result, self') /\
      read_scans weak_promotion Example.dll 1 7 0 3 self' = Some (result, after_attempt 7 0 3 self').
Proof.
  apply (read_scans_growth_idempotent weak_promotion Example.dll 1 7 0 3 36 Example.words).
  - intros len. exists Example.words. split; [reflexivity|]. intros _ i _. reflexivity.
  - lia.
  - vm_compute. discriminate.
Defined.

Lemma get_frame_by_id_cached_afterwards_witness :
  _frame_cache Example.reader_after_frame5 !! 5 = Some Example.frame5 /\
  get_frame_by_id Example.conn 5 Example.reader_after_frame5
  = (Return Example.frame5, Example.reader_after_frame5) /\
  (forall other, other <> 5 ->
     _frame_cache Example.reader_after_frame5 !! other = _frame_cache Example.reader !! other).
Proof.
  apply (get_frame_by_id_cached_afterwards Example.conn 5 Example.reader
           Example.frame5 Example.reader_after_frame5).
  reflexivity.
Defined.

Lemma evicted_frame_reloads_witness :
  exists self',
    get_frame_by_id Example.conn 5 (evict 5 Example.reader_after_frame5)
    = (Return Example.frame5, self') /\
    _frame_cache self' = _frame_cache Example.reader_after_frame5 /\
    cache_consistent Example.conn (evict 5 Example.reader_after_frame5).
Proof.
  apply (evicted_frame_reloads Example.conn 5 Example.reader_after_frame5 Example.frame5).
  - apply (get_frame_by_id_consistent Example.conn 5 Example.reader
             (Return Example.frame5) Example.reader_after_frame5).
    + apply cache_consistent_init.
    + reflexivity.
  - reflexivity.
Defined.

Lemma get_scan_by_id_keeps_cache_consistent_witness :
  cache_consistent Example.conn
    (get_scan_by_id Example.unicode Example.conn (text "frame=5 scan=2") Example.reader).2.
Proof.
  apply (get_scan_by_id_keeps_cache_consistent Example.conn Example.unicode
           (text "frame=5 scan=2") Example.reader
           (get_scan_by_id Example.unicode Example.conn (text "frame=5 scan=2")
              Example.reader).1).
  - apply cache_consistent_init.
  - apply surjective_pairing.
Defined.

Lemma parsers_exclusive_witness :
  multi_scan_id_parser Example.unicode (text "frame=7 scan=3") = None.
Proof.
  apply (parsers_exclusive Example.unicode (text "frame=7 scan=3") (text "7", text "3")).
  reflexivity.
Defined.

Lemma single_scan_reference_round_trip_witness :
  exists scan,
    get_scan_by_id Example.unicode Example.conn (text "frame=7 scan=3") Example.reader
    = (Return scan, (get_frame_by_id Example.conn 7 Example.reader).2) /\
    scan_data scan = TIMSSpectrumDataBase.make Example.frame7 2 None /\
    (TIMSFrame.id Example.frame7 = 7 ->
     TIMSSpectrumDataBase.make_id_string (scan_data scan) = text "frame=7 scan=3").
Proof.
  apply (single_scan_reference_round_trip Example.unicode Example.conn
           (TIMSSpectrumDataBase.make Example.frame7 2 None) Example.reader
           Example.frame7 (get_frame_by_id Example.conn 7 Example.reader).2).
  - reflexivity.
  - vm_compute. discriminate.
  - vm_compute. discriminate.
  - reflexivity.
Defined.

Lemma negative_numbers_rejected_witness :
  get_scan_by_id Example.unicode Example.conn (text "frame=7 scan=-2") Example.reader
  = (Raise (InvalidScanIdentifier (text "frame=7 scan=-2")), Example.reader).
Proof.
  apply (negative_numbers_rejected Example.unicode Example.conn
           (TIMSSpectrumDataBase.make Example.frame7 (-3) None) Example.reader).
  apply Exists_cons_tl, Exists_cons_hd. reflexivity.
Defined.

Lemma other_frames_have_no_precursor_witness :
  _isolation_window (fun x => x / 2) MoreExamples.scan5 = Return None /\
  _precursor_information Example.dll Example.conn id id MoreExamples.scan5 Example.reader
  = (Return None, Example.reader) /\
  (_activation MoreExamples.scan5 Example.reader).1
  = Raise (UnboundLocalError "collision_energy") /\
  (_ms_level MoreExamples.scan5 = 2 <-> FramesRow.MsMsType (Example.frames_row 5 2) <> 0).
Proof.
  apply (other_frames_have_no_precursor Example.dll Example.conn id id (fun x => x / 2)
           5 (Example.frames_row 5 2) MoreExamples.scan5 Example.reader).
  - vm_compute. discriminate.
  - reflexivity.
Defined.

Lemma isolation_window_by_precursor_witness :
  exists window,
    _isolation_window (fun x => x / 2) MoreExamples.pasef_scan = Return (Some window) /\
    lower window = upper window /\
    lower window = PASEFPrecursorInformation.isolation_width Example.precursor0 / 2 /\
    target window = PASEFPrecursorInformation.isolation_mz Example.precursor0 /\
    exists activation,
      (_activation MoreExamples.pasef_scan Example.reader).1 = Return activation /\
      energy activation = PASEFPrecursorInformation.collision_energy Example.precursor0.
Proof.
  apply (isolation_window_by_precursor (fun x => x / 2) MoreExamples.pasef_scan
           Example.reader (Return (Some Example.precursor0))).
  - reflexivity.
  - reflexivity.
Defined.

Lemma precursor_information_of_pasef_scan_witness :
  exists pinfo,
    _precursor_information Example.dll Example.conn id id MoreExamples.pasef_scan Example.reader
    = (Return (Some pinfo),
       (get_frame_by_id Example.conn 7
          (after_conversion tims_scannum_to_oneoverk0 8 [0] Example.reader)).2) /\
    inverse_reduced_ion_mobility pinfo = [1000] /\
    product_scan_id pinfo = text "frame=8 scan=1" /\
    precursor_scan_id pinfo = text "frame=7 startScan=1 endScan=3" /\
    forall unicode, single_scan_id_parser unicode (precursor_scan_id pinfo) = None.
Proof.
  apply (precursor_information_of_pasef_scan Example.dll Example.conn id id
           MoreExamples.pasef_scan Example.reader Example.precursor0 1
           (fun i => 1000 + nth i [0] 0) Example.frame7
           (get_frame_by_id Example.conn 7
              (after_conversion tims_scannum_to_oneoverk0 8 [0] Example.reader)).2).
  - reflexivity.
  - reflexivity.
  - reflexivity.
  - discriminate.
  - reflexivity.
Defined.

Lemma scan_arrays_reprofiles_centroids_witness :
  _scan_arrays weak_promotion Example.dll Z.of_N Example.argsort Example.pick_peaks Example.reprofile
    2 MoreExamples.merged7 Example.small_reader =
  match _get_centroids weak_promotion Example.dll Z.of_N Example.argsort Example.pick_peaks
          2 MoreExamples.merged7 Example.small_reader with
  | None => None
  | Some (Return centroids, self') =>
      Some (Return (Example.reprofile centroids
                      (dx (_scan_merging_parameters Example.small_reader))
                      (fwhm (_scan_merging_parameters Example.small_reader))), self')
  | Some (Raise e, self') => Some (Raise e, self')
  end.
Proof.
  apply (scan_arrays_reprofiles_centroids weak_promotion Example.dll Z.of_N Example.argsort
           Example.pick_peaks Example.reprofile 2 MoreExamples.merged7 Example.small_reader).
  reflexivity.
Defined.

Lemma build_frame_index_counts_witness :
  exists counts,
    Metadata._build_frame_index MoreExamples.frame_count_rows = Metadata.Found counts /\
    counts !! "Total"%string = Some 16 /\
    counts !! "MS1 Scan"%string = Some 4 /\
    counts !! "PASEF MS2 Scan"%string = Some 12.
Proof.
  destruct (Metadata._build_frame_index MoreExamples.frame_count_rows) as [counts|key] eqn:Hrun.
  - exists counts. split; [reflexivity|].
    destruct (build_frame_index_counts MoreExamples.frame_count_rows counts)
      as (Htotal & Hrows & _).
    + apply (bool_decide_unpack _). vm_compute. reflexivity.
    + exact Hrun.
    + split; [exact Htotal|]. split.
      * apply (Hrows 0 4). { left. } reflexivity.
      * apply (Hrows 8 12). { right. left. } reflexivity.
  - vm_compute in Hrun. discriminate.
Defined.

Lemma read_global_metadata_last_values_witness :
  exists md,
    GlobalMetadata._read_global_metadata MoreExamples.float MoreExamples.global_metadata_rows
    = Return md /\
    holds_last_values MoreExamples.float MoreExamples.global_metadata_rows md /\
    last_value "InstrmentFamily" MoreExamples.global_metadata_rows = Some "timsTOF Pro"%string.
Proof.
  destruct (GlobalMetadata._read_global_metadata MoreExamples.float
              MoreExamples.global_metadata_rows) as [md|e] eqn:Hrun.
  - exists md. split; [reflexivity|]. split; [|reflexivity].
    apply (read_global_metadata_last_values MoreExamples.float
             MoreExamples.global_metadata_rows md).
    exact Hrun.
  - vm_compute in Hrun. discriminate.
Defined.

Lemma termset_getitem_unique_witness :
  TermSet.getitem (TermSet.init MoreExamples.analyzers) (TermSet.Str "MS:1000264")
  = TermSet.Found MoreExamples.ion_trap /\
  TermSet.getitem (TermSet.init MoreExamples.analyzers) (TermSet.Str "ion trap")
  = TermSet.Found MoreExamples.ion_trap.
Proof.
  destruct (termset_getitem_unique MoreExamples.analyzers MoreExamples.ion_trap) as [Hid Hname].
  - right. left.
  - split.
    + apply Hid. apply (bool_decide_unpack _). vm_compute. reflexivity.
    + apply Hname.
      * apply (bool_decide_unpack _). vm_compute. reflexivity.
      * apply Forall_forall. apply (bool_decide_unpack _). vm_compute. reflexivity.
Defined.

Lemma termset_id_shadows_name_witness :
  TermSet.getitem (TermSet.init MoreExamples.analyzers) (TermSet.Str "quadrupole")
  = TermSet.Found MoreExamples.alias.
Proof.
  apply (termset_id_shadows_name MoreExamples.analyzers MoreExamples.quadrupole
           MoreExamples.alias).
  - apply (bool_decide_unpack _). vm_compute. reflexivity.
  - left.
  - right. right. left.
  - reflexivity.
  - discriminate.
Defined.
